(** * Resilient Event Orchestration Gateway: ledger, queue, worker, gate

    A shallow embedding of the event module (repository.ts, queue.ts,
    service.ts, worker.ts, controller.ts, shared/hmac.ts) with the
    correlation id middleware of app.ts, and the properties of its
    idempotency ledger, retry policy, dead-letter handling, ingestion
    gate and read side.

    Conventions.
    - JavaScript numbers that the code uses as counters, delays and
      timestamps are integers, modelled as [Z].
    - A JavaScript string is modelled by the [string] of its UTF-8 bytes,
      so [Buffer.from(s)] is the list of the bytes of [s].
    - An [async] function is a state transformer over [World]; a rejected
      promise is the completion [Throw]. Side effects made before a throw
      persist, as they do in the source.
    - Clock readings, [Math.random] draws and [crypto.randomUUID] values
      come from an environment [Env] of oracles indexed by the number of
      readings made so far.
    - The MongoDB collection and the Redis queues are modelled as
      available: their operations do not raise connection errors. Of the
      schema, the [required] validators and the unique index on [eventId]
      are modelled; the TTL index, by which MongoDB expires a row 30 days
      after its creation, is outside the operations modelled. Of BullMQ,
      the checks that [queue.add] makes on a custom job id are modelled.
    - Two views of a run are given. In [Obs.Step] the operations of the
      system (a request, a replay, a job taken through its attempts) run
      one after the other. In [Tasks.exec] the handlers of the jobs in
      flight are resumed in any order, one awaited call at a time, as the
      worker runs them with a concurrency above 1. *)

From stdpp Require Import base strings list gmap pretty.
From Stdlib Require Import Ascii ZArith QArith Lia Sorted.

Open Scope Z_scope.
Open Scope string_scope.
Open Scope list_scope.

(** ** JavaScript values and completions *)

Module Js.

(** An [Error] object: its message and, for driver errors, a numeric code. *)
Record JsError := mkError { message : string; code : option Z }.

(** The outcome of evaluating a JavaScript call. *)
Inductive completion (A : Type) : Type :=
| Normal (a : A)
| Throw (e : JsError).
Arguments Normal {A} a.
Arguments Throw {A} e.

(** JSON data, as carried in [payload: Record<string, unknown>]. Numbers
    are the integer-valued ones. *)
#[warnings="-register-all"]
Inductive JsonValue :=
| JNull
| JBool (b : bool)
| JNumber (n : Z)
| JString (s : string)
| JArray (xs : list JsonValue)
| JObject (fields : list (string * JsonValue)).

(** [typeof v] for JSON data. *)
Definition typeof (v : JsonValue) : string :=
  match v with
  | JString _ => "string"
  | JNumber _ => "number"
  | JBool _ => "boolean"
  | JNull | JArray _ | JObject _ => "object"
  end.

(** Truthiness, as tested by [!v] and [a || b]. *)
Definition truthy (v : JsonValue) : bool :=
  match v with
  | JNull => false
  | JBool b => b
  | JNumber n => negb (Z.eqb n 0)
  | JString s => negb (String.eqb s "")
  | JArray _ | JObject _ => true
  end.

(** Truthiness of a possibly [undefined] string. *)
Definition truthy_str (s : option string) : bool :=
  match s with
  | Some s => negb (String.eqb s "")
  | None => false
  end.

(** Truthiness of a possibly [undefined] JSON value. *)
Definition truthy_opt (v : option JsonValue) : bool :=
  match v with
  | Some v => truthy v
  | None => false
  end.

(** [a || b] on possibly [undefined] strings. *)
Definition or_str (a b : option string) : option string :=
  if truthy_str a then a else b.

End Js.
Export Js.

(** ** model.ts *)

Module Model.

Inductive EventStatus := ROUTING_PENDING | ROUTED | FAILED.

#[global] Instance EventStatus_eq_dec : EqDecision EventStatus.
Proof. solve_decision. Defined.

(** A document of the [Event] collection ([IEvent]); dates are epoch
    milliseconds, [null] is [None]. *)
Record IEvent := mkEvent {
  eventId : string;
  type : string;
  payload : JsonValue;
  status : EventStatus;
  correlationId : option string;
  attempts : Z;
  error : option string;
  processedAt : option Z;
  createdAt : Z;
  updatedAt : Z
}.

End Model.

(** ** queue.ts: job data *)

Module JobData.

(** [EventJobData]. *)
Record EventJobData := mkJobData {
  eventId : string;
  type : string;
  payload : JsonValue;
  correlationId : option string
}.

(** The data of a dead-letter job, as passed to [addToDLQ]. *)
Record DLQData := mkDLQData {
  originalJob : EventJobData;
  error : string;
  failedAt : Z;
  attempts : Z
}.

End JobData.

(** ** The BullMQ queues used by queue.ts and worker.ts *)

Module Bull.

(** A job id: generated by the queue counter, or supplied as [jobId]. *)
Inductive JobId := AutoId (n : nat) | CustomId (s : string).

#[global] Instance JobId_eq_dec : EqDecision JobId.
Proof. solve_decision. Defined.

Inductive JobState := waiting | active | delayed | completed | failed.

#[global] Instance JobState_eq_dec : EqDecision JobState.
Proof. solve_decision. Defined.

(** The job options the code sets: [attempts] and the base [delay] of the
    exponential backoff. *)
Record JobOpts := mkOpts { attempts : Z; backoff_delay : Z }.

Record Job (D : Type) := mkJob {
  id : JobId;
  name : string;
  data : D;
  opts : JobOpts;
  attemptsMade : Z;
  state : JobState
}.
Arguments mkJob {D}.
Arguments id {D}.
Arguments name {D}.
Arguments data {D}.
Arguments opts {D}.
Arguments attemptsMade {D}.
Arguments state {D}.

Record Queue (D : Type) := mkQueue {
  jobs : list (Job D);
  counter : nat;
  defaultJobOptions : JobOpts
}.
Arguments mkQueue {D}.
Arguments jobs {D}.
Arguments counter {D}.
Arguments defaultJobOptions {D}.

Definition has_id {D} (i : JobId) (j : Job D) : bool := bool_decide (id j = i).

(** The store side of [queue.add(name, data, { jobId })]: a job whose
    custom id is already in the queue is not added again; otherwise a
    waiting job with the queue's default options is appended. *)
Definition addJob {D} (nm : string) (d : D) (jobId : option string)
    (q : Queue D) : Job D * Queue D :=
  match jobId with
  | Some s =>
      match List.find (has_id (CustomId s)) (jobs q) with
      | Some j => (j, q)
      | None =>
          let j := mkJob (CustomId s) nm d (defaultJobOptions q) 0 waiting in
          (j, mkQueue (jobs q ++ [j]) (counter q) (defaultJobOptions q))
      end
  | None =>
      let j := mkJob (AutoId (S (counter q))) nm d (defaultJobOptions q) 0 waiting in
      (j, mkQueue (jobs q ++ [j]) (S (counter q)) (defaultJobOptions q))
  end.

(** *** The checks of a custom job id

    [queue.add] of BullMQ 5 refuses three kinds of custom id, in this
    order. The id ['0'] and the ids that start with ['0:']:
    [jobId == '0' || jobId.startsWith('0:')]. The ids that read as an
    integer: [`${parseInt(jobId, 10)}` === jobId], where [parseInt] of a
    string without digits is [NaN], which prints as ["NaN"], and for
    digits is the double nearest to the number, and where a double below
    [1e21] prints as the shortest decimal numeral that reads back as that
    double. And the ids with a colon, unless the colons split them in
    three: [jobId.includes(':') && jobId.split(':').length !== 3]. *)

(** [s == '0' || s.startsWith('0:')]. *)
Definition zero_id (s : string) : bool :=
  String.eqb s "0" || String.prefix "0:" s.

Definition is_digit (c : ascii) : bool :=
  let n := Z.of_N (N_of_ascii c) in Z.leb 48 n && Z.leb n 57.

(** The number that a list of decimal digits denotes. *)
Definition digits_value (cs : list ascii) : Z :=
  List.fold_left (fun acc c => 10 * acc + (Z.of_N (N_of_ascii c) - 48)) cs 0.

(** The double nearest to the integer [n >= 0], ties to the even
    significand of 53 bits. *)
Definition to_double (n : Z) : Z :=
  if Z.ltb n (2 ^ 53) then n
  else
    let sh := Z.log2 n - 52 in
    let q := Z.shiftr n sh in
    let r := n - Z.shiftl q sh in
    let half := 2 ^ (sh - 1) in
    let q' := if Z.ltb half r || (Z.eqb r half && Z.odd q) then q + 1 else q in
    Z.shiftl q' sh.

(** The multiple of [10 ^ j] that reads back as the double [v] and is
    nearest to it, if there is one. *)
Definition candidate (v j : Z) : option Z :=
  let p := 10 ^ j in
  let lo := (v / p) * p in
  let hi := lo + p in
  let ok_lo := Z.ltb 0 lo && Z.eqb (to_double lo) v in
  let ok_hi := Z.eqb (to_double hi) v in
  if ok_lo && ok_hi then
    Some (if Z.ltb (v - lo) (hi - v) then lo
          else if Z.ltb (hi - v) (v - lo) then hi
          else if Z.even (lo / p) then lo else hi)
  else if ok_lo then Some lo
  else if ok_hi then Some hi
  else None.

(** The integer that [String(v)] writes for a double [0 < v < 1e21] with
    an integer value: the one with the fewest significant digits. *)
Definition shortest (v : Z) : Z :=
  let js := List.map Z.of_nat (List.rev (List.seq 0 22)) in
  default v (List.fold_left
               (fun found j => match found with Some _ => found | None => candidate v j end)
               js None).

(** [`${n}` === digits] for the number [n] that [parseInt] reads from a
    numeral without sign or leading zero. *)
Definition prints_back (n : Z) : bool :=
  let v := to_double n in
  Z.ltb v (10 ^ 21) && Z.eqb (shortest v) n.

Definition numeral (cs : list ascii) : bool :=
  match cs with
  | [] => false
  | c :: rest =>
      forallb is_digit cs
      && (match rest with [] => true | _ => negb (Ascii.eqb c "0") end)
      && prints_back (digits_value cs)
  end.

(** [`${parseInt(s, 10)}` === s]. *)
Definition integer_like (s : string) : bool :=
  if String.eqb s "NaN" then true
  else
    match String.list_ascii_of_string s with
    | c :: rest =>
        if Ascii.eqb c "-"
        then numeral rest && negb (Z.eqb (digits_value rest) 0)
        else numeral (c :: rest)
    | [] => false
    end.

#[global] Arguments integer_like : simpl never.

(** The number of colons of a string. *)
Definition colons (s : string) : nat :=
  length (List.filter (Ascii.eqb ":") (String.list_ascii_of_string s)).

(** [s.includes(':') && s.split(':').length !== 3]. *)
Definition colon_split (s : string) : bool :=
  Nat.leb 1 (colons s) && negb (Nat.eqb (colons s + 1) 3).

(** The custom ids that [queue.add] refuses. *)
Definition refused (s : string) : bool :=
  zero_id s || integer_like s || colon_split s.

#[global] Arguments refused : simpl never.

Definition zeroIdError : Js.JsError :=
  Js.mkError "JobId cannot be '0' or start with 0:" None.

Definition integerIdError : Js.JsError :=
  Js.mkError "Custom Id cannot be integers" None.

Definition colonIdError : Js.JsError :=
  Js.mkError "Custom Id cannot contain :" None.

(** [queue.add(name, data, { jobId })]: the client checks the id before
    anything is sent to the store, and the store takes an empty id as no
    id and gives the job the next id of the queue. *)
Definition add {D} (nm : string) (d : D) (jobId : option string)
    (q : Queue D) : Js.completion (Job D * Queue D) :=
  match jobId with
  | Some s =>
      if zero_id s then Js.Throw zeroIdError
      else if integer_like s then Js.Throw integerIdError
      else if colon_split s then Js.Throw colonIdError
      else if String.eqb s "" then Js.Normal (addJob nm d None q)
      else Js.Normal (addJob nm d (Some s) q)
  | None => Js.Normal (addJob nm d None q)
  end.

(** [queue.getJobs(types)]. *)
Definition getJobs {D} (types : list JobState) (q : Queue D) : list (Job D) :=
  List.filter (fun j => bool_decide (state j ∈ types)) (jobs q).

(** [job.remove()]. *)
Definition remove {D} (i : JobId) (q : Queue D) : Queue D :=
  mkQueue (List.filter (fun j => negb (has_id i j)) (jobs q))
          (counter q) (defaultJobOptions q).

(** The stored copy of a job is replaced by [j] when the worker moves it
    to another state or counts an attempt. *)
Definition put {D} (j : Job D) (q : Queue D) : Queue D :=
  mkQueue (List.map (fun k => if has_id (id j) k then j else k) (jobs q))
          (counter q) (defaultJobOptions q).

Definition set_state {D} (s : JobState) (j : Job D) : Job D :=
  mkJob (id j) (name j) (data j) (opts j) (attemptsMade j) s.

Definition set_attemptsMade {D} (n : Z) (j : Job D) : Job D :=
  mkJob (id j) (name j) (data j) (opts j) n (state j).

(** The built-in [exponential] backoff strategy: the delay before the
    retry that follows the attempt with index [attemptIndex] (counted
    from 0), [delay * Math.pow(2, attempt)] in tests/queue.test.ts. *)
Definition exponential (delay : Z) (attemptIndex : Z) : Z :=
  delay * 2 ^ attemptIndex.

End Bull.

(** ** The world the event module runs in *)

Module Sys.

(** Calls to the collaborators, recorded in the order they are made. *)
Inductive Effect :=
| LedgerFind (eventId : string)
| LedgerInsert (eventId : string)
| LedgerUpdate (eventId : string) (newStatus : option Model.EventStatus)
| RouteCall (eventId : string) (delayMs : Z)
| QueueAdd (queue : string) (jobName : string)
| QueueGetJobs (queue : string)
| QueueRemove (queue : string) (i : Bull.JobId)
| RetryScheduled (i : Bull.JobId) (delayMs : Z).

#[global] Instance Effect_eq_dec : EqDecision Effect.
Proof. solve_decision. Defined.

(** The oracles and the configuration read from [process.env]. *)
Record Env := mkEnv {
  Date_now : nat -> Z;
  Math_random : nat -> Q;
  randomUUID : nat -> string;
  HMAC_SECRET : option string;
  ROUTING_DELAY_MS : Z
}.

Record World := mkWorld {
  ledger : list Model.IEvent;
  eventQueue : Bull.Queue JobData.EventJobData;
  deadLetterQueue : Bull.Queue JobData.DLQData;
  clockReads : nat;
  randomDraws : nat;
  uuidDraws : nat;
  trace : list Effect
}.

Definition set_ledger (l : list Model.IEvent) (w : World) : World :=
  mkWorld l (eventQueue w) (deadLetterQueue w) (clockReads w) (randomDraws w)
          (uuidDraws w) (trace w).

Definition set_eventQueue (q : Bull.Queue JobData.EventJobData) (w : World) : World :=
  mkWorld (ledger w) q (deadLetterQueue w) (clockReads w) (randomDraws w)
          (uuidDraws w) (trace w).

Definition set_deadLetterQueue (q : Bull.Queue JobData.DLQData) (w : World) : World :=
  mkWorld (ledger w) (eventQueue w) q (clockReads w) (randomDraws w)
          (uuidDraws w) (trace w).

(** An asynchronous computation. *)
Definition M (A : Type) : Type := World -> completion A * World.

Definition ret {A} (a : A) : M A := fun w => (Normal a, w).

Definition throw {A} (e : JsError) : M A := fun w => (Throw e, w).

Definition bind {A B} (m : M A) (k : A -> M B) : M B :=
  fun w =>
    match m w with
    | (Normal a, w') => k a w'
    | (Throw e, w') => (Throw e, w')
    end.

(** [try { m } catch (e) { h e }]. *)
Definition try_catch {A} (m : M A) (h : JsError -> M A) : M A :=
  fun w =>
    match m w with
    | (Normal a, w') => (Normal a, w')
    | (Throw e, w') => h e w'
    end.

Declare Scope js_scope.
Delimit Scope js_scope with js.
Notation "x ← y ; z" := (bind y (fun x => z))
  (at level 20, y at level 100, z at level 200, only parsing) : js_scope.
Notation "y ;; z" := (bind y (fun _ => z))
  (at level 100, z at level 200, only parsing, right associativity) : js_scope.
Open Scope js_scope.

Definition emit (e : Effect) : M unit :=
  fun w => (Normal (), mkWorld (ledger w) (eventQueue w) (deadLetterQueue w)
                               (clockReads w) (randomDraws w) (uuidDraws w)
                               (trace w ++ [e])).

(** [new Date()] and [Date.now()]. *)
Definition new_Date (env : Env) : M Z :=
  fun w => (Normal (Date_now env (clockReads w)),
            mkWorld (ledger w) (eventQueue w) (deadLetterQueue w)
                    (S (clockReads w)) (randomDraws w) (uuidDraws w) (trace w)).

(** [Math.random()]. *)
Definition random (env : Env) : M Q :=
  fun w => (Normal (Math_random env (randomDraws w)),
            mkWorld (ledger w) (eventQueue w) (deadLetterQueue w)
                    (clockReads w) (S (randomDraws w)) (uuidDraws w) (trace w)).

(** [crypto.randomUUID()]. *)
Definition uuid (env : Env) : M string :=
  fun w => (Normal (randomUUID env (uuidDraws w)),
            mkWorld (ledger w) (eventQueue w) (deadLetterQueue w)
                    (clockReads w) (randomDraws w) (S (uuidDraws w)) (trace w)).

End Sys.
Export Sys.

(** ** The Mongoose model [Event] over the ledger *)

Module Mongoose.
Import Model.

Definition set_status (s : EventStatus) (e : IEvent) : IEvent :=
  mkEvent (eventId e) (type e) (payload e) s (correlationId e) (attempts e)
          (error e) (processedAt e) (createdAt e) (updatedAt e).

Definition set_attempts (n : Z) (e : IEvent) : IEvent :=
  mkEvent (eventId e) (type e) (payload e) (status e) (correlationId e) n
          (error e) (processedAt e) (createdAt e) (updatedAt e).

Definition set_error (x : option string) (e : IEvent) : IEvent :=
  mkEvent (eventId e) (type e) (payload e) (status e) (correlationId e)
          (attempts e) x (processedAt e) (createdAt e) (updatedAt e).

Definition set_processedAt (t : option Z) (e : IEvent) : IEvent :=
  mkEvent (eventId e) (type e) (payload e) (status e) (correlationId e)
          (attempts e) (error e) t (createdAt e) (updatedAt e).

Definition set_updatedAt (t : Z) (e : IEvent) : IEvent :=
  mkEvent (eventId e) (type e) (payload e) (status e) (correlationId e)
          (attempts e) (error e) (processedAt e) (createdAt e) t.

(** The filter [{ eventId }]. *)
Definition matches (i : string) (e : IEvent) : bool := String.eqb (eventId e) i.

(** The error raised by the unique index on [eventId]. *)
Definition duplicateKeyError : JsError :=
  mkError "E11000 duplicate key error collection: events index: eventId_1" (Some 11000).

(** [new Event({ eventId, type, payload, correlationId, status, attempts })]:
    the schema defaults fill [error] and [processedAt] with [null]; the
    timestamps are set when the document is saved. *)
Definition new_Event (i ty : string) (p : JsonValue) (c : option string)
    (s : EventStatus) (n : Z) : Z -> IEvent :=
  fun now => mkEvent i ty p s c n None None now now.

(** [Event.findOne({ eventId })]. *)
Definition findOne (i : string) : M (option IEvent) :=
  emit (LedgerFind i);;
  fun w => (Normal (List.find (matches i) (ledger w)), w).

(** The [required] validators of the schema: [eventId] and [type] are
    strings that are not empty, [payload] is not [null]. *)
Definition missing (e : IEvent) : list string :=
  (if String.eqb (eventId e) "" then ["eventId"] else [])
  ++ (if String.eqb (type e) "" then ["type"] else [])
  ++ (match payload e with JNull => ["payload"] | _ => [] end).

Definition validates (e : IEvent) : bool :=
  match missing e with [] => true | _ => false end.
#[global] Arguments validates : simpl never.

(** The [ValidationError] of a document, one message per missing path. *)
Definition validationError (e : IEvent) : JsError :=
  mkError
    ("Event validation failed: "
     +:+ String.concat ", "
           (List.map (fun p => p +:+ ": Path `" +:+ p +:+ "` is required.") (missing e)))
    None.

(** [event.save()] of a new document: the document is validated, which
    does not involve the timestamps, and a document that fails validation
    is not sent to the collection; then the timestamps are set. The unique
    index on [eventId] rejects the insert when a row with that [eventId]
    exists. *)
Definition save (env : Env) (doc : Z -> IEvent) : M IEvent :=
  if negb (validates (doc 0)) then throw (validationError (doc 0))
  else
    now ← new_Date env;
    let row := doc now in
    emit (LedgerInsert (eventId row));;
    fun w =>
      if existsb (matches (eventId row)) (ledger w)
      then (Throw duplicateKeyError, w)
      else (Normal row, set_ledger (ledger w ++ [row]) w).

(** The first document matching [{ eventId }] is updated in place. *)
Fixpoint update_first (i : string) (f : IEvent -> IEvent) (l : list IEvent)
    : option IEvent * list IEvent :=
  match l with
  | [] => (None, [])
  | e :: r =>
      if matches i e then (Some (f e), f e :: r)
      else let (o, r') := update_first i f r in (o, e :: r')
  end.

(** [Event.findOneAndUpdate({ eventId }, update, { new: true })]: no
    [upsert], so nothing is written when no document matches. [st] is the
    status the update sets, if any. *)
Definition findOneAndUpdate (i : string) (st : option EventStatus)
    (f : IEvent -> IEvent) : M (option IEvent) :=
  emit (LedgerUpdate i st);;
  fun w =>
    let (o, l') := update_first i f (ledger w) in
    (Normal o, set_ledger l' w).

End Mongoose.

(** ** repository.ts *)

Module Repository.
Import Model.

(** Check if an event already exists (for idempotency). *)
Definition eventExists (i : string) : M bool :=
  event ← Mongoose.findOne i;
  ret (bool_decide (is_Some event)).

(** Create a new event record. *)
Definition createEvent (env : Env) (data : JobData.EventJobData)
    : M (option IEvent) :=
  try_catch
    (event ← Mongoose.save env
       (Mongoose.new_Event (JobData.eventId data) (JobData.type data)
          (JobData.payload data) (JobData.correlationId data)
          ROUTING_PENDING 0);
     ret (Some event))
    (fun err =>
       if bool_decide (code err = Some 11000) then ret None else throw err).

(** Update event status; [additionalData] is the [$set] of the extra
    fields, spread after [status] and before [updatedAt]. *)
Definition updateEventStatus (env : Env) (i : string) (s : EventStatus)
    (additionalData : IEvent -> IEvent) : M (option IEvent) :=
  now ← new_Date env;
  Mongoose.findOneAndUpdate i (Some s)
    (fun e => Mongoose.set_updatedAt now (additionalData (Mongoose.set_status s e))).

(** Increment event attempt count: the update
    [{ $inc: { attempts: 1 }, $set: { updatedAt } }]. *)
Definition incrementUpdate (now : Z) (e : IEvent) : IEvent :=
  Mongoose.set_updatedAt now (Mongoose.set_attempts (attempts e + 1) e).

Definition incrementEventAttempts (env : Env) (i : string) : M (option IEvent) :=
  now ← new_Date env;
  Mongoose.findOneAndUpdate i None (incrementUpdate now).

(** Mark event as failed: the update
    [{ $set: { status: 'FAILED', error, updatedAt } }]. *)
Definition failedUpdate (err : string) (now : Z) (e : IEvent) : IEvent :=
  Mongoose.set_updatedAt now
    (Mongoose.set_error (Some err) (Mongoose.set_status FAILED e)).

Definition markEventFailed (env : Env) (i : string) (err : string)
    : M (option IEvent) :=
  now ← new_Date env;
  Mongoose.findOneAndUpdate i (Some FAILED) (failedUpdate err now).

(** Mark event as routed: the update
    [{ $set: { status: 'ROUTED', processedAt, updatedAt } }]. *)
Definition routedUpdate (processed updated : Z) (e : IEvent) : IEvent :=
  Mongoose.set_updatedAt updated
    (Mongoose.set_processedAt (Some processed) (Mongoose.set_status ROUTED e)).

Definition markEventRouted (env : Env) (i : string) : M (option IEvent) :=
  processed ← new_Date env;
  updated ← new_Date env;
  Mongoose.findOneAndUpdate i (Some ROUTED) (routedUpdate processed updated).

(** Get event by ID. *)
Definition getEventById (i : string) : M (option IEvent) :=
  Mongoose.findOne i.

End Repository.

(** ** queue.ts *)

Module EventQueue.
Import JobData.

Definition QUEUE_NAME : string := "events".
Definition DLQ_NAME : string := "events-dlq".

(** [new Queue(QUEUE_NAME, { defaultJobOptions: { attempts, backoff:
    { type: 'exponential', delay } } })], from the parsed
    [MAX_RETRY_ATTEMPTS] and [RETRY_DELAY]. *)
Definition newEventQueue (MAX_RETRY_ATTEMPTS RETRY_DELAY : Z)
    : Bull.Queue EventJobData :=
  Bull.mkQueue [] 0 (Bull.mkOpts MAX_RETRY_ATTEMPTS RETRY_DELAY).

(** The main queue when the two variables are unset: ['5'] and ['1000']. *)
Definition defaultEventQueue : Bull.Queue EventJobData := newEventQueue 5 1000.

(** [new Queue(DLQ_NAME)]: no default job options. *)
Definition newDeadLetterQueue : Bull.Queue DLQData :=
  Bull.mkQueue [] 0 (Bull.mkOpts 0 0).

(** [eventQueue.add(name, data, { jobId })]. A job id that the client
    refuses throws before the queue is called, so no call is recorded. *)
Definition eventQueue_add (nm : string) (d : EventJobData)
    (jobId : option string) : M (Bull.Job EventJobData) :=
  fun w =>
    match Bull.add nm d jobId (eventQueue w) with
    | Throw e => (Throw e, w)
    | Normal (j, q) =>
        (emit (QueueAdd QUEUE_NAME nm);;
         fun w => (Normal j, set_eventQueue q w)) w
    end.

(** [deadLetterQueue.add(name, data)]. *)
Definition deadLetterQueue_add (nm : string) (d : DLQData)
    : M (Bull.Job DLQData) :=
  fun w =>
    match Bull.add nm d None (deadLetterQueue w) with
    | Throw e => (Throw e, w)
    | Normal (j, q) =>
        (emit (QueueAdd DLQ_NAME nm);;
         fun w => (Normal j, set_deadLetterQueue q w)) w
    end.

(** [deadLetterQueue.getJobs(types)]. *)
Definition deadLetterQueue_getJobs (types : list Bull.JobState)
    : M (list (Bull.Job DLQData)) :=
  emit (QueueGetJobs DLQ_NAME);;
  fun w => (Normal (Bull.getJobs types (deadLetterQueue w)), w).

(** [job.remove()] for a job of the dead-letter queue. *)
Definition dlqJob_remove (job : Bull.Job DLQData) : M unit :=
  emit (QueueRemove DLQ_NAME (Bull.id job));;
  fun w => (Normal (), set_deadLetterQueue (Bull.remove (Bull.id job) (deadLetterQueue w)) w).

(** Add event to the queue. *)
Definition addEventToQueue (d : EventJobData) : M Bull.JobId :=
  job ← eventQueue_add "process-event" d (Some (eventId d));
  ret (Bull.id job).

(** Add failed event to DLQ. *)
Definition addToDLQ (d : DLQData) : M unit :=
  deadLetterQueue_add "failed-event" d;;
  ret ().

(** The body of the [for (const job of jobs)] loop of [replayDLQJobs],
    threading [replayedCount]. *)
Fixpoint replayLoop (jobs : list (Bull.Job DLQData)) (replayedCount : Z) : M Z :=
  match jobs with
  | [] => ret replayedCount
  | job :: rest =>
      n ← try_catch
            (eventQueue_add "retry" (originalJob (Bull.data job)) None;;
             dlqJob_remove job;;
             ret (replayedCount + 1))
            (fun _ => ret replayedCount);
      replayLoop rest n
  end.

(** Replay jobs from DLQ. *)
Definition replayDLQJobs : M Z :=
  jobs ← deadLetterQueue_getJobs [Bull.waiting; Bull.delayed];
  replayLoop jobs 0.

End EventQueue.

(** ** service.ts *)

Module Service.
Import Model.

Record ProcessResult := mkResult { success : bool; message : string }.

(** The double nearest to [0.1], the threshold of the simulated failure. *)
Definition one_tenth : Q := 3602879701896397 # 36028797018963968.

Definition routingError : JsError :=
  mkError "Routing service temporarily unavailable" None.

(** Simulate the routing service: wait [ROUTING_DELAY_MS], then fail when
    the draw is below [0.1]. *)
Definition simulateRoutingService (env : Env) (i : string) (p : JsonValue)
    : M bool :=
  emit (RouteCall i (ROUTING_DELAY_MS env));;
  r ← random env;
  if negb (Qle_bool one_tenth r) then throw routingError else ret true.

(** Process an event (called by worker). [skip] is the early return of
    the idempotency check: the row exists and is [ROUTED]. [attemptsMade]
    is only logged. *)
Definition processEvent (env : Env) (data : JobData.EventJobData)
    (attemptsMade : Z) : M ProcessResult :=
  exists_ ← Repository.eventExists (JobData.eventId data);
  skip ← (if exists_ : bool then
            existingEvent ← Repository.getEventById (JobData.eventId data);
            ret (bool_decide (status <$> existingEvent = Some ROUTED))
          else ret false);
  if skip : bool then
    ret (mkResult true "Event already processed (idempotent skip)")
  else
    (if negb exists_ then Repository.createEvent env data;; ret () else ret ());;
    Repository.incrementEventAttempts env (JobData.eventId data);;
    try_catch
      (simulateRoutingService env (JobData.eventId data) (JobData.payload data);;
       Repository.markEventRouted env (JobData.eventId data);;
       ret (mkResult true "Event routed successfully"))
      (fun error => throw error).

(** Handle final failure after all retries exhausted. *)
Definition handleFinalFailure (env : Env) (data : JobData.EventJobData)
    (error : string) : M unit :=
  Repository.markEventFailed env (JobData.eventId data) error;;
  ret ().

End Service.

(** ** worker.ts *)

Module Worker.
Import JobData.

(** Process a single event job. *)
Definition processor (env : Env) (job : Bull.Job EventJobData) : M unit :=
  Service.processEvent env (Bull.data job) (Bull.attemptsMade job);;
  ret ().

(** [job.opts.attempts || 5]. *)
Definition maxAttempts (job : Bull.Job EventJobData) : Z :=
  if Z.eqb (Bull.attempts (Bull.opts job)) 0 then 5
  else Bull.attempts (Bull.opts job).

(** The listener [worker.on('failed', async (job, error) => ...)];
    [failedAt] is kept as the clock reading it prints. *)
Definition on_failed (env : Env) (job : option (Bull.Job EventJobData))
    (error : JsError) : M unit :=
  match job with
  | None => ret ()
  | Some job =>
      if Z.leb (maxAttempts job) (Bull.attemptsMade job) then
        Service.handleFinalFailure env (Bull.data job) (message error);;
        failedAt ← new_Date env;
        EventQueue.addToDLQ
          (mkDLQData (Bull.data job) (message error) failedAt (Bull.attemptsMade job))
      else ret ()
  end.

(** How a job leaves the worker. *)
Inductive JobOutcome :=
| JobCompleted
| JobFailed (e : JsError)
| JobPending.

(** [m] run to its completion, which is handed to the caller. *)
Definition settle {A} (m : M A) : M (completion A) :=
  fun w => let (c, w') := m w in (Normal c, w').

Definition eventQueue_put (job : Bull.Job EventJobData) : M unit :=
  fun w => (Normal (), set_eventQueue (Bull.put job (eventQueue w)) w).

(** What the BullMQ worker does when [processor] has thrown [err]: the
    attempt is counted; the job is delayed by the backoff and tried again
    by [retry] when [attemptsMade < opts.attempts], and moved to failed
    otherwise; the ['failed'] listener runs in both cases. *)
Definition handleFailed (env : Env)
    (retry : Bull.Job EventJobData -> M JobOutcome)
    (job : Bull.Job EventJobData) (err : JsError) : M JobOutcome :=
  let job' := Bull.set_attemptsMade (Bull.attemptsMade job + 1) job in
  if Z.ltb (Bull.attemptsMade job') (Bull.attempts (Bull.opts job')) then
    eventQueue_put (Bull.set_state Bull.delayed job');;
    emit (RetryScheduled (Bull.id job')
            (Bull.exponential (Bull.backoff_delay (Bull.opts job'))
                              (Bull.attemptsMade job' - 1)));;
    settle (on_failed env (Some job') err);;
    retry job'
  else
    eventQueue_put (Bull.set_state Bull.failed job');;
    settle (on_failed env (Some job') err);;
    ret (JobFailed err).

(** The BullMQ worker on one job, its attempts run one after the other:
    the job is made active and handed to [processor]; it completes when
    [processor] returns, and goes through [handleFailed] when it throws.
    [fuel] bounds the number of attempts run; [JobPending] is a job still
    to be retried when the fuel is used up. *)
Fixpoint runJob (fuel : nat) (env : Env) (job : Bull.Job EventJobData)
    : M JobOutcome :=
  match fuel with
  | O => ret JobPending
  | S fuel' =>
      eventQueue_put (Bull.set_state Bull.active job);;
      r ← settle (processor env job);
      match r with
      | Normal _ =>
          eventQueue_put (Bull.set_state Bull.completed job);;
          ret JobCompleted
      | Throw err => handleFailed env (runJob fuel' env) job err
      end
  end.

End Worker.

(** ** Node's [Buffer], [JSON.stringify] and [crypto] as used by hmac.ts *)

Module Node.

(** A [Buffer]: bytes as integers in [0, 256). *)
Definition Buffer : Type := list Z.

Definition byte_of_ascii (c : ascii) : Z := Z.of_N (N_of_ascii c).

(** [Buffer.from(s)]: the UTF-8 bytes of [s]. *)
Definition Buffer_from (s : string) : Buffer :=
  List.map byte_of_ascii (String.list_ascii_of_string s).

Definition hex_digit (n : Z) : ascii :=
  ascii_of_N (Z.to_N (if Z.ltb n 10 then 48 + n else 87 + n)).

(** [buf.toString('hex')]: two lower-case digits per byte. *)
Fixpoint to_hex (b : Buffer) : string :=
  match b with
  | [] => EmptyString
  | x :: r => String (hex_digit (Z.shiftr x 4)) (String (hex_digit (Z.land x 15)) (to_hex r))
  end.

Definition hex_value (c : ascii) : option Z :=
  let n := byte_of_ascii c in
  if Z.leb 48 n && Z.leb n 57 then Some (n - 48)
  else if Z.leb 97 n && Z.leb n 102 then Some (n - 87)
  else if Z.leb 65 n && Z.leb n 70 then Some (n - 55)
  else None.

(** [Buffer.from(s, 'hex')]: pairs of hexadecimal digits are decoded up to
    the first pair that is not one; an odd last character is dropped. *)
Fixpoint from_hex (cs : list ascii) : Buffer :=
  match cs with
  | c1 :: c2 :: r =>
      match hex_value c1, hex_value c2 with
      | Some hi, Some lo => (16 * hi + lo) :: from_hex r
      | _, _ => []
      end
  | _ => []
  end.

Definition Buffer_from_hex (s : string) : Buffer :=
  from_hex (String.list_ascii_of_string s).

Definition rangeError : JsError :=
  mkError "Input buffers must have the same byte length" None.

(** [crypto.timingSafeEqual(a, b)]: throws on buffers of different
    lengths. *)
Definition timingSafeEqual (a b : Buffer) : completion bool :=
  if Nat.eqb (length a) (length b)
  then Normal (bool_decide (a = b))
  else Throw rangeError.

(** *** JSON.stringify *)

Definition dquote : ascii := ascii_of_N 34.
Definition backslash : ascii := ascii_of_N 92.

(** The escape of one character inside a JSON string. *)
Definition escape_char (c : ascii) : string :=
  let n := byte_of_ascii c in
  if Z.eqb n 34 then String backslash (String dquote EmptyString)
  else if Z.eqb n 92 then String backslash (String backslash EmptyString)
  else if Z.eqb n 8 then String backslash "b"
  else if Z.eqb n 9 then String backslash "t"
  else if Z.eqb n 10 then String backslash "n"
  else if Z.eqb n 12 then String backslash "f"
  else if Z.eqb n 13 then String backslash "r"
  else if Z.ltb n 32 then String backslash "u00" +:+ to_hex [n]
  else String c EmptyString.

Fixpoint escape (s : string) : string :=
  match s with
  | EmptyString => EmptyString
  | String c r => escape_char c +:+ escape r
  end.

Definition quote (s : string) : string :=
  String dquote (escape s +:+ String dquote EmptyString).

Definition join (parts : list string) : string :=
  match parts with
  | [] => EmptyString
  | p :: r => List.fold_left (fun acc q => acc +:+ "," +:+ q) r p
  end.

(** [JSON.stringify(v)] without indentation; the fields of an object are
    listed in its property order. *)
Fixpoint JSON_stringify (v : JsonValue) : string :=
  match v with
  | JNull => "null"
  | JBool true => "true"
  | JBool false => "false"
  | JNumber n => pretty n
  | JString s => quote s
  | JArray xs => "[" +:+ join (List.map JSON_stringify xs) +:+ "]"
  | JObject fields =>
      "{" +:+ join (List.map (fun kv => quote (fst kv) +:+ ":" +:+ JSON_stringify (snd kv)) fields) +:+ "}"
  end.

(** *** SHA-256 (FIPS 180-4) on 32-bit words *)

Definition mask32 (x : Z) : Z := Z.land x 4294967295.
Definition add32 (x y : Z) : Z := mask32 (x + y).
Definition rotr (n x : Z) : Z :=
  Z.lor (Z.shiftr x n) (mask32 (Z.shiftl x (32 - n))).
Definition Ch (x y z : Z) : Z :=
  Z.lxor (Z.land x y) (Z.land (Z.lxor x 4294967295) z).
Definition Maj (x y z : Z) : Z :=
  Z.lxor (Z.lxor (Z.land x y) (Z.land x z)) (Z.land y z).
Definition Sigma0 (x : Z) : Z := Z.lxor (Z.lxor (rotr 2 x) (rotr 13 x)) (rotr 22 x).
Definition Sigma1 (x : Z) : Z := Z.lxor (Z.lxor (rotr 6 x) (rotr 11 x)) (rotr 25 x).
Definition sigma0 (x : Z) : Z := Z.lxor (Z.lxor (rotr 7 x) (rotr 18 x)) (Z.shiftr x 3).
Definition sigma1 (x : Z) : Z := Z.lxor (Z.lxor (rotr 17 x) (rotr 19 x)) (Z.shiftr x 10).

(** The primes up to 311: the first 64. *)
Definition is_prime (n : Z) : bool :=
  forallb (fun d => negb (Z.eqb (n mod d) 0))
          (List.map Z.of_nat (List.seq 2 (Z.to_nat (Z.sqrt n) - 1))).

Definition primes : list Z :=
  List.filter is_prime (List.map Z.of_nat (List.seq 2 310)).

(** The integer cube root, bit by bit from the top. *)
Fixpoint cbrt_from (bit : nat) (n r : Z) : Z :=
  match bit with
  | O => r
  | S bit' =>
      let c := r + 2 ^ Z.of_nat bit' in
      cbrt_from bit' n (if Z.leb (c * c * c) n then c else r)
  end.

Definition cbrt (n : Z) : Z := cbrt_from 40 n 0.

(** The round constants: the first 32 bits of the fractional parts of the
    cube roots of the first 64 primes. *)
Definition K256 : list Z :=
  Eval vm_compute in List.map (fun p => mask32 (cbrt (p * 2 ^ 96))) primes.

(** The eight working variables, and the hash value. *)
Record State := mkState { sa : Z; sb : Z; sc : Z; sd : Z; se : Z; sf : Z; sg : Z; sh : Z }.

(** The initial hash value: the first 32 bits of the fractional parts of
    the square roots of the first 8 primes. *)
Definition H0 : State :=
  Eval vm_compute in
    let r := fun i => mask32 (Z.sqrt (List.nth i primes 0 * 2 ^ 64)) in
    mkState (r 0%nat) (r 1%nat) (r 2%nat) (r 3%nat) (r 4%nat) (r 5%nat) (r 6%nat) (r 7%nat).

(** The padded message: a [1] bit, zeros, and the length in bits on
    eight bytes. *)
Definition be_bytes (n : nat) (x : Z) : Buffer :=
  List.map (fun i => Z.land (Z.shiftr x (8 * Z.of_nat i)) 255) (List.rev (List.seq 0 n)).

Definition pad (msg : Buffer) : Buffer :=
  let len := Z.of_nat (length msg) in
  msg ++ [128] ++ List.repeat 0 (Z.to_nat ((55 - len) mod 64)) ++ be_bytes 8 (8 * len).

Fixpoint words (n : nat) (b : Buffer) : list Z :=
  match n, b with
  | S n', b0 :: b1 :: b2 :: b3 :: r =>
      (Z.shiftl b0 24 + Z.shiftl b1 16 + Z.shiftl b2 8 + b3) :: words n' r
  | _, _ => []
  end.

(** The message schedule, most recent word first. *)
Fixpoint schedule (n : nat) (w : list Z) : list Z :=
  match n with
  | O => w
  | S n' =>
      let x := add32 (add32 (sigma1 (List.nth 1 w 0)) (List.nth 6 w 0))
                     (add32 (sigma0 (List.nth 14 w 0)) (List.nth 15 w 0)) in
      schedule n' (x :: w)
  end.

Definition round (s : State) (kw : Z * Z) : State :=
  let t1 := add32 (add32 (add32 (sh s) (Sigma1 (se s))) (Ch (se s) (sf s) (sg s)))
                  (add32 (fst kw) (snd kw)) in
  let t2 := add32 (Sigma0 (sa s)) (Maj (sa s) (sb s) (sc s)) in
  mkState (add32 t1 t2) (sa s) (sb s) (sc s) (add32 (sd s) t1) (se s) (sf s) (sg s).

Definition compress (h : State) (block : Buffer) : State :=
  let w := List.rev (schedule 48 (List.rev (words 16 block))) in
  let s := List.fold_left round (List.combine K256 w) h in
  mkState (add32 (sa h) (sa s)) (add32 (sb h) (sb s)) (add32 (sc h) (sc s))
          (add32 (sd h) (sd s)) (add32 (se h) (se s)) (add32 (sf h) (sf s))
          (add32 (sg h) (sg s)) (add32 (sh h) (sh s)).

Fixpoint blocks (n : nat) (h : State) (b : Buffer) : State :=
  match n with
  | O => h
  | S n' => blocks n' (compress h (List.firstn 64 b)) (List.skipn 64 b)
  end.

Definition digest (h : State) : Buffer :=
  be_bytes 4 (sa h) ++ be_bytes 4 (sb h) ++ be_bytes 4 (sc h) ++ be_bytes 4 (sd h) ++
  be_bytes 4 (se h) ++ be_bytes 4 (sf h) ++ be_bytes 4 (sg h) ++ be_bytes 4 (sh h).

Definition sha256 (msg : Buffer) : Buffer :=
  let p := pad msg in
  digest (blocks (Nat.div (length p) 64) H0 p).

(** *** HMAC (RFC 2104) with SHA-256 *)

Definition hmac_key (key : Buffer) : Buffer :=
  let k := if Nat.ltb 64 (length key) then sha256 key else key in
  k ++ List.repeat 0 (64 - length k)%nat.

(** [crypto.createHmac('sha256', key).update(msg).digest()]. *)
Definition hmac_sha256 (key msg : Buffer) : Buffer :=
  let k := hmac_key key in
  sha256 (List.map (Z.lxor 92) k ++ sha256 (List.map (Z.lxor 54) k ++ msg)).

End Node.

(** ** shared/hmac.ts *)

Module Hmac.

(** The argument [payload: Buffer | string | object]: a buffer, or a
    JSON-like value told apart by [typeof]. *)
Inductive Payload :=
| PBuffer (b : Node.Buffer)
| PValue (v : JsonValue).

(** [Buffer.isBuffer(payload) ? payload : Buffer.from(typeof payload ===
    'string' ? payload : JSON.stringify(payload))]. *)
Definition payloadBuffer (payload : Payload) : Node.Buffer :=
  match payload with
  | PBuffer b => b
  | PValue (JString s) => Node.Buffer_from s
  | PValue v => Node.Buffer_from (Node.JSON_stringify v)
  end.

(** [try { return body } catch (error) { return false }]. *)
Definition or_false (body : completion bool) : completion bool :=
  match body with
  | Normal b => Normal b
  | Throw _ => Normal false
  end.

(** Validate HMAC signature for payload authenticity. *)
Definition validateHMAC (payload : Payload) (signature secret : string)
    : completion bool :=
  if negb (truthy_str (Some signature)) || negb (truthy_str (Some secret))
  then Normal false
  else
    or_false
      (let expected :=
         Node.to_hex (Node.hmac_sha256 (Node.Buffer_from secret) (payloadBuffer payload)) in
       let signatureBuffer := Node.Buffer_from_hex signature in
       let expectedBuffer := Node.Buffer_from_hex expected in
       if negb (Nat.eqb (length signatureBuffer) (length expectedBuffer))
       then Normal false
       else Node.timingSafeEqual signatureBuffer expectedBuffer).

(** Generate HMAC signature for testing. *)
Definition generateHMAC (payload : JsonValue) (secret : string) : string :=
  Node.to_hex
    (Node.hmac_sha256 (Node.Buffer_from secret)
       (Node.Buffer_from (Node.JSON_stringify payload))).

End Hmac.


(** ** controller.ts *)

Module Controller.

(** [EventPayload], as found in [req.body]: a field may be missing. *)
Record EventPayload := mkBody {
  eventId : option string;
  type : option string;
  payload : option JsonValue
}.

(** The parts of the Express request that [ingestEvent] reads. *)
Record Request := mkRequest {
  correlationId : option string;
  headers : gmap string string;
  rawBody : option Node.Buffer;
  body : EventPayload
}.

(** What is passed to [res.json]. *)
Inductive ResponseBody :=
| ErrorBody (error correlationId : string)
| AcceptedBody (accepted : bool) (eventId correlationId message : string)
               (latencyMs : Z).

(** [res.status(statusCode).json(json)]. *)
Record Response := mkResponse { statusCode : Z; json : ResponseBody }.

Definition lift {A} (c : completion A) : M A := fun w => (c, w).

(** [req.correlationId || req.headers['x-correlation-id'] ||
    crypto.randomUUID()]. *)
Definition correlationIdOf (env : Env) (req : Request) : M string :=
  match or_str (correlationId req) (headers req !! "x-correlation-id") with
  | Some c => if truthy_str (Some c) then ret c else uuid env
  | None => uuid env
  end.

(** Ingest a new event: POST /events. A missing signature header reaches
    [validateHMAC] as [undefined], which its guard treats as the empty
    string. *)
Definition ingestEvent (env : Env) (req : Request) : M Response :=
  startTime ← new_Date env;
  cid ← correlationIdOf env req;
  let signature := default "" (headers req !! "x-hmac-signature") in
  try_catch
    (match HMAC_SECRET env with
     | Some secret =>
         if negb (truthy_str (Some secret)) then
           ret (mkResponse 500 (ErrorBody "Server misconfiguration" cid))
         else
           match rawBody req with
           | None => ret (mkResponse 400 (ErrorBody "Invalid request body" cid))
           | Some raw =>
               valid ← lift (Hmac.validateHMAC (Hmac.PBuffer raw) signature secret);
               if negb valid then
                 ret (mkResponse 401 (ErrorBody "Invalid signature" cid))
               else
                 match eventId (body req), type (body req), payload (body req) with
                 | Some i, Some ty, Some p =>
                     if negb (truthy_str (Some i)) || negb (truthy_str (Some ty))
                        || negb (truthy p)
                     then
                       ret (mkResponse 400
                              (ErrorBody "Missing required fields: eventId, type, payload" cid))
                     else
                       EventQueue.addEventToQueue (JobData.mkJobData i ty p (Some cid));;
                       endTime ← new_Date env;
                       let latency := endTime - startTime in
                       ret (mkResponse 202
                              (AcceptedBody true i cid "Event queued for processing" latency))
                 | _, _, _ =>
                     ret (mkResponse 400
                            (ErrorBody "Missing required fields: eventId, type, payload" cid))
                 end
           end
     | None => ret (mkResponse 500 (ErrorBody "Server misconfiguration" cid))
     end)
    (fun error => ret (mkResponse 500 (ErrorBody "Internal server error" cid))).

(** The response with the measured latency left out. *)
Definition without_latency (r : Response) : Response :=
  match json r with
  | AcceptedBody a i c m _ => mkResponse (statusCode r) (AcceptedBody a i c m 0)
  | ErrorBody _ _ => r
  end.

End Controller.

(** ** Observations on worlds, used to state the properties *)

Module Obs.
Import Model.

(** The number of ledger rows for an [eventId]. *)
Definition rows (i : string) (l : list IEvent) : nat :=
  length (List.filter (Mongoose.matches i) l).

(** The row that the filter [{ eventId }] selects. *)
Definition row (i : string) (l : list IEvent) : option IEvent :=
  List.find (Mongoose.matches i) l.

(** The calls recorded between world [w] and a later world [w']. *)
Definition since (w w' : World) : list Effect :=
  List.skipn (length (trace w)) (trace w').

(** The routing calls, and the calls to the ledger. *)
Definition is_route (e : Effect) : bool :=
  match e with RouteCall _ _ => true | _ => false end.

Definition is_ledger (e : Effect) : bool :=
  match e with
  | LedgerFind _ | LedgerInsert _ | LedgerUpdate _ _ => true
  | _ => false
  end.

(** The [k]-th draw of [Math.random] is below [0.1]: the routing call
    that consumes it throws. *)
Definition routing_fails (env : Env) (k : nat) : bool :=
  negb (Qle_bool Service.one_tenth (Math_random env k)).

(** The status of the row for an [eventId], if there is one. *)
Definition statusOf (i : string) (w : World) : option EventStatus :=
  status <$> row i (ledger w).

(** The order in which a row moves through its statuses. *)
Definition rank (s : option EventStatus) : nat :=
  match s with
  | None => 0
  | Some ROUTING_PENDING => 1
  | Some FAILED => 2
  | Some ROUTED => 3
  end.

(** The job data from which [createEvent] can make a row: the data that
    passes the validators of the schema. *)
Definition valid (d : JobData.EventJobData) : bool :=
  Mongoose.validates
    (Mongoose.new_Event (JobData.eventId d) (JobData.type d) (JobData.payload d)
       (JobData.correlationId d) ROUTING_PENDING 0 0).

(** The job data has a row, or a row can be made from it. *)
Definition processable (d : JobData.EventJobData) (w : World) : Prop :=
  statusOf (JobData.eventId d) w = None -> valid d = true.

(** What one processing attempt does to the statuses of the ledger: it
    skips an event that is [ROUTED]; or it routes the event; or the
    routing call fails and the status stays, [ROUTING_PENDING] for a row
    just created; or the event has no row and none can be created from
    the data of the job, and the error of [createEvent] is thrown. *)
Inductive attempt (i : string) (w w' : World) : completion Service.ProcessResult -> Prop :=
| attempt_skip :
    statusOf i w = Some ROUTED ->
    ledger w' = ledger w ->
    attempt i w w' (Normal (Service.mkResult true "Event already processed (idempotent skip)"))
| attempt_routed :
    statusOf i w <> Some ROUTED ->
    statusOf i w' = Some ROUTED ->
    (forall j, i <> j -> statusOf j w' = statusOf j w) ->
    attempt i w w' (Normal (Service.mkResult true "Event routed successfully"))
| attempt_failed :
    statusOf i w <> Some ROUTED ->
    statusOf i w' = Some (default ROUTING_PENDING (statusOf i w)) ->
    (forall j, i <> j -> statusOf j w' = statusOf j w) ->
    attempt i w w' (Throw Service.routingError)
| attempt_rejected (err : JsError) :
    statusOf i w = None ->
    ledger w' = ledger w ->
    attempt i w w' (Throw err).

(** The updates that set [FAILED], and the additions to the dead-letter
    queue. *)
Definition is_failed_update (e : Effect) : bool :=
  match e with LedgerUpdate _ (Some FAILED) => true | _ => false end.

Definition is_dlq_add (e : Effect) : bool :=
  match e with QueueAdd q _ => String.eqb q EventQueue.DLQ_NAME | _ => false end.

(** The main queue after the data of the dead-letter jobs [js] has been
    added to it, one fresh job each. *)
Definition requeued (js : list (Bull.Job JobData.DLQData)) (q : Bull.Queue JobData.EventJobData)
    : Bull.Queue JobData.EventJobData :=
  List.fold_left (fun q j => snd (Bull.addJob "retry" (JobData.originalJob (Bull.data j)) None q)) js q.

(** The dead-letter queue after the jobs [js] have been removed. *)
Definition purged (js : list (Bull.Job JobData.DLQData)) (q : Bull.Queue JobData.DLQData)
    : Bull.Queue JobData.DLQData :=
  List.fold_left (fun q j => Bull.remove (Bull.id j) q) js q.

(** The jobs that [requeued] appends: new ids from the queue counter, no
    attempt made, waiting. *)
Fixpoint freshJobs (c : nat) (o : Bull.JobOpts) (js : list (Bull.Job JobData.DLQData))
    : list (Bull.Job JobData.EventJobData) :=
  match js with
  | [] => []
  | j :: r =>
      Bull.mkJob (Bull.AutoId (S c)) "retry" (JobData.originalJob (Bull.data j)) o 0 Bull.waiting
        :: freshJobs (S c) o r
  end.

(** [k] is none of the jobs [js], by job id. *)
Definition not_among (js : list (Bull.Job JobData.DLQData)) (k : Bull.Job JobData.DLQData) : bool :=
  forallb (fun j => negb (Bull.has_id (Bull.id j) k)) js.


(** The ledger updates that set a status. *)
Definition is_status_update (e : Effect) : bool :=
  match e with LedgerUpdate _ (Some _) => true | _ => false end.

(** The retries that the worker schedules. *)
Definition is_retry (e : Effect) : bool :=
  match e with RetryScheduled _ _ => true | _ => false end.

(** A sequence of [createEvent] calls, each awaited before the next. *)
Fixpoint createEvents (env : Env) (calls : list JobData.EventJobData)
    : M (list (option IEvent)) :=
  match calls with
  | [] => ret []
  | d :: rest =>
      r ← Repository.createEvent env d;
      rs ← createEvents env rest;
      ret (r :: rs)
  end.

(** One operation of the system, run to its end: a request handled by the
    ingestion gate, a replay of the dead-letter queue, or a job of the
    main queue taken through its attempts by the worker. *)
Inductive Step (env : Env) (w : World) : World -> Prop :=
| step_ingest (req : Controller.Request) :
    Step env w (snd (Controller.ingestEvent env req w))
| step_replay :
    Step env w (snd (EventQueue.replayDLQJobs w))
| step_job (fuel : nat) (job : Bull.Job JobData.EventJobData) :
    In job (Bull.jobs (eventQueue w)) ->
    Step env w (snd (Worker.runJob fuel env job w)).

End Obs.

(** ** The handlers as the event loop runs them

    The worker is started with [concurrency: CONCURRENCY] (20 by default),
    so the handlers of several jobs are in flight at once, and the
    ['failed'] listener is an [async] function that nobody awaits. A
    handler runs without interruption up to its next [await]; what it
    awaits is one call to MongoDB, to Redis or to the routing service, and
    the calls of the handlers in flight are served in any order. *)

Module Tasks.
Import Model JobData.

(** The calls that the handlers of the worker await, each a single
    round trip. The [new Date()] among the arguments of a call
    ([updatedAt], [processedAt], [failedAt]) is read when the call is
    served; the code reads it when it makes the call, which only moves
    the clock readings. [MoveTo] and [MoveToDelayed] are the moves of the
    job that the BullMQ worker makes around the processor. *)
Inductive Call : Type -> Type :=
| FindOne (i : string) : Call (option IEvent)
| CreateEvent (d : EventJobData) : Call (option IEvent)
| IncrementEventAttempts (i : string) : Call (option IEvent)
| SimulateRoutingService (i : string) (p : JsonValue) : Call bool
| MarkEventRouted (i : string) : Call (option IEvent)
| MarkEventFailed (i : string) (err : string) : Call (option IEvent)
| AddToDLQ (d : EventJobData) (err : string) (attempts : Z) : Call unit
| MoveTo (s : Bull.JobState) (job : Bull.Job EventJobData) : Call unit
| MoveToDelayed (job : Bull.Job EventJobData) : Call unit.

(** What a call does, once it is served. *)
Definition perform (env : Env) {B} (c : Call B) : M B :=
  match c in Call B return M B with
  | FindOne i => Mongoose.findOne i
  | CreateEvent d => Repository.createEvent env d
  | IncrementEventAttempts i => Repository.incrementEventAttempts env i
  | SimulateRoutingService i p => Service.simulateRoutingService env i p
  | MarkEventRouted i => Repository.markEventRouted env i
  | MarkEventFailed i err => Repository.markEventFailed env i err
  | AddToDLQ d err n =>
      failedAt ← new_Date env;
      EventQueue.addToDLQ (mkDLQData d err failedAt n)
  | MoveTo s job => Worker.eventQueue_put (Bull.set_state s job)
  | MoveToDelayed job =>
      Worker.eventQueue_put (Bull.set_state Bull.delayed job);;
      emit (RetryScheduled (Bull.id job)
              (Bull.exponential (Bull.backoff_delay (Bull.opts job))
                                (Bull.attemptsMade job - 1)))
  end.

(** An [async] function in flight: it has settled, or it awaits a call
    and goes on with the completion of that call. *)
Inductive Task (A : Type) : Type :=
| Done (c : completion A)
| Await {B : Type} (c : Call B) (k : completion B -> Task A).
#[global] Arguments Done {A} c.
#[global] Arguments Await {A B} c k.

(** [await c], outside of a [try] block: a rejection ends the function. *)
Definition await {A B} (c : Call B) (k : B -> Task A) : Task A :=
  Await c (fun r => match r with Normal b => k b | Throw e => Done (Throw e) end).

(** [t], and then [k] on its completion. *)
Fixpoint andThen {A B} (t : Task A) (k : completion A -> Task B) : Task B :=
  match t with
  | Done c => k c
  | Await c k' => Await c (fun r => andThen (k' r) k)
  end.

(** A task run on its own, every call served as soon as it is made. *)
Fixpoint run (env : Env) {A} (t : Task A) : M A :=
  match t with
  | Done c => fun w => (c, w)
  | Await c k => fun w => let (r, w') := perform env c w in run env (k r) w'
  end.

(** [processEvent] of service.ts, await by await. *)
Definition processEvent (data : EventJobData) (attemptsMade : Z)
    : Task Service.ProcessResult :=
  let i := eventId data in
  let route :=
    await (IncrementEventAttempts i) (fun _ =>
    await (SimulateRoutingService i (payload data)) (fun _ =>
    await (MarkEventRouted i) (fun _ =>
    Done (Normal (Service.mkResult true "Event routed successfully"))))) in
  await (FindOne i) (fun event =>
  if bool_decide (is_Some event) then
    await (FindOne i) (fun existingEvent =>
    if bool_decide (status <$> existingEvent = Some ROUTED) then
      Done (Normal (Service.mkResult true "Event already processed (idempotent skip)"))
    else route)
  else
    await (CreateEvent data) (fun _ => route)).

(** The ['failed'] listener of worker.ts. *)
Definition on_failed (job : option (Bull.Job EventJobData)) (error : JsError)
    : Task unit :=
  match job with
  | None => Done (Normal ())
  | Some job =>
      if Z.leb (Worker.maxAttempts job) (Bull.attemptsMade job) then
        await (MarkEventFailed (eventId (Bull.data job)) (message error)) (fun _ =>
        await (AddToDLQ (Bull.data job) (message error) (Bull.attemptsMade job)) (fun _ =>
        Done (Normal ())))
      else Done (Normal ())
  end.

(** The worker on one job, as [Worker.runJob], await by await. The
    ['failed'] listener is run as the tail of the handler: it makes calls
    only when the job has failed for good, and nothing of the job follows
    then. *)
Fixpoint runJob (fuel : nat) (job : Bull.Job EventJobData) : Task Worker.JobOutcome :=
  match fuel with
  | O => Done (Normal Worker.JobPending)
  | S fuel' =>
      await (MoveTo Bull.active job) (fun _ =>
      andThen (processEvent (Bull.data job) (Bull.attemptsMade job)) (fun r =>
      match r with
      | Normal _ =>
          await (MoveTo Bull.completed job) (fun _ => Done (Normal Worker.JobCompleted))
      | Throw err =>
          let job' := Bull.set_attemptsMade (Bull.attemptsMade job + 1) job in
          if Z.ltb (Bull.attemptsMade job') (Bull.attempts (Bull.opts job')) then
            await (MoveToDelayed job') (fun _ =>
            andThen (on_failed (Some job') err) (fun _ =>
            runJob fuel' job'))
          else
            await (MoveTo Bull.failed job') (fun _ =>
            andThen (on_failed (Some job') err) (fun _ =>
            Done (Normal (Worker.JobFailed err))))
      end))
  end.

(** The handler of a job that the worker has in flight. *)
Definition Handler : Type := Task Worker.JobOutcome.

(** What happens next in the system: a request is handled, the
    dead-letter queue is replayed, the worker takes the [n]-th job of the
    main queue, or the call awaited by the [n]-th job in flight is served
    and that job runs up to its next [await]. Ingestion and replay work on
    the queues only and are taken as one action each. Which job the
    worker takes is left open: any job of the queue, in any state. *)
Inductive Action :=
| Ingest (req : Controller.Request)
| Replay
| Take (fuel : nat) (n : nat)
| Resume (n : nat).

Definition act (env : Env) (s : list Handler * World) (a : Action)
    : list Handler * World :=
  let (pool, w) := s in
  match a with
  | Ingest req => (pool, snd (Controller.ingestEvent env req w))
  | Replay => (pool, snd (EventQueue.replayDLQJobs w))
  | Take fuel n =>
      match Bull.jobs (eventQueue w) !! n with
      | Some job => (pool ++ [runJob fuel job], w)
      | None => (pool, w)
      end
  | Resume n =>
      match pool !! n with
      | Some (Await c k) =>
          let (r, w') := perform env c w in (<[n := k r]> pool, w')
      | _ => (pool, w)
      end
  end.

(** The order in which two jobs in flight are resumed when each is made
    active and passes its idempotency check, the two [findOne] calls,
    before the first goes on to the end and then the second. *)
Definition second_checks_before_first_marks : list nat :=
  [0; 1; 0; 1; 0; 1; 0; 0; 0; 0; 1; 1; 1; 1]%nat.

(** A run of the system: a sequence of actions, in any order. *)
Definition exec (env : Env) (actions : list Action) (s : list Handler * World)
    : list Handler * World :=
  List.fold_left (act env) actions s.

End Tasks.

(** ** Sample data *)

Module Sample.
Import Model.

(** An environment whose routing calls all fail, and one whose routing
    calls all succeed. *)
Definition env_fail : Env :=
  mkEnv Z.of_nat (fun _ => 0%Q) (fun _ => "3f0c7a52-uuid") (Some "test-secret-key") 2000.

Definition env_ok : Env :=
  mkEnv Z.of_nat (fun _ => (1 # 2)%Q) (fun _ => "3f0c7a52-uuid") (Some "test-secret-key") 2000.

Definition data1 : JobData.EventJobData :=
  JobData.mkJobData "e1" "ORDER_CREATED" (JObject [("orderId", JString "12345")]) (Some "c1").

Definition row1 (s : EventStatus) : IEvent :=
  mkEvent "e1" "ORDER_CREATED" (JObject [("orderId", JString "12345")]) s (Some "c1")
          5 None None 10 20.

Definition job1 : Bull.Job JobData.EventJobData :=
  Bull.mkJob (Bull.CustomId "e1") "process-event" data1 (Bull.mkOpts 5 1000) 0 Bull.waiting.

Definition data0 : JobData.EventJobData :=
  JobData.mkJobData "e0" "ORDER_CANCELLED" (JObject [("orderId", JString "12344")]) None.

(** A world with the given ledger, [job1] on the main queue and one
    waiting entry, for another event, on the dead-letter queue. *)
Definition world (l : list IEvent) : World :=
  mkWorld l
    (Bull.mkQueue [job1] 0 (Bull.mkOpts 5 1000))
    (Bull.mkQueue
       [Bull.mkJob (Bull.AutoId 1) "failed-event"
          (JobData.mkDLQData data0 "Routing service temporarily unavailable" 3 5)
          (Bull.mkOpts 0 0) 0 Bull.waiting]
       1 (Bull.mkOpts 0 0))
    0 0 0 [].

Definition body1 : string := "{}".

Definition request1 : Controller.Request :=
  Controller.mkRequest None
    {[ "x-hmac-signature" := Node.to_hex (Node.hmac_sha256 (Node.Buffer_from "test-secret-key")
                                            (Node.Buffer_from body1)) ]}
    (Some (Node.Buffer_from body1))
    (Controller.mkBody (Some "e1") (Some "ORDER_CREATED") (Some (JObject []))).

Definition test_payload : JsonValue :=
  JObject [("eventId", JString "test-123"); ("type", JString "TEST");
           ("payload", JObject [("data", JString "value")])].

End Sample.

(** ** The read side: repository.ts, queue.ts and controller.ts *)

Module Reads.
Import Model.

(** [.sort({ createdAt: -1 })]: newest first. Rows with equal [createdAt]
    keep their stored order here; MongoDB leaves their order open. *)
Fixpoint insert_desc (e : IEvent) (l : list IEvent) : list IEvent :=
  match l with
  | [] => [e]
  | x :: r =>
      if Z.leb (createdAt x) (createdAt e) then e :: x :: r
      else x :: insert_desc e r
  end.

Definition sort_desc (l : list IEvent) : list IEvent :=
  List.fold_right insert_desc [] l.

(** [.limit(n)]: [0] is no limit, a negative [n] limits to [-n]. *)
Definition limit (n : Z) (l : list IEvent) : list IEvent :=
  if Z.eqb n 0 then l else List.firstn (Z.to_nat (Z.abs n)) l.

(** Get events by status; [lim] is the optional argument, 100 by
    default. *)
Definition getEventsByStatus (s : EventStatus) (lim : option Z) : M (list IEvent) :=
  fun w =>
    (Normal (limit (default 100 lim)
               (sort_desc (List.filter (fun e => bool_decide (status e = s)) (ledger w)))),
     w).

(** [queue.getWaitingCount()] and its siblings. *)
Definition getCount {D} (s : Bull.JobState) (q : Bull.Queue D) : Z :=
  Z.of_nat (length (List.filter (fun j => bool_decide (Bull.state j = s)) (Bull.jobs q))).

Record QueueStats := mkStats {
  waiting : Z;
  active : Z;
  completed : Z;
  failed : Z;
  delayed : Z;
  dlq : Z
}.

(** Get queue statistics. *)
Definition getQueueStats : M QueueStats :=
  fun w =>
    (Normal (mkStats (getCount Bull.waiting (eventQueue w))
                     (getCount Bull.active (eventQueue w))
                     (getCount Bull.completed (eventQueue w))
                     (getCount Bull.failed (eventQueue w))
                     (getCount Bull.delayed (eventQueue w))
                     (getCount Bull.waiting (deadLetterQueue w))),
     w).

(** What [getEventStatus] passes to [res.json]. *)
Inductive StatusBody :=
| NotFound (error eventId correlationId : string)
| Found (eventId type : string) (status : EventStatus) (attempts : Z)
        (error : option string) (processedAt : option Z) (createdAt : Z)
        (correlationId : string)
| StatusError (error correlationId : string).

Record StatusResponse := mkStatusResponse { statusCode : Z; json : StatusBody }.

(** Get event status: GET /events/:eventId. [i] is [req.params.eventId];
    [res.json] without [res.status] answers 200. *)
Definition getEventStatus (env : Env) (i : string) (req : Controller.Request)
    : M StatusResponse :=
  cid ← Controller.correlationIdOf env req;
  try_catch
    (event ← Repository.getEventById i;
     match event with
     | None => ret (mkStatusResponse 404 (NotFound "Event not found" i cid))
     | Some e =>
         ret (mkStatusResponse 200
                (Found (Model.eventId e) (Model.type e) (Model.status e)
                       (Model.attempts e) (Model.error e) (Model.processedAt e)
                       (Model.createdAt e) cid))
     end)
    (fun error => ret (mkStatusResponse 500 (StatusError "Internal server error" cid))).

(** [parseInt(req.query.limit as string) || 100]; [None] is [NaN]. *)
Definition limitOf (query_limit : option Z) : Z :=
  match query_limit with
  | Some n => if Z.eqb n 0 then 100 else n
  | None => 100
  end.

(** What [getFailedEvents] passes to [res.json]. *)
Inductive FailedEventsBody :=
| FailedEvents (count : Z) (events : list IEvent)
| FailedEventsError (error : string).

Record FailedEventsResponse := mkFailedEventsResponse {
  failed_statusCode : Z;
  failed_json : FailedEventsBody
}.

(** Get failed events: GET /events/failed. *)
Definition getFailedEvents (query_limit : option Z) : M FailedEventsResponse :=
  try_catch
    (events ← getEventsByStatus FAILED (Some (limitOf query_limit));
     ret (mkFailedEventsResponse 200 (FailedEvents (Z.of_nat (length events)) events)))
    (fun error =>
       ret (mkFailedEventsResponse 500 (FailedEventsError "Failed to get failed events"))).

(** What [getStats] passes to [res.json]. *)
Inductive StatsBody :=
| Stats (stats : QueueStats)
| StatsError (error : string).

Record StatsResponse := mkStatsResponse { stats_statusCode : Z; stats_json : StatsBody }.

(** Get queue statistics: GET /events/stats. *)
Definition getStats : M StatsResponse :=
  try_catch
    (stats ← getQueueStats;
     ret (mkStatsResponse 200 (Stats stats)))
    (fun error => ret (mkStatsResponse 500 (StatsError "Failed to get stats"))).

(** What [replayDLQ] passes to [res.json]. *)
Inductive ReplayBody :=
| Replayed (replayed : Z) (message : string)
| ReplayError (error : string).

Record ReplayResponse := mkReplayResponse { replay_statusCode : Z; replay_json : ReplayBody }.

(** Replay DLQ jobs: POST /events/dlq/replay. *)
Definition replayDLQ : M ReplayResponse :=
  try_catch
    (count ← EventQueue.replayDLQJobs;
     ret (mkReplayResponse 200 (Replayed count "DLQ jobs replayed")))
    (fun error => ret (mkReplayResponse 500 (ReplayError "Failed to replay DLQ"))).

End Reads.

(** ** app.ts: the correlation id middleware *)

Module App.

(** [req.correlationId = req.headers['x-correlation-id'] ||
    crypto.randomUUID()]. *)
Definition correlationMiddleware (env : Env) (req : Controller.Request)
    : M Controller.Request :=
  cid ← (if truthy_str (Controller.headers req !! "x-correlation-id")
         then ret (default "" (Controller.headers req !! "x-correlation-id"))
         else uuid env);
  ret (Controller.mkRequest (Some cid) (Controller.headers req)
         (Controller.rawBody req) (Controller.body req)).

End App.

(** ** Observations for the further properties *)

Module Facts.
Import Model.

(** Every byte of a buffer is in [0, 256). *)
Definition in_byte_range (b : Node.Buffer) : Prop := Forall (fun x => 0 <= x < 256) b.

(** A completion that is the value [true]. *)
Definition is_true (c : completion bool) : bool :=
  match c with Normal true => true | _ => false end.

(** The conditions under which [ingestEvent] accepts a request: the
    secret is configured, the raw body is there and carries a valid
    signature, the three fields are truthy, and the queue takes the
    [eventId] as a job id. *)
Definition accepted (env : Env) (req : Controller.Request) : bool :=
  match HMAC_SECRET env, Controller.rawBody req with
  | Some secret, Some raw =>
      truthy_str (Some secret)
      && is_true (Hmac.validateHMAC (Hmac.PBuffer raw)
                    (default "" (Controller.headers req !! "x-hmac-signature")) secret)
      && truthy_str (Controller.eventId (Controller.body req))
      && truthy_str (Controller.type (Controller.body req))
      && truthy_opt (Controller.payload (Controller.body req))
      && negb (Bull.refused (default "" (Controller.eventId (Controller.body req))))
  | _, _ => false
  end.

(** The correlation id that a response carries. *)
Definition response_cid (r : Controller.Response) : string :=
  match Controller.json r with
  | Controller.ErrorBody _ c => c
  | Controller.AcceptedBody _ _ c _ _ => c
  end.

(** What a later row keeps of an earlier one: its identity fields and
    creation time, and at least its attempts. *)
Definition keeps (e e' : IEvent) : Prop :=
  eventId e' = eventId e /\ type e' = type e /\ payload e' = payload e
  /\ correlationId e' = correlationId e /\ createdAt e' = createdAt e
  /\ attempts e <= attempts e'.

(** [a] was created no earlier than [b]. *)
Definition newer (a b : IEvent) : Prop := createdAt b <= createdAt a.

(** The rows of [l] are still there in [l'], each keeping the above. *)
Definition persists (l l' : list IEvent) : Prop :=
  forall i e, Obs.row i l = Some e ->
    exists e', Obs.row i l' = Some e' /\ keeps e e'.

(** A change of the world that leaves the ledger alone and makes no
    ledger or routing call. *)
Definition silent (w w' : World) : Prop :=
  ledger w' = ledger w
  /\ exists t, trace w' = trace w ++ t
       /\ List.filter Obs.is_ledger t = [] /\ List.filter Obs.is_route t = [].

(** The updates that set [ROUTED] for [i], and the routing calls for [i]. *)
Definition is_routed_update (i : string) (e : Effect) : bool :=
  match e with LedgerUpdate j (Some ROUTED) => String.eqb j i | _ => false end.

Definition is_route_to (i : string) (e : Effect) : bool :=
  match e with RouteCall j _ => String.eqb j i | _ => false end.

(** The attempts recorded for an [eventId]; 0 when it has no row. *)
Definition attemptsOf (i : string) (w : World) : Z :=
  default 0 (attempts <$> Obs.row i (ledger w)).

(** Between [w] and [w'] each [eventId] is set [ROUTED] at most once, not
    at all when it was [ROUTED] in [w], and is [ROUTED] in [w'] when it
    was [ROUTED] in [w] or has been set so. *)
Definition routed_once (w w' : World) : Prop :=
  exists t, trace w' = trace w ++ t
    /\ forall i,
         (length (List.filter (is_routed_update i) t) <= 1)%nat
         /\ (Obs.statusOf i w = Some ROUTED ->
             List.filter (is_routed_update i) t = []
             /\ Obs.statusOf i w' = Some ROUTED)
         /\ (List.filter (is_routed_update i) t <> [] ->
             Obs.statusOf i w' = Some ROUTED).


(** The unique index on [eventId]. *)
Definition unique_index (l : list IEvent) : Prop := forall i, (Obs.rows i l <= 1)%nat.

(** A status that the specification calls terminal. *)
Definition terminal (s : option EventStatus) : bool :=
  match s with Some ROUTED | Some FAILED => true | _ => false end.

(** What one call can do to the ledger: nothing; insert a
    [ROUTING_PENDING] row for an [eventId] that has none; or update the
    row of one [eventId], its status kept or set to [ROUTED] or [FAILED],
    its identity fields kept and its attempts not lowered. *)
Inductive ledger_change (l : list IEvent) : list IEvent -> Prop :=
| change_none : ledger_change l l
| change_insert (e : IEvent) :
    Obs.row (eventId e) l = None -> status e = ROUTING_PENDING ->
    ledger_change l (l ++ [e])
| change_update (i : string) (f : IEvent -> IEvent) :
    (forall e, keeps e (f e)) ->
    (forall e, status (f e) = status e \/ status (f e) = ROUTED \/ status (f e) = FAILED) ->
    ledger_change l (snd (Mongoose.update_first i f l)).

End Facts.

(** ** More sample data *)

Module Cases.
Import Sample.

(** [request1] without its signature header. *)
Definition request_unsigned : Controller.Request :=
  Controller.mkRequest None ∅ (Some (Node.Buffer_from body1))
    (Controller.mkBody (Some "e1") (Some "ORDER_CREATED") (Some (JObject []))).

(** Other data under the [eventId] of [data1]. *)
Definition data1_again : JobData.EventJobData :=
  JobData.mkJobData "e1" "ORDER_UPDATED" JNull None.

(** [job1] as a queue configured with [MAX_RETRY_ATTEMPTS=0] makes it. *)
Definition job_zero : Bull.Job JobData.EventJobData :=
  Bull.mkJob (Bull.CustomId "e1") "process-event" data1 (Bull.mkOpts 0 1000) 0 Bull.waiting.

(** The job that a replay makes for [e1]. *)
Definition job1_replayed : Bull.Job JobData.EventJobData :=
  Bull.mkJob (Bull.AutoId 1) "retry" data1 (Bull.mkOpts 5 1000) 0 Bull.waiting.

(** [request1] for an [eventId] that reads as an integer. *)
Definition request_123 : Controller.Request :=
  Controller.mkRequest None
    {[ "x-hmac-signature" := Node.to_hex (Node.hmac_sha256 (Node.Buffer_from "test-secret-key")
                                            (Node.Buffer_from body1)) ]}
    (Some (Node.Buffer_from body1))
    (Controller.mkBody (Some "123") (Some "ORDER_CREATED") (Some (JObject []))).

(** Job data that the schema rejects: its payload is [null]. *)
Definition data_invalid : JobData.EventJobData :=
  JobData.mkJobData "e9" "ORDER_CREATED" JNull None.

(** An environment whose first five routing calls fail and whose later
    ones succeed. *)
Definition env_late : Env :=
  mkEnv Z.of_nat (fun k => if (k <? 5)%nat then 0%Q else (1 # 2)%Q)
        (fun _ => "3f0c7a52-uuid") (Some "test-secret-key") 2000.

(** The event [e1] has been dead-lettered some time ago: its row is
    [FAILED], its entry waits on the dead-letter queue, and its failed job
    has since been removed from the main queue ([removeOnFail]). *)
Definition world_replayable : World :=
  mkWorld [Mongoose.set_error (Some "Routing service temporarily unavailable")
             (row1 Model.FAILED)]
    EventQueue.defaultEventQueue
    (Bull.mkQueue
       [Bull.mkJob (Bull.AutoId 1) "failed-event"
          (JobData.mkDLQData data1 "Routing service temporarily unavailable" 3 5)
          (Bull.mkOpts 0 0) 0 Bull.waiting]
       1 (Bull.mkOpts 0 0))
    0 0 0 [].

(** [e1] is sent again and accepted, and the dead-letter queue is
    replayed: two jobs for [e1] are on the main queue, and the worker takes
    both. The first goes through its five attempts, which all fail, and is
    moved to failed; its ['failed'] listener has not run yet. The second
    is then processed and routed. *)
Definition run_to_routed : list Tasks.Action :=
  [Tasks.Ingest request1; Tasks.Replay; Tasks.Take 5 0; Tasks.Take 5 1]
  ++ repeat (Tasks.Resume 0) 30 ++ repeat (Tasks.Resume 1) 7.

(** The ['failed'] listener of the first job runs: [handleFinalFailure],
    then [addToDLQ]. *)
Definition listener_runs : list Tasks.Action := [Tasks.Resume 0; Tasks.Resume 0].

End Cases.

(** * Properties *)

(** The validators do not look at the timestamps. *)
Ltac check_valid d H :=
  match goal with
  | |- context [Mongoose.validates ?e] =>
      change (Mongoose.validates e) with (Obs.valid d); rewrite H; simpl
  end.

(** ** Finding and updating rows *)

Section Rows.
Import Model.

Lemma row_rows_0 (i : string) (l : list IEvent) :
  Obs.row i l = None <-> Obs.rows i l = 0%nat.
Proof.
  unfold Obs.row, Obs.rows. induction l as [|e l IH]; simpl.
  - tauto.
  - destruct (Mongoose.matches i e); simpl; [split; [congruence|lia]|exact IH].
Qed.

Lemma row_eventId (i : string) (l : list IEvent) (e : IEvent) :
  Obs.row i l = Some e -> eventId e = i.
Proof.
  unfold Obs.row. intros H. apply List.find_some in H as [_ H].
  unfold Mongoose.matches in H. apply String.eqb_eq in H. exact H.
Qed.

Lemma row_app_fresh (i : string) (l : list IEvent) (e : IEvent) :
  Obs.row i l = None -> eventId e = i -> Obs.row i (l ++ [e]) = Some e.
Proof.
  unfold Obs.row. intros Hn He. induction l as [|x l IH]; simpl in *.
  - unfold Mongoose.matches. rewrite He, String.eqb_refl. reflexivity.
  - destruct (Mongoose.matches i x); [congruence|auto].
Qed.

Lemma row_app_other (j : string) (l : list IEvent) (e : IEvent) :
  eventId e <> j -> Obs.row j (l ++ [e]) = Obs.row j l.
Proof.
  unfold Obs.row. intros He. induction l as [|x l IH]; simpl.
  - unfold Mongoose.matches. destruct (String.eqb_spec (eventId e) j); congruence.
  - destruct (Mongoose.matches j x); auto.
Qed.

Lemma update_first_result (i : string) (f : IEvent -> IEvent) (l : list IEvent) :
  fst (Mongoose.update_first i f l) = f <$> Obs.row i l.
Proof.
  unfold Obs.row. induction l as [|x l IH]; simpl; [reflexivity|].
  destruct (Mongoose.matches i x); [reflexivity|].
  destruct (Mongoose.update_first i f l); simpl in *. exact IH.
Qed.

Lemma update_first_absent (i : string) (f : IEvent -> IEvent) (l : list IEvent) :
  Obs.row i l = None -> Mongoose.update_first i f l = (None, l).
Proof.
  unfold Obs.row. induction l as [|x l IH]; simpl; [reflexivity|].
  destruct (Mongoose.matches i x); [congruence|].
  intros H. rewrite (IH H). reflexivity.
Qed.

Lemma update_first_row (i : string) (f : IEvent -> IEvent) (l : list IEvent) :
  (forall e, eventId (f e) = eventId e) ->
  Obs.row i (snd (Mongoose.update_first i f l)) = f <$> Obs.row i l.
Proof.
  unfold Obs.row. intros Hf. induction l as [|x l IH]; simpl; [reflexivity|].
  destruct (Mongoose.matches i x) eqn:E; simpl.
  - unfold Mongoose.matches in *. rewrite Hf, E. reflexivity.
  - destruct (Mongoose.update_first i f l); simpl in *. rewrite E. exact IH.
Qed.

Lemma update_first_other (i j : string) (f : IEvent -> IEvent) (l : list IEvent) :
  (forall e, eventId (f e) = eventId e) -> i <> j ->
  Obs.row j (snd (Mongoose.update_first i f l)) = Obs.row j l.
Proof.
  unfold Obs.row. intros Hf Hij. induction l as [|x l IH]; simpl; [reflexivity|].
  destruct (Mongoose.matches i x) eqn:E; simpl.
  - unfold Mongoose.matches in *. rewrite Hf.
    apply String.eqb_eq in E.
    destruct (String.eqb_spec (eventId x) j); [congruence|reflexivity].
  - destruct (Mongoose.update_first i f l); simpl in *. rewrite IH. reflexivity.
Qed.

Lemma update_first_app_fresh (i : string) (f : IEvent -> IEvent)
    (l : list IEvent) (e : IEvent) :
  Obs.row i l = None -> eventId e = i ->
  Mongoose.update_first i f (l ++ [e]) = (Some (f e), l ++ [f e]).
Proof.
  unfold Obs.row. intros Hn He. induction l as [|x l IH]; simpl in *.
  - unfold Mongoose.matches. rewrite He, String.eqb_refl. reflexivity.
  - destruct (Mongoose.matches i x); [congruence|]. rewrite (IH Hn). reflexivity.
Qed.

End Rows.

(** ** The idempotency ledger *)

Section Ledger.
Import Model.
Variable env : Env.

Lemma createEvent_duplicate (d : JobData.EventJobData) (w : World) :
  Obs.valid d = true ->
  Obs.rows (JobData.eventId d) (ledger w) <> 0%nat ->
  exists w', Repository.createEvent env d w = (Normal None, w')
             /\ ledger w' = ledger w
             /\ eventQueue w' = eventQueue w
             /\ deadLetterQueue w' = deadLetterQueue w.
Proof.
  intros Hv Hrows.
  assert (Hex : existsb (Mongoose.matches (JobData.eventId d)) (ledger w) = true).
  { unfold Obs.rows in Hrows. induction (ledger w) as [|e l IH]; simpl in *.
    - congruence.
    - destruct (Mongoose.matches (JobData.eventId d) e); simpl in *; auto. }
  unfold Repository.createEvent, try_catch, bind, Mongoose.save, bind, new_Date, emit.
  simpl. check_valid d Hv. rewrite Hex. simpl. eauto.
Qed.

Lemma createEvent_fresh (d : JobData.EventJobData) (w : World) :
  Obs.valid d = true ->
  Obs.rows (JobData.eventId d) (ledger w) = 0%nat ->
  exists w' e, Repository.createEvent env d w = (Normal (Some e), w')
               /\ ledger w' = ledger w ++ [e]
               /\ eventId e = JobData.eventId d
               /\ status e = ROUTING_PENDING
               /\ attempts e = 0
               /\ eventQueue w' = eventQueue w
               /\ deadLetterQueue w' = deadLetterQueue w.
Proof.
  intros Hv Hrows.
  assert (Hex : existsb (Mongoose.matches (JobData.eventId d)) (ledger w) = false).
  { unfold Obs.rows in Hrows. induction (ledger w) as [|e l IH]; simpl in *.
    - reflexivity.
    - destruct (Mongoose.matches (JobData.eventId d) e); simpl in *; auto; lia. }
  unfold Repository.createEvent, try_catch, bind, Mongoose.save, bind, new_Date, emit.
  simpl. check_valid d Hv. rewrite Hex. simpl. eauto 10.
Qed.

(** A document that fails validation: [createEvent] throws the
    validation error again, since its code is not 11000, and nothing is
    written, whether or not the [eventId] has a row. *)
Lemma createEvent_invalid (d : JobData.EventJobData) (w : World) :
  Obs.valid d = false ->
  exists err w', Repository.createEvent env d w = (Throw err, w')
                 /\ ledger w' = ledger w /\ trace w' = trace w
                 /\ eventQueue w' = eventQueue w
                 /\ deadLetterQueue w' = deadLetterQueue w
                 /\ randomDraws w' = randomDraws w.
Proof.
  intros Hv.
  unfold Repository.createEvent, try_catch, bind, Mongoose.save, bind, new_Date, throw.
  simpl. check_valid d Hv. do 2 eexists. repeat split.
Qed.

Lemma rows_app (i : string) (l1 l2 : list IEvent) :
  Obs.rows i (l1 ++ l2) = (Obs.rows i l1 + Obs.rows i l2)%nat.
Proof. unfold Obs.rows. rewrite List.filter_app, List.length_app. reflexivity. Qed.

Lemma createEvents_duplicates (i : string) (ds : list JobData.EventJobData) (w : World) :
  Forall (fun d => JobData.eventId d = i) ds ->
  Forall (fun d => Obs.valid d = true) ds ->
  Obs.rows i (ledger w) <> 0%nat ->
  exists w', Obs.createEvents env ds w = (Normal (List.map (fun _ => None) ds), w')
             /\ ledger w' = ledger w.
Proof.
  intros Hall. revert w. induction Hall as [|d ds Hd Hall IH]; intros w Hvs Hrows.
  - simpl. eexists. split; reflexivity.
  - inversion Hvs as [|d0 ds0 Hv Hvs']; subst d0 ds0. specialize (fun w => IH w Hvs').
    subst i. destruct (createEvent_duplicate d w Hv Hrows) as (w1 & E1 & L1 & _).
    assert (Hrows1 : Obs.rows (JobData.eventId d) (ledger w1) <> 0%nat) by (rewrite L1; exact Hrows).
    destruct (IH w1 Hrows1) as (w2 & E2 & L2).
    exists w2. split; [|congruence].
    simpl. unfold bind at 1. rewrite E1. unfold bind at 1. rewrite E2. reflexivity.
Qed.

(** C1. Idempotent create: on a ledger that respects the unique index,
    a sequence of [createEvent] calls for one [eventId], each with data
    that passes the validators of the schema ([eventId] and [type] not
    empty, [payload] not [null]), returns normally and leaves exactly one
    row for it; every call after the first returns [null], and the ledger
    after the whole sequence is the ledger after the first call. *)
Theorem createEvent_idempotent
    (i : string) (d : JobData.EventJobData) (ds : list JobData.EventJobData)
    (w : World) :
  JobData.eventId d = i ->
  Forall (fun d' => JobData.eventId d' = i) ds ->
  Forall (fun d' => Obs.valid d' = true) (d :: ds) ->
  (Obs.rows i (ledger w) <= 1)%nat ->
  exists r w',
    Obs.createEvents env (d :: ds) w = (Normal (r :: List.map (fun _ => None) ds), w')
    /\ Obs.rows i (ledger w') = 1%nat
    /\ ledger w' = ledger (snd (Repository.createEvent env d w))
    /\ (Obs.rows i (ledger w) = 0%nat -> exists e, r = Some e)
    /\ (Obs.rows i (ledger w) = 1%nat -> r = None /\ ledger w' = ledger w).
Proof.
  intros Hd Hall Hvs Hle. inversion Hvs as [|d0 ds0 Hv Hvs']; subst d0 ds0. subst i.
  destruct (Nat.eq_dec (Obs.rows (JobData.eventId d) (ledger w)) 0) as [H0|H0].
  - destruct (createEvent_fresh d w Hv H0) as (w1 & e & E1 & L1 & Hid & _).
    assert (Hrows1 : Obs.rows (JobData.eventId d) (ledger w1) = 1%nat).
    { rewrite L1, rows_app, H0. unfold Obs.rows. simpl.
      unfold Mongoose.matches. rewrite Hid, String.eqb_refl. reflexivity. }
    destruct (createEvents_duplicates (JobData.eventId d) ds w1 Hall Hvs') as (w2 & E2 & L2);
      [lia|].
    exists (Some e), w2. repeat split.
    + simpl. unfold bind at 1. rewrite E1. unfold bind at 1. rewrite E2. reflexivity.
    + congruence.
    + rewrite E1. simpl. exact L2.
    + eauto.
    + lia.
    + lia.
  - destruct (createEvent_duplicate d w Hv H0) as (w1 & E1 & L1 & _).
    destruct (createEvents_duplicates (JobData.eventId d) ds w1 Hall Hvs') as (w2 & E2 & L2);
      [congruence|].
    exists None, w2. repeat split.
    + simpl. unfold bind at 1. rewrite E1. unfold bind at 1. rewrite E2. reflexivity.
    + rewrite L2, L1. lia.
    + rewrite E1. simpl. exact L2.
    + intros; lia.
    + congruence.
Qed.

End Ledger.

(** ** Processing attempts *)

Section Attempts.
Import Model.
Variable env : Env.

Ltac run_process :=
  unfold Service.processEvent, Repository.eventExists, Repository.getEventById,
    Repository.createEvent, Repository.incrementEventAttempts,
    Repository.markEventRouted, Service.simulateRoutingService,
    Mongoose.findOne, Mongoose.save, Mongoose.findOneAndUpdate,
    try_catch, bind, emit, ret, throw, new_Date, random; simpl.

Ltac flatten_trace := repeat rewrite <- List.app_assoc; simpl.

Lemma find_none_existsb (i : string) (l : list IEvent) :
  List.find (Mongoose.matches i) l = None -> existsb (Mongoose.matches i) l = false.
Proof.
  induction l as [|x l IH]; simpl; [reflexivity|].
  destruct (Mongoose.matches i x); [congruence|exact IH].
Qed.

Lemma processEvent_existing_routed
    (d : JobData.EventJobData) (n : Z) (w : World) (e : IEvent) :
  Obs.row (JobData.eventId d) (ledger w) = Some e ->
  status e = ROUTED ->
  exists w',
    Service.processEvent env d n w
      = (Normal (Service.mkResult true "Event already processed (idempotent skip)"), w')
    /\ ledger w' = ledger w
    /\ eventQueue w' = eventQueue w
    /\ deadLetterQueue w' = deadLetterQueue w.
Proof.
  intros Hr Hs. destruct w as [l q dq c r u t]. simpl in *.
  unfold Obs.row in Hr. run_process. rewrite Hr. simpl. rewrite Hr. simpl.
  rewrite Hs. simpl. eexists. split; [reflexivity|]. repeat split.
Qed.

Lemma processEvent_existing_fail (d : JobData.EventJobData) (n : Z) (w : World) (e : IEvent) :
  Obs.row (JobData.eventId d) (ledger w) = Some e -> status e <> ROUTED ->
  Obs.routing_fails env (randomDraws w) = true ->
  exists w', Service.processEvent env d n w = (Throw Service.routingError, w') /\
    ledger w' = snd (Mongoose.update_first (JobData.eventId d)
                       (Repository.incrementUpdate (Date_now env (clockReads w))) (ledger w)) /\
    eventQueue w' = eventQueue w /\ deadLetterQueue w' = deadLetterQueue w /\
    trace w' = trace w ++ [LedgerFind (JobData.eventId d); LedgerFind (JobData.eventId d);
                           LedgerUpdate (JobData.eventId d) None;
                           RouteCall (JobData.eventId d) (ROUTING_DELAY_MS env)] /\
    randomDraws w' = S (randomDraws w) /\ clockReads w' = S (clockReads w).
Proof.
  intros Hr Hs Hf. destruct w as [l q dq c r u t]. simpl in *.
  unfold Obs.row, Obs.routing_fails in *. run_process. rewrite Hr. simpl.
  rewrite Hr. simpl. rewrite bool_decide_eq_false_2 by (intros [= ?]; congruence).
  simpl. destruct (Mongoose.update_first _ _ l) as [o l'] eqn:E. simpl.
  rewrite Hf. simpl. eexists. split; [reflexivity|]. simpl.
  flatten_trace. repeat split.
Qed.

Lemma processEvent_existing_ok (d : JobData.EventJobData) (n : Z) (w : World) (e : IEvent) :
  Obs.row (JobData.eventId d) (ledger w) = Some e -> status e <> ROUTED ->
  Obs.routing_fails env (randomDraws w) = false ->
  exists w', Service.processEvent env d n w
               = (Normal (Service.mkResult true "Event routed successfully"), w') /\
    ledger w' = snd (Mongoose.update_first (JobData.eventId d)
                       (Repository.routedUpdate (Date_now env (S (clockReads w)))
                                                (Date_now env (S (S (clockReads w)))))
                  (snd (Mongoose.update_first (JobData.eventId d)
                          (Repository.incrementUpdate (Date_now env (clockReads w))) (ledger w)))) /\
    eventQueue w' = eventQueue w /\ deadLetterQueue w' = deadLetterQueue w /\
    trace w' = trace w ++ [LedgerFind (JobData.eventId d); LedgerFind (JobData.eventId d);
                           LedgerUpdate (JobData.eventId d) None;
                           RouteCall (JobData.eventId d) (ROUTING_DELAY_MS env);
                           LedgerUpdate (JobData.eventId d) (Some ROUTED)] /\
    randomDraws w' = S (randomDraws w).
Proof.
  intros Hr Hs Hf. destruct w as [l q dq c r u t]. simpl in *.
  unfold Obs.row, Obs.routing_fails in *. run_process. rewrite Hr. simpl.
  rewrite Hr. simpl. rewrite bool_decide_eq_false_2 by (intros [= ?]; congruence).
  simpl. destruct (Mongoose.update_first _ _ l) as [o l'] eqn:E. simpl.
  rewrite Hf. simpl.
  destruct (Mongoose.update_first _ _ l') as [o' l''] eqn:E'. simpl.
  eexists. split; [reflexivity|]. simpl.
  flatten_trace. repeat split.
Qed.

Lemma processEvent_new_fail (d : JobData.EventJobData) (n : Z) (w : World) :
  Obs.row (JobData.eventId d) (ledger w) = None ->
  Obs.valid d = true ->
  Obs.routing_fails env (randomDraws w) = true ->
  exists w', Service.processEvent env d n w = (Throw Service.routingError, w') /\
    ledger w' = ledger w ++
      [Repository.incrementUpdate (Date_now env (S (clockReads w)))
         (Mongoose.new_Event (JobData.eventId d) (JobData.type d) (JobData.payload d)
            (JobData.correlationId d) ROUTING_PENDING 0 (Date_now env (clockReads w)))] /\
    eventQueue w' = eventQueue w /\ deadLetterQueue w' = deadLetterQueue w /\
    trace w' = trace w ++ [LedgerFind (JobData.eventId d); LedgerInsert (JobData.eventId d);
                           LedgerUpdate (JobData.eventId d) None;
                           RouteCall (JobData.eventId d) (ROUTING_DELAY_MS env)] /\
    randomDraws w' = S (randomDraws w).
Proof.
  intros Hr Hv Hf. destruct w as [l q dq c r u t]. simpl in *.
  unfold Obs.row, Obs.routing_fails in *. run_process. rewrite Hr. simpl.
  check_valid d Hv.
  rewrite (find_none_existsb _ _ Hr). simpl.
  rewrite update_first_app_fresh by (auto; reflexivity). simpl.
  rewrite Hf. simpl. eexists. split; [reflexivity|]. simpl.
  flatten_trace. repeat split.
Qed.

Lemma processEvent_new_ok (d : JobData.EventJobData) (n : Z) (w : World) :
  Obs.row (JobData.eventId d) (ledger w) = None ->
  Obs.valid d = true ->
  Obs.routing_fails env (randomDraws w) = false ->
  exists w', Service.processEvent env d n w
               = (Normal (Service.mkResult true "Event routed successfully"), w') /\
    ledger w' = ledger w ++
      [Repository.routedUpdate (Date_now env (S (S (clockReads w))))
                               (Date_now env (S (S (S (clockReads w)))))
         (Repository.incrementUpdate (Date_now env (S (clockReads w)))
            (Mongoose.new_Event (JobData.eventId d) (JobData.type d) (JobData.payload d)
               (JobData.correlationId d) ROUTING_PENDING 0 (Date_now env (clockReads w))))] /\
    eventQueue w' = eventQueue w /\ deadLetterQueue w' = deadLetterQueue w /\
    trace w' = trace w ++ [LedgerFind (JobData.eventId d); LedgerInsert (JobData.eventId d);
                           LedgerUpdate (JobData.eventId d) None;
                           RouteCall (JobData.eventId d) (ROUTING_DELAY_MS env);
                           LedgerUpdate (JobData.eventId d) (Some ROUTED)] /\
    randomDraws w' = S (randomDraws w).
Proof.
  intros Hr Hv Hf. destruct w as [l q dq c r u t]. simpl in *.
  unfold Obs.row, Obs.routing_fails in *. run_process. rewrite Hr. simpl.
  check_valid d Hv.
  rewrite (find_none_existsb _ _ Hr). simpl.
  rewrite update_first_app_fresh by (auto; reflexivity). simpl.
  rewrite Hf. simpl.
  rewrite update_first_app_fresh by (auto; reflexivity). simpl.
  eexists. split; [reflexivity|]. simpl.
  flatten_trace. repeat split.
Qed.

(** Data that fails validation, for an event without a row: [createEvent]
    throws, and [processEvent] with it, before the attempt is counted or
    the routing service called. *)
Lemma processEvent_new_invalid (d : JobData.EventJobData) (n : Z) (w : World) :
  Obs.row (JobData.eventId d) (ledger w) = None ->
  Obs.valid d = false ->
  exists err w', Service.processEvent env d n w = (Throw err, w') /\
    ledger w' = ledger w /\
    eventQueue w' = eventQueue w /\ deadLetterQueue w' = deadLetterQueue w /\
    trace w' = trace w ++ [LedgerFind (JobData.eventId d)] /\
    randomDraws w' = randomDraws w.
Proof.
  intros Hr Hv. destruct w as [l q dq c r u t]. simpl in *.
  unfold Obs.row in *. run_process. rewrite Hr. simpl.
  check_valid d Hv. do 2 eexists. split; [reflexivity|]. repeat split.
Qed.

Lemma statusOf_update (i : string) (f : IEvent -> IEvent) (w w' : World) :
  (forall e, eventId (f e) = eventId e) ->
  ledger w' = snd (Mongoose.update_first i f (ledger w)) ->
  Obs.statusOf i w' = (fun e => status (f e)) <$> Obs.row i (ledger w)
  /\ forall j, i <> j -> Obs.statusOf j w' = Obs.statusOf j w.
Proof.
  intros Hf Hl. unfold Obs.statusOf. rewrite Hl. split.
  - rewrite update_first_row by exact Hf. destruct (Obs.row i (ledger w)); reflexivity.
  - intros j Hij. rewrite update_first_other by assumption. reflexivity.
Qed.

Lemma statusOf_insert (e : IEvent) w w' :
  Obs.row (eventId e) (ledger w) = None ->
  ledger w' = ledger w ++ [e] ->
  Obs.statusOf (eventId e) w' = Some (status e)
  /\ forall j, eventId e <> j -> Obs.statusOf j w' = Obs.statusOf j w.
Proof.
  intros Hn Hl. unfold Obs.statusOf. rewrite Hl. split.
  - rewrite row_app_fresh by auto. reflexivity.
  - intros j Hj. rewrite row_app_other by exact Hj. reflexivity.
Qed.

Lemma processEvent_attempt (d : JobData.EventJobData) (n : Z) (w : World) :
  exists c w', Service.processEvent env d n w = (c, w')
    /\ Obs.attempt (JobData.eventId d) w w' c
    /\ eventQueue w' = eventQueue w /\ deadLetterQueue w' = deadLetterQueue w.
Proof.
  destruct (Obs.row (JobData.eventId d) (ledger w)) as [e|] eqn:Hr;
    [destruct (decide (status e = ROUTED)) as [Hs|Hs]|destruct (Obs.valid d) eqn:Hv];
    [|destruct (Obs.routing_fails env (randomDraws w)) eqn:Hf..|].
  - destruct (processEvent_existing_routed d n w e Hr Hs) as (w' & E & L & Q & D).
    eexists; exists w'. split; [exact E|]. split; [|split; assumption].
    apply Obs.attempt_skip; [unfold Obs.statusOf; rewrite Hr; simpl; congruence|exact L].
  - destruct (processEvent_existing_fail d n w e Hr Hs Hf) as (w' & E & L & Q & D & _).
    eexists; exists w'. split; [exact E|]. split; [|split; assumption].
    apply statusOf_update in L as [L1 L2]; [|intros; reflexivity].
    apply Obs.attempt_failed; [unfold Obs.statusOf; rewrite Hr; simpl; congruence| |exact L2].
    rewrite L1. unfold Obs.statusOf. rewrite Hr. reflexivity.
  - destruct (processEvent_existing_ok d n w e Hr Hs Hf) as (w' & E & L & Q & D & _).
    eexists; exists w'. split; [exact E|]. split; [|split; assumption].
    apply Obs.attempt_routed.
    + unfold Obs.statusOf; rewrite Hr; simpl; congruence.
    + unfold Obs.statusOf. rewrite L.
      rewrite !update_first_row by (intros; reflexivity). rewrite Hr. reflexivity.
    + intros j Hj. unfold Obs.statusOf. rewrite L.
      rewrite !update_first_other by (auto; intros; reflexivity). reflexivity.
  - destruct (processEvent_new_fail d n w Hr Hv Hf) as (w' & E & L & Q & D & _).
    eexists; exists w'. split; [exact E|]. split; [|split; assumption].
    apply statusOf_insert in L as [L1 L2]; [|exact Hr].
    simpl in L1, L2.
    apply Obs.attempt_failed; [unfold Obs.statusOf; rewrite Hr; simpl; congruence| |exact L2].
    rewrite L1. unfold Obs.statusOf. rewrite Hr. reflexivity.
  - destruct (processEvent_new_ok d n w Hr Hv Hf) as (w' & E & L & Q & D & _).
    eexists; exists w'. split; [exact E|]. split; [|split; assumption].
    apply statusOf_insert in L as [L1 L2]; [|exact Hr].
    simpl in L1, L2.
    apply Obs.attempt_routed; [unfold Obs.statusOf; rewrite Hr; simpl; congruence|exact L1|exact L2].
  - destruct (processEvent_new_invalid d n w Hr Hv) as (err & w' & E & L & Q & D & _).
    exists (Throw err), w'. split; [exact E|]. split; [|split; assumption].
    apply Obs.attempt_rejected; [unfold Obs.statusOf; rewrite Hr; reflexivity|exact L].
Qed.

(** C2. Idempotent terminal skip: when the ledger row of the event is
    [ROUTED], [processEvent] returns success; it makes two ledger reads
    and no other call (no routing call, no ledger update), and the ledger,
    the queues and the random draws are as before. *)
Theorem processEvent_routed_skip
    (d : JobData.EventJobData) (n : Z) (w : World) (e : IEvent) :
  Obs.row (JobData.eventId d) (ledger w) = Some e ->
  status e = ROUTED ->
  exists w',
    Service.processEvent env d n w
      = (Normal (Service.mkResult true "Event already processed (idempotent skip)"), w')
    /\ ledger w' = ledger w
    /\ trace w' = trace w ++ [LedgerFind (JobData.eventId d); LedgerFind (JobData.eventId d)]
    /\ List.filter Obs.is_route (Obs.since w w') = []
    /\ randomDraws w' = randomDraws w
    /\ eventQueue w' = eventQueue w
    /\ deadLetterQueue w' = deadLetterQueue w.
Proof.
  intros Hr Hs. destruct w as [l q dq c r u t]. simpl in *.
  unfold Obs.row in Hr. run_process.
  (* both reads find the row *)
  rewrite Hr. simpl. rewrite Hr. simpl.
  (* its status is ROUTED: the early return *)
  rewrite Hs. simpl. eexists. split; [reflexivity|]. simpl.
  unfold Obs.since. simpl. flatten_trace.
  rewrite List.skipn_app, List.skipn_all, Nat.sub_diag. simpl.
  repeat split.
Qed.

End Attempts.

(** ** The worker on one job *)

Section WorkerLoop.
Import Model.
Variable env : Env.

Ltac run_failed :=
  unfold Worker.on_failed, Service.handleFinalFailure, Repository.markEventFailed,
    EventQueue.addToDLQ, EventQueue.deadLetterQueue_add, Mongoose.findOneAndUpdate,
    bind, emit, ret, new_Date; simpl.

Lemma on_failed_final (job : Bull.Job JobData.EventJobData) (err : JsError) (w : World) :
  Worker.maxAttempts job <= Bull.attemptsMade job ->
  exists w', Worker.on_failed env (Some job) err w = (Normal (), w') /\
    ledger w' = snd (Mongoose.update_first (JobData.eventId (Bull.data job))
                       (Repository.failedUpdate (message err) (Date_now env (clockReads w)))
                       (ledger w)) /\
    eventQueue w' = eventQueue w /\
    deadLetterQueue w' =
      snd (Bull.addJob "failed-event"
             (JobData.mkDLQData (Bull.data job) (message err)
                (Date_now env (S (clockReads w))) (Bull.attemptsMade job))
             None (deadLetterQueue w)) /\
    trace w' = trace w ++ [LedgerUpdate (JobData.eventId (Bull.data job)) (Some FAILED);
                           QueueAdd EventQueue.DLQ_NAME "failed-event"] /\
    randomDraws w' = randomDraws w.
Proof.
  intros Hmax. destruct w as [l q dq c r u t]. run_failed.
  destruct (Z.leb_spec (Worker.maxAttempts job) (Bull.attemptsMade job)); [|lia].
  run_failed. destruct (Mongoose.update_first _ _ l) as [o l'] eqn:E. simpl.
  eexists. split; [reflexivity|]. simpl. rewrite <- List.app_assoc. simpl.
  repeat split.
Qed.

Lemma on_failed_retry (job : Bull.Job JobData.EventJobData) (err : JsError) (w : World) :
  Bull.attemptsMade job < Worker.maxAttempts job ->
  Worker.on_failed env (Some job) err w = (Normal (), w).
Proof.
  intros Hlt. unfold Worker.on_failed.
  destruct (Z.leb_spec (Worker.maxAttempts job) (Bull.attemptsMade job)); [lia|].
  reflexivity.
Qed.

Lemma runJob_attempt (fuel : nat) (job : Bull.Job JobData.EventJobData) (w : World) :
  exists c w1,
    Obs.attempt (JobData.eventId (Bull.data job)) w w1 c /\
    deadLetterQueue w1 = deadLetterQueue w /\
    Service.processEvent env (Bull.data job) (Bull.attemptsMade job)
      (set_eventQueue (Bull.put (Bull.set_state Bull.active job) (eventQueue w)) w) = (c, w1) /\
    Worker.runJob (S fuel) env job w =
      match c with
      | Normal _ =>
          (Normal Worker.JobCompleted,
           set_eventQueue (Bull.put (Bull.set_state Bull.completed job) (eventQueue w1)) w1)
      | Throw err => Worker.handleFailed env (Worker.runJob fuel env) job err w1
      end.
Proof.
  set (w0 := set_eventQueue (Bull.put (Bull.set_state Bull.active job) (eventQueue w)) w).
  destruct (processEvent_attempt env (Bull.data job) (Bull.attemptsMade job) w0)
    as (c & w1 & E & A & Q & D).
  exists c, w1. split; [|split; [exact D|split; [exact E|]]].
  - destruct A; [apply Obs.attempt_skip|apply Obs.attempt_routed|apply Obs.attempt_failed
                |apply Obs.attempt_rejected]; auto.
  - simpl. unfold bind at 1. unfold Worker.eventQueue_put at 1. fold w0.
    unfold bind at 1, Worker.settle at 1, Worker.processor, bind at 1.
    rewrite E. destruct c; reflexivity.
Qed.
Lemma since_app (w w' : World) (t : list Effect) :
  trace w' = trace w ++ t -> Obs.since w w' = t.
Proof.
  intros H. unfold Obs.since. rewrite H, List.skipn_app, List.skipn_all, Nat.sub_diag.
  reflexivity.
Qed.

Lemma processEvent_fail (d : JobData.EventJobData) (n : Z) (w : World) :
  Obs.statusOf (JobData.eventId d) w <> Some ROUTED ->
  Obs.processable d w ->
  Obs.routing_fails env (randomDraws w) = true ->
  exists w' t, Service.processEvent env d n w = (Throw Service.routingError, w') /\
    trace w' = trace w ++ t /\
    List.filter Obs.is_failed_update t = [] /\
    List.filter Obs.is_dlq_add t = [] /\
    length (List.filter Obs.is_route t) = 1%nat /\
    deadLetterQueue w' = deadLetterQueue w /\
    randomDraws w' = S (randomDraws w) /\
    Obs.statusOf (JobData.eventId d) w'
      = Some (default ROUTING_PENDING (Obs.statusOf (JobData.eventId d) w)).
Proof.
  intros Hs Hp Hf. unfold Obs.processable, Obs.statusOf in *.
  destruct (Obs.row (JobData.eventId d) (ledger w)) as [e|] eqn:Hr.
  - assert (He : status e <> ROUTED) by (simpl in Hs; congruence).
    destruct (processEvent_existing_fail env d n w e Hr He Hf) as (w' & E & L & Q & D & T & R & _).
    exists w'. eexists. split; [exact E|]. split; [exact T|].
    do 5 (split; [auto; reflexivity|]).
    rewrite L, update_first_row by (intros; reflexivity). rewrite Hr. reflexivity.
  - destruct (processEvent_new_fail env d n w Hr (Hp eq_refl) Hf) as (w' & E & L & Q & D & T & R).
    exists w'. eexists. split; [exact E|]. split; [exact T|].
    do 5 (split; [auto; reflexivity|]).
    rewrite L, row_app_fresh by (auto; reflexivity). reflexivity.
Qed.

Lemma runJob_exhaust (k : nat) :
  forall (job : Bull.Job JobData.EventJobData) (w : World) (fuel : nat),
  Bull.attempts (Bull.opts job) = Bull.attemptsMade job + Z.of_nat (S k) ->
  0 <= Bull.attemptsMade job ->
  (forall m, Obs.routing_fails env m = true) ->
  Obs.statusOf (JobData.eventId (Bull.data job)) w <> Some ROUTED ->
  Obs.processable (Bull.data job) w ->
  (S k <= fuel)%nat ->
  exists w' t failedAt,
    Worker.runJob fuel env job w = (Normal (Worker.JobFailed Service.routingError), w') /\
    trace w' = trace w ++ t /\
    List.filter Obs.is_failed_update t
      = [LedgerUpdate (JobData.eventId (Bull.data job)) (Some FAILED)] /\
    List.filter Obs.is_dlq_add t = [QueueAdd EventQueue.DLQ_NAME "failed-event"] /\
    length (List.filter Obs.is_route t) = S k /\
    deadLetterQueue w' =
      snd (Bull.addJob "failed-event"
             (JobData.mkDLQData (Bull.data job) (message Service.routingError) failedAt
                (Bull.attempts (Bull.opts job)))
             None (deadLetterQueue w)) /\
    Obs.statusOf (JobData.eventId (Bull.data job)) w' = Some FAILED.
Proof.
  induction k as [|k IH]; intros job w fuel Hatt Hmade Hfail Hst Hproc Hfuel;
    (destruct fuel as [|fuel]; [lia|]);
    destruct (runJob_attempt fuel job w) as (c & w1 & _ & _ & E & R);
    set (w0 := set_eventQueue (Bull.put (Bull.set_state Bull.active job) (eventQueue w)) w) in *;
    destruct (processEvent_fail (Bull.data job) (Bull.attemptsMade job) w0 Hst Hproc (Hfail _))
      as (w1' & t1 & E1 & T1 & C1 & C2 & C3 & D1 & _ & S1);
    rewrite E1 in E; injection E as <- <-; rewrite R; clear R;
    unfold Worker.handleFailed; cbv zeta;
    set (job' := Bull.set_attemptsMade (Bull.attemptsMade job + 1) job);
    assert (Hmade' : Bull.attemptsMade job' = Bull.attemptsMade job + 1) by reflexivity;
    assert (Hopts' : Bull.opts job' = Bull.opts job) by reflexivity;
    assert (Hmax' : Worker.maxAttempts job' = Bull.attempts (Bull.opts job))
      by (unfold Worker.maxAttempts; rewrite Hopts';
          destruct (Z.eqb_spec (Bull.attempts (Bull.opts job)) 0); lia).
  - (* the last attempt *)
    destruct (Z.ltb_spec (Bull.attemptsMade job') (Bull.attempts (Bull.opts job')));
      [rewrite Hmade', Hopts' in *; lia|].
    unfold bind at 1, Worker.eventQueue_put at 1.
    match goal with |- context [set_eventQueue ?q w1'] => set (w2 := set_eventQueue q w1') end.
    destruct (on_failed_final job' Service.routingError w2) as (w3 & E3 & L3 & Q3 & D3 & T3 & _).
    { lia. }
    unfold bind at 1, Worker.settle. rewrite E3.
    exists w3, (t1 ++ [LedgerUpdate (JobData.eventId (Bull.data job)) (Some FAILED);
                       QueueAdd EventQueue.DLQ_NAME "failed-event"]).
    eexists. split; [reflexivity|].
    split; [rewrite T3; simpl; rewrite T1; simpl; rewrite <- List.app_assoc; reflexivity|].
    rewrite !List.filter_app, C1, C2, List.length_app, C3.
    do 3 (split; [reflexivity|]).
    split.
    + rewrite D3. simpl. rewrite D1. simpl.
      replace (Bull.attemptsMade job + 1) with (Bull.attempts (Bull.opts job)) by lia.
      reflexivity.
    + apply statusOf_update in L3 as [L3 _]; [|intros; reflexivity].
      simpl in L3. rewrite L3. change (ledger w2) with (ledger w1').
      unfold Obs.statusOf in S1. destruct (Obs.row _ (ledger w1')); [reflexivity|discriminate].
  - (* an attempt that is retried *)
    destruct (Z.ltb_spec (Bull.attemptsMade job') (Bull.attempts (Bull.opts job')));
      [|rewrite Hmade', Hopts' in *; lia].
    unfold bind at 1, Worker.eventQueue_put at 1.
    match goal with |- context [set_eventQueue ?q w1'] => set (w2 := set_eventQueue q w1') end.
    unfold bind at 1, emit at 1.
    match goal with |- context [bind _ _ ?x] => set (w3 := x) end.
    unfold bind at 1, Worker.settle.
    rewrite on_failed_retry by lia.
    destruct (IH job' w3 fuel) as (w' & t & fa & E' & T' & C1' & C2' & C3' & D' & S');
      [unfold job'; simpl; lia|unfold job'; simpl; lia|exact Hfail| | |lia|].
    { unfold job'. simpl. change (Obs.statusOf (JobData.eventId (Bull.data job)) w3)
        with (Obs.statusOf (JobData.eventId (Bull.data job)) w1').
      rewrite S1. change (Obs.statusOf (JobData.eventId (Bull.data job)) w0)
        with (Obs.statusOf (JobData.eventId (Bull.data job)) w).
      destruct (Obs.statusOf (JobData.eventId (Bull.data job)) w) as [[]|]; simpl; congruence. }
    { unfold Obs.processable, job'. simpl.
      change (Obs.statusOf (JobData.eventId (Bull.data job)) w3)
        with (Obs.statusOf (JobData.eventId (Bull.data job)) w1').
      rewrite S1. discriminate. }
    rewrite E'. exists w', (t1 ++ RetryScheduled (Bull.id job)
                 (Bull.exponential (Bull.backoff_delay (Bull.opts job))
                    (Bull.attemptsMade job + 1 - 1)) :: t), fa.
    split; [reflexivity|].
    split; [rewrite T'; unfold w3; simpl; rewrite T1; simpl; rewrite <- !List.app_assoc; reflexivity|].
    rewrite !List.filter_app, C1, C2, List.length_app, C3.
    simpl. unfold job' in *. simpl in *. rewrite C1', C2', C3'.
    repeat split; auto.
    rewrite D', D1. reflexivity.
Qed.

(** C4. Exhaustion leads to the dead-letter queue, once: for a job with a
    configured maximum of at least one attempt, whose event is not
    [ROUTED] (and, while it has no row, whose data passes the validators
    of the schema) and whose routing calls all fail, the worker runs exactly
    that many attempts and the job fails; during the run exactly one
    ledger update sets [FAILED] (for this event, which ends [FAILED]) and
    exactly one entry is added to the dead-letter queue, holding the job
    data and [attempts] equal to the configured maximum. *)
Theorem exhausted_job_dead_letters_once
    (job : Bull.Job JobData.EventJobData) (w : World) (fuel : nat) :
  1 <= Bull.attempts (Bull.opts job) ->
  Bull.attemptsMade job = 0 ->
  (forall m, Obs.routing_fails env m = true) ->
  Obs.statusOf (JobData.eventId (Bull.data job)) w <> Some ROUTED ->
  Obs.processable (Bull.data job) w ->
  (Z.to_nat (Bull.attempts (Bull.opts job)) <= fuel)%nat ->
  exists w' failedAt,
    Worker.runJob fuel env job w = (Normal (Worker.JobFailed Service.routingError), w')
    /\ List.filter Obs.is_failed_update (Obs.since w w')
       = [LedgerUpdate (JobData.eventId (Bull.data job)) (Some FAILED)]
    /\ List.filter Obs.is_dlq_add (Obs.since w w')
       = [QueueAdd EventQueue.DLQ_NAME "failed-event"]
    /\ length (List.filter Obs.is_route (Obs.since w w'))
       = Z.to_nat (Bull.attempts (Bull.opts job))
    /\ Bull.jobs (deadLetterQueue w')
       = Bull.jobs (deadLetterQueue w) ++
         [Bull.mkJob (Bull.AutoId (S (Bull.counter (deadLetterQueue w)))) "failed-event"
            (JobData.mkDLQData (Bull.data job) "Routing service temporarily unavailable"
               failedAt (Bull.attempts (Bull.opts job)))
            (Bull.defaultJobOptions (deadLetterQueue w)) 0 Bull.waiting]
    /\ Obs.statusOf (JobData.eventId (Bull.data job)) w' = Some FAILED.
Proof.
  intros Hpos Hzero Hfail Hst Hproc Hfuel.
  destruct (runJob_exhaust (Z.to_nat (Bull.attempts (Bull.opts job)) - 1) job w fuel)
    as (w' & t & failedAt & E & T & C1 & C2 & C3 & D & S); try assumption; try lia.
  exists w', failedAt. rewrite (since_app w w' t T), C1, C2, C3, D, S.
  repeat split; try reflexivity; try assumption. lia.
Qed.

(** C9. The status updates are not upserts: when the ledger has no row
    for an [eventId], [updateEventStatus], [markEventFailed] and
    [markEventRouted] return [null] and leave the ledger as it is; and the
    ['failed'] listener, run for a job of that event that has used up its
    attempts, leaves the ledger without a row for the event while it adds
    the job to the dead-letter queue. *)
Theorem missing_row_is_not_created (i : string) (w : World) :
  Obs.row i (ledger w) = None ->
  (forall s additionalData, exists w0,
      Repository.updateEventStatus env i s additionalData w = (Normal None, w0)
      /\ ledger w0 = ledger w)
  /\ (forall err, exists w1,
      Repository.markEventFailed env i err w = (Normal None, w1)
      /\ ledger w1 = ledger w)
  /\ (exists w2,
      Repository.markEventRouted env i w = (Normal None, w2)
      /\ ledger w2 = ledger w)
  /\ (forall (job : Bull.Job JobData.EventJobData) (error : JsError),
      JobData.eventId (Bull.data job) = i ->
      Worker.maxAttempts job <= Bull.attemptsMade job ->
      exists w3 failedAt,
        Worker.on_failed env (Some job) error w = (Normal (), w3)
        /\ ledger w3 = ledger w
        /\ Obs.row i (ledger w3) = None
        /\ Bull.jobs (deadLetterQueue w3)
           = Bull.jobs (deadLetterQueue w) ++
             [Bull.mkJob (Bull.AutoId (S (Bull.counter (deadLetterQueue w)))) "failed-event"
                (JobData.mkDLQData (Bull.data job) (message error) failedAt
                   (Bull.attemptsMade job))
                (Bull.defaultJobOptions (deadLetterQueue w)) 0 Bull.waiting]).
Proof.
  intros Hr. split; [|split; [|split]].
  - intros s additionalData. destruct w as [l q dq c r u t]. simpl in Hr.
    unfold Repository.updateEventStatus, Mongoose.findOneAndUpdate, bind, emit, new_Date.
    simpl. rewrite (update_first_absent _ _ _ Hr). eexists. split; reflexivity.
  - intros err. destruct w as [l q dq c r u t]. simpl in Hr.
    unfold Repository.markEventFailed, Mongoose.findOneAndUpdate, bind, emit, new_Date.
    simpl. rewrite (update_first_absent _ _ _ Hr). eexists. split; reflexivity.
  - destruct w as [l q dq c r u t]. simpl in Hr.
    unfold Repository.markEventRouted, Mongoose.findOneAndUpdate, bind, emit, new_Date.
    simpl. rewrite (update_first_absent _ _ _ Hr). eexists. split; reflexivity.
  - intros job error Hi Hmax.
    destruct (on_failed_final job error w Hmax) as (w3 & E & L & _ & D & _).
    rewrite Hi, (update_first_absent _ _ _ Hr) in L. simpl in L.
    exists w3. eexists. split; [exact E|]. split; [exact L|]. split; [congruence|].
    rewrite D. reflexivity.
Qed.

End WorkerLoop.

(** ** Replay of the dead-letter queue *)

Section Replay.

Import JobData.

Lemma requeued_jobs (js : list (Bull.Job DLQData)) (q : Bull.Queue EventJobData) :
  Bull.jobs (Obs.requeued js q)
    = Bull.jobs q ++ Obs.freshJobs (Bull.counter q) (Bull.defaultJobOptions q) js.
Proof.
  revert q. induction js as [|j js IH]; intros q; simpl.
  - rewrite List.app_nil_r. reflexivity.
  - unfold Obs.requeued in *. rewrite IH. simpl. rewrite <- List.app_assoc. reflexivity.
Qed.

Lemma purged_jobs (js : list (Bull.Job DLQData)) (q : Bull.Queue DLQData) :
  Bull.jobs (Obs.purged js q) = List.filter (Obs.not_among js) (Bull.jobs q).
Proof.
  revert q. induction js as [|j js IH]; intros q; simpl.
  - unfold Obs.not_among. simpl. induction (Bull.jobs q) as [|k l IHl]; simpl; congruence.
  - unfold Obs.purged in *. rewrite IH. simpl.
    induction (Bull.jobs q) as [|k l IHl]; simpl; [reflexivity|].
    unfold Obs.not_among at 2. simpl.
    destruct (Bull.has_id (Bull.id j) k); simpl; [exact IHl|].
    fold (Obs.not_among js k). destruct (Obs.not_among js k); simpl; congruence.
Qed.

Lemma replayLoop_run (js : list (Bull.Job DLQData)) :
  forall (n : Z) (w : World),
  exists w' t, EventQueue.replayLoop js n w = (Normal (n + Z.of_nat (length js)), w')
    /\ ledger w' = ledger w
    /\ eventQueue w' = Obs.requeued js (eventQueue w)
    /\ deadLetterQueue w' = Obs.purged js (deadLetterQueue w)
    /\ trace w' = trace w ++ t
    /\ List.filter Obs.is_ledger t = []
    /\ List.filter Obs.is_route t = [].
Proof.
  induction js as [|j js IH]; intros n w.
  - exists w, []. simpl. unfold ret. rewrite Z.add_0_r, List.app_nil_r. repeat split.
  - destruct w as [l q dq c r u t].
    simpl. unfold bind at 1, try_catch, EventQueue.eventQueue_add, EventQueue.dlqJob_remove,
      bind, emit, ret. simpl.
    match goal with |- context [EventQueue.replayLoop js (n + 1) ?x] =>
      destruct (IH (n + 1) x) as (w' & t' & E & L & Q & D & T & T1 & T2) end.
    rewrite E. simpl in *.
    exists w', (QueueAdd EventQueue.QUEUE_NAME "retry"
                :: QueueRemove EventQueue.DLQ_NAME (Bull.id j) :: t').
    split; [f_equal; f_equal; lia|]. split; [exact L|]. split; [exact Q|]. split; [exact D|].
    split; [rewrite T, <- !List.app_assoc; reflexivity|].
    simpl. split; assumption.
Qed.
Lemma freshJobs_data (c : nat) (o : Bull.JobOpts) (js : list (Bull.Job DLQData)) :
  List.map Bull.data (Obs.freshJobs c o js)
    = List.map (fun j => originalJob (Bull.data j)) js.
Proof.
  revert c. induction js as [|j js IH]; intros c; simpl; [reflexivity|].
  rewrite IH. reflexivity.
Qed.

Lemma not_among_self (js : list (Bull.Job DLQData)) (j : Bull.Job DLQData) :
  In j js -> Obs.not_among js j = false.
Proof.
  unfold Obs.not_among. induction js as [|k js IH]; simpl; [tauto|].
  intros [->|Hin].
  - unfold Bull.has_id. rewrite bool_decide_eq_true_2 by reflexivity. reflexivity.
  - rewrite (IH Hin). apply andb_false_r.
Qed.

(** C6. Replay: [replayDLQJobs] returns the number of waiting or delayed
    dead-letter jobs; the main queue gains, for each of them, a fresh
    waiting job named [retry] that carries its [originalJob] data; each of
    them is removed from the dead-letter queue, whose other jobs stay; the
    ledger is as before, and no ledger or routing call is made. *)
Theorem replayDLQJobs_requeues_all (w : World) :
  let js := Bull.getJobs [Bull.waiting; Bull.delayed] (deadLetterQueue w) in
  let new := Obs.freshJobs (Bull.counter (eventQueue w))
                            (Bull.defaultJobOptions (eventQueue w)) js in
  exists w',
    EventQueue.replayDLQJobs w = (Normal (Z.of_nat (length js)), w')
    /\ Bull.jobs (eventQueue w') = Bull.jobs (eventQueue w) ++ new
    /\ List.map Bull.data new = List.map (fun j => originalJob (Bull.data j)) js
    /\ Bull.jobs (deadLetterQueue w')
       = List.filter (Obs.not_among js) (Bull.jobs (deadLetterQueue w))
    /\ (forall j, In j js -> ~ In j (Bull.jobs (deadLetterQueue w')))
    /\ ledger w' = ledger w
    /\ List.filter Obs.is_ledger (Obs.since w w') = []
    /\ List.filter Obs.is_route (Obs.since w w') = [].
Proof.
  intros js new.
  unfold EventQueue.replayDLQJobs, EventQueue.deadLetterQueue_getJobs, bind at 1, bind at 1, emit.
  simpl. fold js.
  match goal with |- context [EventQueue.replayLoop js 0 ?x] =>
    destruct (replayLoop_run js 0 x) as (w' & t & E & L & Q & D & T & T1 & T2) end.
  rewrite E. simpl in *. exists w'.
  assert (Hd : Bull.jobs (deadLetterQueue w')
               = List.filter (Obs.not_among js) (Bull.jobs (deadLetterQueue w)))
    by (rewrite D; apply purged_jobs).
  assert (Hs : Obs.since w w' = QueueGetJobs EventQueue.DLQ_NAME :: t)
    by (apply since_app; rewrite T, <- List.app_assoc; reflexivity).
  split; [reflexivity|].
  split; [rewrite Q; apply requeued_jobs|].
  split; [apply freshJobs_data|].
  split; [exact Hd|].
  split.
  - intros j Hj Hin. rewrite Hd in Hin. apply List.filter_In in Hin as [_ Hin].
    rewrite (not_among_self js j Hj) in Hin. discriminate.
  - rewrite Hs. simpl. auto.
Qed.
End Replay.

(** ** The ingestion gate *)

Section Gate.


Lemma ingestEvent_cases (env : Env) (req : Controller.Request) (w : World) :
  exists r w' t,
    Controller.ingestEvent env req w = (Normal r, w')
    /\ ledger w' = ledger w
    /\ deadLetterQueue w' = deadLetterQueue w
    /\ randomDraws w' = randomDraws w
    /\ trace w' = trace w ++ t
    /\ (t = [] \/ t = [QueueAdd EventQueue.QUEUE_NAME "process-event"]).
Proof.
  destruct w as [l q dq c r u t].
  unfold Controller.ingestEvent, Controller.correlationIdOf, Controller.lift,
    EventQueue.addEventToQueue, EventQueue.eventQueue_add, try_catch, bind, emit, ret,
    new_Date, uuid. simpl.
  repeat (match goal with
          | |- context [if ?b then _ else _] => destruct b eqn:?
          | |- context [match ?x with Some _ => _ | None => _ end] => destruct x eqn:?
          | |- context [match ?x with Normal _ => _ | Throw _ => _ end] => destruct x eqn:?
          | |- context [let (_, _) := ?x in _] => destruct x eqn:?
          end; simpl).
  all: do 3 eexists; (split; [reflexivity|]); simpl.
  all: repeat (split; [reflexivity|]).
  all: first [ right; reflexivity
             | split; [symmetry; apply List.app_nil_r|left; reflexivity] ].
Qed.
Lemma ingestEvent_two_runs (env1 env2 : Env) (req : Controller.Request) (w1 w2 : World) :
  HMAC_SECRET env1 = HMAC_SECRET env2 ->
  randomUUID env1 (uuidDraws w1) = randomUUID env2 (uuidDraws w2) ->
  exists r1 r2 w1' w2',
    Controller.ingestEvent env1 req w1 = (Normal r1, w1')
    /\ Controller.ingestEvent env2 req w2 = (Normal r2, w2')
    /\ Controller.without_latency r1 = Controller.without_latency r2.
Proof.
  intros Hsecret Huuid.
  destruct w1 as [l1 q1 dq1 c1 r1 u1 t1], w2 as [l2 q2 dq2 c2 r2 u2 t2].
  unfold Controller.ingestEvent, Controller.correlationIdOf, Controller.lift,
    EventQueue.addEventToQueue, EventQueue.eventQueue_add, try_catch, bind, emit, ret,
    new_Date, uuid. simpl in *. rewrite <- Hsecret.
  repeat (match goal with
          | |- context [if ?b then _ else _] => destruct b eqn:?
          | |- context [match ?x with Some _ => _ | None => _ end] => destruct x eqn:?
          | |- context [match ?x with Normal _ => _ | Throw _ => _ end] => destruct x eqn:?
          | |- context [let (_, _) := ?x in _] => destruct x eqn:?
          end; simpl; try rewrite <- Huuid).
  all: do 4 eexists; split; [reflexivity|]; split; reflexivity.
Qed.

(** C8. The ingestion gate does not depend on the Routing Collaborator:
    two runs of [ingestEvent] on the same request, with the same secret
    and the same generated correlation id, answer with the same status
    code and the same body up to [latencyMs], whatever the routing
    behaviour ([Math.random] draws, routing delay), the clock, the ledger
    and the queues of the two runs are; a run reads and writes no ledger
    row, makes no routing call, and its only call is at most one enqueue
    on the main queue. *)
Theorem ingestEvent_independent_of_routing
    (env1 env2 : Env) (req : Controller.Request) (w1 w2 : World) :
  HMAC_SECRET env1 = HMAC_SECRET env2 ->
  randomUUID env1 (uuidDraws w1) = randomUUID env2 (uuidDraws w2) ->
  exists r1 r2 w1' w2' t1,
    Controller.ingestEvent env1 req w1 = (Normal r1, w1')
    /\ Controller.ingestEvent env2 req w2 = (Normal r2, w2')
    /\ Controller.without_latency r1 = Controller.without_latency r2
    /\ ledger w1' = ledger w1
    /\ randomDraws w1' = randomDraws w1
    /\ Obs.since w1 w1' = t1
    /\ (t1 = [] \/ t1 = [QueueAdd EventQueue.QUEUE_NAME "process-event"]).
Proof.
  intros Hsecret Huuid.
  destruct (ingestEvent_two_runs env1 env2 req w1 w2 Hsecret Huuid)
    as (r1 & r2 & w1' & w2' & E1 & E2 & Heq).
  destruct (ingestEvent_cases env1 req w1) as (r & w' & t & E & L & _ & R & T & Ht).
  rewrite E1 in E. injection E as <- <-.
  exists r1, r2, w1', w2', t. repeat split; try assumption.
  apply since_app. exact T.
Qed.
End Gate.

(** ** HMAC signatures *)

Section HmacProps.

Lemma to_hex_digest_nonempty (h : Node.State) :
  truthy_str (Some (Node.to_hex (Node.digest h))) = true.
Proof. reflexivity. Qed.

Lemma sha256_digest (msg : Node.Buffer) : exists h, Node.sha256 msg = Node.digest h.
Proof. unfold Node.sha256. eexists. reflexivity. Qed.

Lemma generateHMAC_truthy (payload : JsonValue) (secret : string) :
  truthy_str (Some (Hmac.generateHMAC payload secret)) = true.
Proof.
  unfold Hmac.generateHMAC, Node.hmac_sha256.
  destruct (sha256_digest (List.map (Z.lxor 92) (Node.hmac_key (Node.Buffer_from secret)) ++
                           Node.sha256 (List.map (Z.lxor 54) (Node.hmac_key (Node.Buffer_from secret)) ++
                                        Node.Buffer_from (Node.JSON_stringify payload))))
    as [h ->].
  apply to_hex_digest_nonempty.
Qed.

Lemma payloadBuffer_object (payload : JsonValue) :
  typeof payload = "object" ->
  Hmac.payloadBuffer (Hmac.PValue payload) = Node.Buffer_from (Node.JSON_stringify payload).
Proof. destruct payload; simpl; intros H; try reflexivity; discriminate. Qed.

(** C10. HMAC round trip: for a payload that is an object (a JSON object,
    array or [null], by [typeof]) and a non-empty secret, [validateHMAC]
    accepts the signature that [generateHMAC] computes; and [validateHMAC]
    returns [false], without throwing, when the signature or the secret is
    empty. *)
Theorem hmac_round_trip (payload : JsonValue) (secret : string) :
  typeof payload = "object" ->
  secret <> "" ->
  Hmac.validateHMAC (Hmac.PValue payload) (Hmac.generateHMAC payload secret) secret
    = Normal true
  /\ (forall (p : Hmac.Payload) (signature secret' : string),
        signature = "" \/ secret' = "" ->
        Hmac.validateHMAC p signature secret' = Normal false).
Proof.
  intros Hobj Hsecret. split.
  - unfold Hmac.validateHMAC. rewrite generateHMAC_truthy.
    assert (Hs : truthy_str (Some secret) = true).
    { simpl. destruct (String.eqb_spec secret ""); [contradiction|reflexivity]. }
    rewrite Hs. cbn [negb orb]. rewrite (payloadBuffer_object payload Hobj).
    fold (Hmac.generateHMAC payload secret).
    unfold Hmac.or_false, Node.timingSafeEqual.
    rewrite Nat.eqb_refl. cbn [negb].
    rewrite bool_decide_eq_true_2 by reflexivity. reflexivity.
  - intros p signature secret' [-> | ->]; unfold Hmac.validateHMAC.
    + reflexivity.
    + destruct (negb (truthy_str (Some signature))); reflexivity.
Qed.
End HmacProps.

(** ** Handlers in flight together *)

Section Handlers.
Import Model Facts.
Variable env : Env.

Lemma run_andThen {A B} (t : Tasks.Task A) (k : completion A -> Tasks.Task B) (w : World) :
  Tasks.run env (Tasks.andThen t k) w
  = let (c, w') := Tasks.run env t w in Tasks.run env (k c) w'.
Proof.
  revert w. induction t as [c|C c k' IH]; intros w; simpl; [reflexivity|].
  destruct (Tasks.perform env c w) as [r w1]. apply IH.
Qed.

Lemma run_await {A B} (c : Tasks.Call B) (k : B -> Tasks.Task A) (w : World) :
  Tasks.run env (Tasks.await c k) w
  = bind (Tasks.perform env c) (fun b => Tasks.run env (k b)) w.
Proof.
  unfold Tasks.await, bind. simpl.
  destruct (Tasks.perform env c w) as [[b|e] w1]; reflexivity.
Qed.

Ltac serve_call x :=
  lazymatch x with
  | Mongoose.findOne _ _ => destruct x as [[?|?] ?]
  | Repository.createEvent _ _ _ => destruct x as [[?|?] ?]
  | Repository.incrementEventAttempts _ _ _ => destruct x as [[?|?] ?]
  | Repository.markEventRouted _ _ _ => destruct x as [[?|?] ?]
  | Repository.markEventFailed _ _ _ _ => destruct x as [[?|?] ?]
  | Service.simulateRoutingService _ _ _ _ => destruct x as [[?|?] ?]
  | new_Date _ _ => destruct x as [[?|?] ?]
  | EventQueue.addToDLQ _ _ => destruct x as [[?|?] ?]
  end.

Ltac serve :=
  repeat (cbn [Tasks.run Tasks.perform Tasks.andThen negb]; unfold bind;
          match goal with
          | |- ?x = ?x => reflexivity
          | |- context [if ?b then _ else _] => destruct b
          | |- context [let (_, _) := ?x in _] => serve_call x
          | |- context [match ?x with (_, _) => _ end] => serve_call x
          end).

(** Run on its own, a handler does what the code run in one piece does. *)
Lemma run_processEvent (d : JobData.EventJobData) (n : Z) (w : World) :
  Tasks.run env (Tasks.processEvent d n) w = Service.processEvent env d n w.
Proof.
  unfold Tasks.processEvent, Service.processEvent, Repository.eventExists,
    Repository.getEventById, Tasks.await, bind, ret, try_catch, throw.
  serve; reflexivity.
Qed.

Lemma run_on_failed (job : option (Bull.Job JobData.EventJobData)) (err : JsError) (w : World) :
  Tasks.run env (Tasks.on_failed job err) w = Worker.on_failed env job err w.
Proof.
  unfold Tasks.on_failed, Worker.on_failed, Service.handleFinalFailure, Tasks.await,
    bind, ret.
  destruct job as [job|]; [|reflexivity]. serve;
    repeat match goal with u : unit |- _ => destruct u end; reflexivity.
Qed.

Lemma run_runJob (fuel : nat) :
  forall (job : Bull.Job JobData.EventJobData) (w : World),
  Tasks.run env (Tasks.runJob fuel job) w = Worker.runJob fuel env job w.
Proof.
  induction fuel as [|fuel IH]; intros job w; [reflexivity|].
  cbn [Tasks.runJob Worker.runJob]. rewrite run_await. cbn [Tasks.perform].
  unfold bind at 1 2.
  destruct (Worker.eventQueue_put (Bull.set_state Bull.active job) w) as [[[]|e] w1] eqn:E0;
    [|discriminate E0].
  rewrite run_andThen, run_processEvent.
  unfold bind at 1, Worker.settle at 1, Worker.processor, bind at 1.
  destruct (Service.processEvent env (Bull.data job) (Bull.attemptsMade job) w1)
    as [[r|err] w2].
  - unfold ret at 1. rewrite run_await. reflexivity.
  - unfold Worker.handleFailed. cbv zeta.
    destruct (Z.ltb _ _).
    + rewrite run_await. cbn [Tasks.perform]. unfold bind at 1 2 3 4.
      destruct (Worker.eventQueue_put _ w2) as [[[]|e] w3] eqn:E1; [|discriminate E1].
      unfold emit at 1 2. rewrite run_andThen, run_on_failed.
      unfold bind at 1, Worker.settle at 1.
      destruct (Worker.on_failed env _ err _) as [c w4]. apply IH.
    + rewrite run_await. cbn [Tasks.perform]. unfold bind at 1 2.
      destruct (Worker.eventQueue_put _ w2) as [[[]|e] w3] eqn:E1; [|discriminate E1].
      rewrite run_andThen, run_on_failed.
      unfold bind at 1, Worker.settle at 1.
      destruct (Worker.on_failed env _ err _) as [c w4]. reflexivity.
Qed.

Lemma createEvent_ledger (d : JobData.EventJobData) (w : World) :
  ledger_change (ledger w) (ledger (snd (Repository.createEvent env d w))).
Proof.
  destruct (Obs.valid d) eqn:Hv.
  - destruct (Obs.rows (JobData.eventId d) (ledger w)) as [|k] eqn:Hr.
    + destruct (createEvent_fresh env d w Hv Hr) as (w' & e & E & L & Hi & Hs & _).
      rewrite E. simpl. rewrite L. apply change_insert; [|exact Hs].
      rewrite Hi. unfold Obs.row, Obs.rows in *.
      destruct (List.find _ _) as [x|] eqn:F; [|reflexivity].
      apply List.find_some in F as [Hin Hm].
      assert (Hx : In x (List.filter (Mongoose.matches (JobData.eventId d)) (ledger w)))
        by (apply List.filter_In; auto).
      destruct (List.filter _ _); [destruct Hx|discriminate].
    + destruct (createEvent_duplicate env d w Hv) as (w' & E & L & _); [lia|].
      rewrite E. simpl. rewrite L. apply change_none.
  - destruct (createEvent_invalid env d w Hv) as (err & w' & E & L & _).
    rewrite E. simpl. rewrite L. apply change_none.
Qed.

Lemma perform_ledger {B} (c : Tasks.Call B) (w : World) :
  ledger_change (ledger w) (ledger (snd (Tasks.perform env c w))).
Proof.
  destruct c; cbn [Tasks.perform]; try apply createEvent_ledger.
  - apply change_none.
  - unfold Repository.incrementEventAttempts, Mongoose.findOneAndUpdate, bind, emit, new_Date.
    simpl. destruct (Mongoose.update_first _ _ _) as [o l'] eqn:U. simpl.
    replace l' with (snd (Mongoose.update_first i
                            (Repository.incrementUpdate (Date_now env (clockReads w)))
                            (ledger w))) by (rewrite U; reflexivity).
    apply change_update; intros; [unfold keeps; simpl; repeat split; lia|left; reflexivity].
  - unfold Service.simulateRoutingService, bind, emit, random, throw, ret. simpl.
    destruct (negb _); apply change_none.
  - unfold Repository.markEventRouted, Mongoose.findOneAndUpdate, bind, emit, new_Date.
    simpl. destruct (Mongoose.update_first _ _ _) as [o l'] eqn:U. simpl.
    replace l' with (snd (Mongoose.update_first i
                            (Repository.routedUpdate (Date_now env (clockReads w))
                               (Date_now env (S (clockReads w))))
                            (ledger w))) by (rewrite U; reflexivity).
    apply change_update; intros;
      [unfold keeps; simpl; repeat split; lia|right; left; reflexivity].
  - unfold Repository.markEventFailed, Mongoose.findOneAndUpdate, bind, emit, new_Date.
    simpl. destruct (Mongoose.update_first _ _ _) as [o l'] eqn:U. simpl.
    replace l' with (snd (Mongoose.update_first i
                            (Repository.failedUpdate err (Date_now env (clockReads w)))
                            (ledger w))) by (rewrite U; reflexivity).
    apply change_update; intros;
      [unfold keeps; simpl; repeat split; lia|right; right; reflexivity].
  - unfold EventQueue.addToDLQ, EventQueue.deadLetterQueue_add, Bull.add, bind, emit,
      new_Date, ret. simpl. apply change_none.
  - apply change_none.
  - apply change_none.
Qed.

Lemma row_app_old (i : string) (l l2 : list IEvent) (x : IEvent) :
  Obs.row i l = Some x -> Obs.row i (l ++ l2) = Some x.
Proof.
  unfold Obs.row. induction l as [|y l IH]; simpl; [discriminate|].
  destruct (Mongoose.matches i y); [trivial|exact IH].
Qed.

(** Whatever a call does to the ledger, a row stays, and a row that is
    [ROUTED] or [FAILED] stays one of the two. *)
Lemma ledger_change_terminal (l l' : list IEvent) (i : string) :
  ledger_change l l' ->
  (is_Some (Obs.row i l) -> is_Some (Obs.row i l'))
  /\ (terminal (status <$> Obs.row i l) = true -> terminal (status <$> Obs.row i l') = true).
Proof.
  intros [|e Hn Hs|j f Hk Hst].
  - auto.
  - destruct (Obs.row i l) as [x|] eqn:Hr.
    + rewrite (row_app_old i l [e] x Hr). auto.
    + split; [intros [? H]|]; discriminate.
  - assert (Hid : forall e, eventId (f e) = eventId e) by (intros e; apply (Hk e)).
    destruct (decide (j = i)) as [->|Hij].
    + rewrite update_first_row by exact Hid.
      destruct (Obs.row i l) as [x|]; simpl; [|auto].
      split; [eauto|]. destruct (Hst x) as [->|[->| ->]]; auto.
    + rewrite update_first_other by assumption. auto.
Qed.

Lemma act_ledger (a : Tasks.Action) (pool : list Tasks.Handler) (w : World) :
  ledger_change (ledger w) (ledger (snd (Tasks.act env (pool, w) a))).
Proof.
  destruct a as [req| |fuel n|n]; simpl.
  - destruct (ingestEvent_cases env req w) as (r & w1 & t & E & L & _).
    rewrite E. simpl. rewrite L. apply change_none.
  - destruct (replayLoop_run
                (Bull.getJobs [Bull.waiting; Bull.delayed] (deadLetterQueue w)) 0
                (snd (emit (QueueGetJobs EventQueue.DLQ_NAME) w)))
      as (w1 & t & E & L & _).
    unfold EventQueue.replayDLQJobs, EventQueue.deadLetterQueue_getJobs, bind at 1, bind at 1.
    simpl in *. rewrite E. simpl. rewrite L. apply change_none.
  - destruct (_ !! n); apply change_none.
  - destruct (pool !! n) as [[c|B c k]|]; try apply change_none.
    pose proof (perform_ledger c w) as H.
    destruct (Tasks.perform env c w) as [r w']. exact H.
Qed.

Lemma exec_app (a1 a2 : list Tasks.Action) (s : list Tasks.Handler * World) :
  Tasks.exec env (a1 ++ a2) s = Tasks.exec env a2 (Tasks.exec env a1 s).
Proof. apply List.fold_left_app. Qed.

Lemma exec_terminal (actions : list Tasks.Action) :
  forall (s : list Tasks.Handler * World) (i : string),
  (is_Some (Obs.statusOf i (snd s))
   -> is_Some (Obs.statusOf i (snd (Tasks.exec env actions s))))
  /\ (terminal (Obs.statusOf i (snd s)) = true
      -> terminal (Obs.statusOf i (snd (Tasks.exec env actions s))) = true).
Proof.
  induction actions as [|a actions IH]; intros [pool w] i; [simpl; auto|].
  simpl. destruct (IH (Tasks.act env (pool, w) a) i) as [IH1 IH2].
  destruct (ledger_change_terminal _ _ i (act_ledger a pool w)) as [H1 H2].
  unfold Obs.statusOf in *. rewrite !fmap_is_Some in *. simpl in *. auto.
Qed.

Lemma act_resume {B} (c : Tasks.Call B) (k : completion B -> Tasks.Task Worker.JobOutcome)
    (pool rest : list Tasks.Handler) (w : World) :
  Tasks.act env (pool ++ Tasks.Await c k :: rest, w) (Tasks.Resume (length pool))
  = (pool ++ k (fst (Tasks.perform env c w)) :: rest, snd (Tasks.perform env c w)).
Proof.
  unfold Tasks.act. rewrite list_lookup_middle by reflexivity.
  destruct (Tasks.perform env c w) as [r w1]. simpl.
  rewrite insert_app_r_alt by (apply Nat.le_refl). rewrite Nat.sub_diag. reflexivity.
Qed.

(** A handler in flight that is resumed until it has settled does what
    it does when run on its own. *)
Lemma exec_resume (t : Tasks.Task Worker.JobOutcome) :
  forall (pool rest : list Tasks.Handler) (w : World),
  exists k,
    Tasks.exec env (repeat (Tasks.Resume (length pool)) k) (pool ++ t :: rest, w)
    = (pool ++ Tasks.Done (fst (Tasks.run env t w)) :: rest, snd (Tasks.run env t w)).
Proof.
  induction t as [c|B c k IH]; intros pool rest w.
  - exists 0%nat. reflexivity.
  - simpl. destruct (Tasks.perform env c w) as [r w1] eqn:E.
    destruct (IH r pool rest w1) as [n Hn]. exists (S n).
    cbn [repeat Tasks.exec List.fold_left]. rewrite act_resume, E. exact Hn.
Qed.

Lemma step_exec (w w' : World) (pool : list Tasks.Handler) :
  Obs.Step env w w' ->
  exists actions pool', Tasks.exec env actions (pool, w) = (pool', w').
Proof.
  intros [req| |fuel job Hin].
  - exists [Tasks.Ingest req], pool. reflexivity.
  - exists [Tasks.Replay], pool. reflexivity.
  - apply list_elem_of_In, list_elem_of_lookup_1 in Hin as [n Hn].
    destruct (exec_resume (Tasks.runJob fuel job) pool [] w) as [k Hk].
    exists (Tasks.Take fuel n :: repeat (Tasks.Resume (length pool)) k). eexists.
    assert (Ht : Tasks.act env (pool, w) (Tasks.Take fuel n)
                 = (pool ++ [Tasks.runJob fuel job], w))
      by (simpl; rewrite Hn; reflexivity).
    unfold Tasks.exec in *. cbn [List.fold_left]. rewrite Ht.
    rewrite run_runJob in Hk. exact Hk.
Qed.

(** The runs in which the operations follow one another are among the
    runs of the system. *)
Lemma steps_exec (w w' : World) :
  rtc (Obs.Step env) w w' ->
  forall pool, exists actions pool', Tasks.exec env actions (pool, w) = (pool', w').
Proof.
  induction 1 as [w|w w1 w2 Hstep _ IH]; intros pool.
  - exists [], pool. reflexivity.
  - destruct (step_exec w w1 pool Hstep) as (a1 & pool1 & E1).
    destruct (IH pool1) as (a2 & pool2 & E2).
    exists (a1 ++ a2), pool2. rewrite exec_app, E1. exact E2.
Qed.

Lemma act_resume_0 {B} (c : Tasks.Call B) (k : completion B -> Tasks.Handler)
    (rest : list Tasks.Handler) (w : World) :
  Tasks.act env (Tasks.Await c k :: rest, w) (Tasks.Resume 0)
  = (k (fst (Tasks.perform env c w)) :: rest, snd (Tasks.perform env c w)).
Proof. exact (act_resume c k [] rest w). Qed.

Lemma act_resume_1 {B} (c : Tasks.Call B) (k : completion B -> Tasks.Handler)
    (t : Tasks.Handler) (rest : list Tasks.Handler) (w : World) :
  Tasks.act env (t :: Tasks.Await c k :: rest, w) (Tasks.Resume 1)
  = (t :: k (fst (Tasks.perform env c w)) :: rest, snd (Tasks.perform env c w)).
Proof. exact (act_resume c k [t] rest w). Qed.

(** Two jobs for one event, in flight together: when the second has
    passed its idempotency check before the first marks the row, both
    call the routing service and both mark the row [ROUTED]. *)
Lemma overlap_routes_twice (jobA jobB : Bull.Job JobData.EventJobData) (w : World)
    (i : string) (e : IEvent) (fa fb : nat) :
  JobData.eventId (Bull.data jobA) = i -> JobData.eventId (Bull.data jobB) = i ->
  Obs.row i (ledger w) = Some e -> status e <> ROUTED ->
  Obs.routing_fails env (randomDraws w) = false ->
  Obs.routing_fails env (S (randomDraws w)) = false ->
  exists w',
    Tasks.exec env (List.map Tasks.Resume Tasks.second_checks_before_first_marks)
      ([Tasks.runJob (S fa) jobA; Tasks.runJob (S fb) jobB], w)
    = ([Tasks.Done (Normal Worker.JobCompleted); Tasks.Done (Normal Worker.JobCompleted)], w')
    /\ Obs.since w w'
       = [LedgerFind i; LedgerFind i; LedgerFind i; LedgerFind i;
          LedgerUpdate i None; RouteCall i (ROUTING_DELAY_MS env);
          LedgerUpdate i (Some ROUTED);
          LedgerUpdate i None; RouteCall i (ROUTING_DELAY_MS env);
          LedgerUpdate i (Some ROUTED)].
Proof.
  intros Ha Hb Hr Hs Hf1 Hf2. destruct w as [l q dq c r u t].
  unfold Obs.row, Obs.routing_fails in *. simpl in Hr, Hf1, Hf2.
  apply negb_false_iff in Hf1, Hf2.
  assert (Hst : bool_decide (status <$> Some e = Some ROUTED) = false)
    by (apply bool_decide_eq_false_2; simpl; congruence).
  unfold Tasks.exec, Tasks.second_checks_before_first_marks.
  cbn [List.map List.fold_left Tasks.runJob].
  unfold Tasks.processEvent. rewrite Ha, Hb.
  repeat (simpl;
          unfold Repository.incrementEventAttempts, Repository.markEventRouted,
            Mongoose.findOneAndUpdate, Service.simulateRoutingService, bind, emit,
            new_Date, random, ret, throw;
          simpl; rewrite ?Hr, ?Hst, ?Hf1, ?Hf2;
          try match goal with
              | |- context [Mongoose.update_first ?a ?b ?c] =>
                  destruct (Mongoose.update_first a b c) as [? ?]
              end).
  eexists. split; [reflexivity|].
  apply since_app. simpl. rewrite <- !List.app_assoc. reflexivity.
Qed.
End Handlers.

(** ** Status order *)

Section Monotone.
Import Model Facts.
Variable env : Env.

Lemma rank_le_3 (s : option EventStatus) : (Obs.rank s <= 3)%nat.
Proof. destruct s as [[]|]; simpl; lia. Qed.

Lemma rank_3 (s : option EventStatus) : (3 <= Obs.rank s)%nat -> s = Some ROUTED.
Proof. destruct s as [[]|]; simpl; intros; try lia; reflexivity. Qed.

Lemma attempt_monotone (i : string) (w w' : World) (c : completion Service.ProcessResult) :
  Obs.attempt i w w' c ->
  forall j, (Obs.rank (Obs.statusOf j w) <= Obs.rank (Obs.statusOf j w'))%nat.
Proof.
  intros A j. destruct A as [Hs Hl|Hs Hs' Ho|Hs Hs' Ho|err Hs Hl].
  - unfold Obs.statusOf. rewrite Hl. lia.
  - destruct (decide (i = j)) as [<-|Hij].
    + rewrite Hs'. apply rank_le_3.
    + rewrite (Ho j Hij). lia.
  - destruct (decide (i = j)) as [<-|Hij].
    + rewrite Hs'. destruct (Obs.statusOf i w) as [[]|]; simpl; lia.
    + rewrite (Ho j Hij). lia.
  - unfold Obs.statusOf. rewrite Hl. lia.
Qed.

Lemma attempt_failed_status (i : string) (w w' : World) (e : JsError) :
  Obs.attempt i w w' (Throw e) -> Obs.statusOf i w' <> Some ROUTED.
Proof.
  intros A. inversion A as [| |Hs Hs' Ho|err Hs Hl]; subst.
  - rewrite Hs'. destruct (Obs.statusOf i w) as [[]|]; simpl; congruence.
  - unfold Obs.statusOf in *. rewrite Hl, Hs. discriminate.
Qed.

Lemma on_failed_monotone (job : Bull.Job JobData.EventJobData) (err : JsError) (w : World) :
  Obs.statusOf (JobData.eventId (Bull.data job)) w <> Some ROUTED ->
  exists w', Worker.on_failed env (Some job) err w = (Normal (), w')
    /\ forall j, (Obs.rank (Obs.statusOf j w) <= Obs.rank (Obs.statusOf j w'))%nat.
Proof.
  intros Hs.
  destruct (Z.le_gt_cases (Worker.maxAttempts job) (Bull.attemptsMade job)) as [Hle|Hgt].
  - destruct (on_failed_final env job err w Hle) as (w' & E & L & _).
    exists w'. split; [exact E|]. intros j.
    apply statusOf_update in L as [L1 L2]; [|intros; reflexivity].
    destruct (decide (JobData.eventId (Bull.data job) = j)) as [<-|Hij].
    + rewrite L1. unfold Obs.statusOf in *.
      destruct (Obs.row _ (ledger w)) as [e|]; simpl in *; [|lia].
      destruct (status e); simpl; try lia; congruence.
    + rewrite (L2 j Hij). lia.
  - exists w. split; [apply on_failed_retry; lia|]. intros; lia.
Qed.

Lemma runJob_monotone (fuel : nat) :
  forall (job : Bull.Job JobData.EventJobData) (w : World) (j : string),
  (Obs.rank (Obs.statusOf j w)
   <= Obs.rank (Obs.statusOf j (snd (Worker.runJob fuel env job w))))%nat.
Proof.
  induction fuel as [|fuel IH]; intros job w j; [simpl; lia|].
  destruct (runJob_attempt env fuel job w) as (c & w1 & A & _ & _ & R).
  rewrite R. clear R. pose proof (attempt_monotone _ _ _ _ A j) as Hm.
  destruct c as [r|err]; [exact Hm|].
  pose proof (attempt_failed_status _ _ _ _ A) as Hs.
  unfold Worker.handleFailed. cbv zeta.
  set (job' := Bull.set_attemptsMade (Bull.attemptsMade job + 1) job).
  destruct (Z.ltb _ _).
  - unfold bind at 1, Worker.eventQueue_put at 1. unfold bind at 1, emit at 1.
    match goal with |- context [bind _ _ ?x] => set (w3 := x) end.
    destruct (on_failed_monotone job' err w3) as (w4 & E4 & M4); [exact Hs|].
    unfold bind at 1, Worker.settle. rewrite E4.
    specialize (IH job' w4 j). specialize (M4 j).
    change (Obs.statusOf j w3) with (Obs.statusOf j w1) in M4. lia.
  - unfold bind at 1, Worker.eventQueue_put at 1.
    match goal with |- context [bind _ _ ?x] => set (w3 := x) end.
    destruct (on_failed_monotone job' err w3) as (w4 & E4 & M4); [exact Hs|].
    unfold bind at 1, Worker.settle. rewrite E4. simpl.
    specialize (M4 j). change (Obs.statusOf j w3) with (Obs.statusOf j w1) in M4. lia.
Qed.

Lemma step_monotone (w w' : World) :
  Obs.Step env w w' ->
  forall j, (Obs.rank (Obs.statusOf j w) <= Obs.rank (Obs.statusOf j w'))%nat.
Proof.
  intros [req| |fuel job Hin] j.
  - destruct (ingestEvent_cases env req w) as (r & w1 & t & E & L & _).
    rewrite E. unfold Obs.statusOf. simpl. rewrite L. lia.
  - destruct (replayLoop_run
                (Bull.getJobs [Bull.waiting; Bull.delayed] (deadLetterQueue w)) 0
                (snd (emit (QueueGetJobs EventQueue.DLQ_NAME) w)))
      as (w1 & t & E & L & _).
    unfold EventQueue.replayDLQJobs, EventQueue.deadLetterQueue_getJobs, bind at 1, bind at 1.
    simpl in *. rewrite E. unfold Obs.statusOf. simpl. rewrite L. lia.
  - apply runJob_monotone.
Qed.

(** C5, as the code has it. In every run of the system, with the handlers
    of the jobs in flight resumed in any order, a row that is [ROUTED] or
    [FAILED] stays [ROUTED] or [FAILED]: no operation moves it back to
    [ROUTING_PENDING]. When the operations (ingestion, replay, a job taken
    through its attempts and its ['failed'] listener) follow one another,
    the status of every [eventId] stays or moves up in the order
    ROUTING_PENDING < FAILED < ROUTED, so a [ROUTED] row stays [ROUTED].
    [FAILED] is not terminal: an attempt on a [FAILED] row whose routing
    call succeeds leaves the row [ROUTED]. *)
Theorem status_monotone (w w' : World) (i : string) :
  ((exists actions pool pool', Tasks.exec env actions (pool, w) = (pool', w')) ->
   terminal (Obs.statusOf i w) = true -> terminal (Obs.statusOf i w') = true)
  /\ (rtc (Obs.Step env) w w' ->
      (Obs.rank (Obs.statusOf i w) <= Obs.rank (Obs.statusOf i w'))%nat
      /\ (Obs.statusOf i w = Some ROUTED -> Obs.statusOf i w' = Some ROUTED))
  /\ (forall (d : JobData.EventJobData) (n : Z),
        JobData.eventId d = i ->
        Obs.statusOf i w = Some FAILED ->
        Obs.routing_fails env (randomDraws w) = false ->
        Obs.statusOf i (snd (Service.processEvent env d n w)) = Some ROUTED).
Proof.
  split; [|split].
  - intros (actions & pool & pool' & E).
    pose proof (exec_terminal env actions (pool, w) i) as [_ H].
    rewrite E in H. exact H.
  - intros Hsteps.
    assert (Hm : (Obs.rank (Obs.statusOf i w) <= Obs.rank (Obs.statusOf i w'))%nat).
    { induction Hsteps as [w|w w1 w2 Hstep _ IH]; [lia|].
      pose proof (step_monotone w w1 Hstep i). lia. }
    split; [exact Hm|].
    intros Hr. rewrite Hr in Hm. apply rank_3. exact Hm.
  - intros d n <- Hs Hf. unfold Obs.statusOf in *.
    destruct (Obs.row (JobData.eventId d) (ledger w)) as [e|] eqn:Hr; [|discriminate].
    assert (He : status e <> ROUTED) by (simpl in Hs; congruence).
    destruct (processEvent_existing_ok env d n w e Hr He Hf) as (w1 & E & L & _).
    rewrite E. simpl. rewrite L, !update_first_row by (intros; reflexivity).
    rewrite Hr. reflexivity.
Qed.
End Monotone.

(** ** Failed attempts *)

Section FailedAttempt.
Import Model.
Variable env : Env.

(** C7, as the code has it. When the routing call of an attempt fails,
    [processEvent] throws the routing error and sets no status: the row
    keeps the status it had, [ROUTING_PENDING] or, for an event being
    processed again after a replay, [FAILED]. An existing row changes in
    [attempts] and [updatedAt] only; a missing row is first created, as
    [ROUTING_PENDING], from data that passes the validators of the
    schema. The rows of other events are untouched. *)
Theorem routing_failure_keeps_status
    (d : JobData.EventJobData) (n : Z) (w : World) :
  Obs.statusOf (JobData.eventId d) w <> Some ROUTED ->
  Obs.processable d w ->
  Obs.routing_fails env (randomDraws w) = true ->
  exists w',
    Service.processEvent env d n w = (Throw Service.routingError, w')
    /\ Obs.statusOf (JobData.eventId d) w'
       = Some (default ROUTING_PENDING (Obs.statusOf (JobData.eventId d) w))
    /\ List.filter Obs.is_status_update (Obs.since w w') = []
    /\ (forall j, JobData.eventId d <> j -> Obs.row j (ledger w') = Obs.row j (ledger w))
    /\ match Obs.row (JobData.eventId d) (ledger w) with
       | Some e =>
           ledger w' = snd (Mongoose.update_first (JobData.eventId d)
                              (fun e => Mongoose.set_updatedAt (Date_now env (clockReads w))
                                          (Mongoose.set_attempts (attempts e + 1) e))
                              (ledger w))
           /\ Obs.row (JobData.eventId d) (ledger w')
              = Some (Mongoose.set_updatedAt (Date_now env (clockReads w))
                        (Mongoose.set_attempts (attempts e + 1) e))
       | None =>
           ledger w' = ledger w ++
             [mkEvent (JobData.eventId d) (JobData.type d) (JobData.payload d)
                ROUTING_PENDING (JobData.correlationId d) 1 None None
                (Date_now env (clockReads w)) (Date_now env (S (clockReads w)))]
       end.
Proof.
  intros Hs Hp Hf. unfold Obs.processable, Obs.statusOf in *.
  destruct (Obs.row (JobData.eventId d) (ledger w)) as [e|] eqn:Hr.
  - assert (He : status e <> ROUTED) by (simpl in Hs; congruence).
    destruct (processEvent_existing_fail env d n w e Hr He Hf) as (w' & E & L & _ & _ & T & _).
    exists w'. split; [exact E|].
    assert (Hrow : Obs.row (JobData.eventId d) (ledger w')
                   = Some (Repository.incrementUpdate (Date_now env (clockReads w)) e))
      by (rewrite L, update_first_row by (intros; reflexivity); rewrite Hr; reflexivity).
    split; [rewrite Hrow; reflexivity|].
    split; [rewrite (since_app w w' _ T); reflexivity|].
    split; [intros j Hj; rewrite L; apply update_first_other; [intros; reflexivity|exact Hj]|].
    split; [exact L|exact Hrow].
  - destruct (processEvent_new_fail env d n w Hr (Hp eq_refl) Hf) as (w' & E & L & _ & _ & T & _).
    exists w'. split; [exact E|].
    split; [rewrite L, row_app_fresh by (auto; reflexivity); reflexivity|].
    split; [rewrite (since_app w w' _ T); reflexivity|].
    split; [intros j Hj; rewrite L; apply row_app_other; exact Hj|].
    exact L.
Qed.
End FailedAttempt.


(** ** Retry policy *)

Section Backoff.
Variable env : Env.




End Backoff.

(** ** The properties on sample data *)

Section Samples.
Import Model Sample Cases Facts.

Ltac calc :=
  first [ reflexivity | discriminate | vm_compute; lia
        | unfold job1, world; simpl; lia ].

(** The hash functions agree with the published test vectors (FIPS 180-4,
    RFC 4231) and with the signature of the body used in hmac.test.ts. *)
Example sha256_abc :
  Node.to_hex (Node.sha256 (Node.Buffer_from "abc"))
  = "ba7816bf8f01cfea414140de5dae2223b00361a396177a9cb410ff61f20015ad".
Proof. vm_compute. reflexivity. Qed.

Example hmac_sha256_rfc4231_2 :
  Node.to_hex (Node.hmac_sha256 (Node.Buffer_from "Jefe")
                 (Node.Buffer_from "what do ya want for nothing?"))
  = "5bdcc146bf60754e6a042426089575c75a003f089d2739839dec58b964ec3843".
Proof. vm_compute. reflexivity. Qed.

Example generateHMAC_test_payload :
  Hmac.generateHMAC test_payload "test-secret-key"
  = "fb2d7361d30d4192230fe26bf73022b053911e50838a3610e0f5910434f5b5c7".
Proof. vm_compute. reflexivity. Qed.

Example validateHMAC_short_signature :
  Hmac.validateHMAC (Hmac.PValue test_payload)
    "fb2d7361d30d4192230fe26bf73022b0" "test-secret-key" = Normal false.
Proof. vm_compute. reflexivity. Qed.

Example ingestEvent_accepts_request1 :
  fst (Controller.ingestEvent env_ok request1 (world []))
  = Normal (Controller.mkResponse 202
              (Controller.AcceptedBody true "e1" "3f0c7a52-uuid"
                 "Event queued for processing" 1)).
Proof. vm_compute. reflexivity. Qed.

(** A job whose attempts all fail is retried after 1, 2, 4 and 8 seconds
    and ends [FAILED]; once replayed from the dead-letter queue and
    routed, its row is [ROUTED]. *)
Example exhausted_then_replayed :
  let w1 := snd (Worker.runJob 5 env_fail job1 (world [])) in
  let w2 := snd (EventQueue.replayDLQJobs w1) in
  let w3 := snd (Worker.runJob 5 env_ok (List.last (Bull.jobs (eventQueue w2)) job1) w2) in
  Obs.statusOf "e1" w1 = Some FAILED
  /\ List.filter Obs.is_retry (trace w1)
     = [RetryScheduled (Bull.CustomId "e1") 1000; RetryScheduled (Bull.CustomId "e1") 2000;
        RetryScheduled (Bull.CustomId "e1") 4000; RetryScheduled (Bull.CustomId "e1") 8000]
  /\ List.map Bull.name (Bull.jobs (eventQueue w2)) = ["process-event"; "retry"; "retry"]
  /\ Bull.jobs (deadLetterQueue w2) = []
  /\ Obs.statusOf "e1" w3 = Some ROUTED.
Proof. vm_compute. repeat split. Qed.

Lemma createEvent_idempotent_witness :
  (Obs.rows "e1" (ledger (world [])) <= 1)%nat
  /\ Obs.rows "e1" (ledger (snd (Obs.createEvents env_ok [data1; data1; data1] (world [])))) = 1%nat.
Proof.
  split; [calc|].
  destruct (createEvent_idempotent env_ok "e1" data1 [data1; data1] (world []))
    as (r & w' & E & Hrows & _);
    [reflexivity|repeat constructor|repeat constructor|calc|].
  rewrite E. exact Hrows.
Defined.

Lemma processEvent_routed_skip_witness :
  Obs.row "e1" (ledger (world [row1 ROUTED])) = Some (row1 ROUTED)
  /\ status (row1 ROUTED) = ROUTED
  /\ ledger (snd (Service.processEvent env_fail data1 0 (world [row1 ROUTED])))
     = [row1 ROUTED].
Proof.
  split; [reflexivity|]. split; [reflexivity|].
  destruct (processEvent_routed_skip env_fail data1 0 (world [row1 ROUTED]) (row1 ROUTED))
    as (w' & E & L & _); [reflexivity|reflexivity|].
  rewrite E. exact L.
Defined.


Lemma exhausted_job_dead_letters_once_witness :
  (forall m, Obs.routing_fails env_fail m = true)
  /\ Obs.statusOf "e1" (snd (Worker.runJob 5 env_fail job1 (world []))) = Some FAILED.
Proof.
  split; [intros m; reflexivity|].
  destruct (exhausted_job_dead_letters_once env_fail job1 (world []) 5)
    as (w' & failedAt & E & _ & _ & _ & _ & S);
    [calc|reflexivity|intros m; reflexivity|discriminate|intros _; reflexivity|calc|].
  rewrite E. exact S.
Defined.

Lemma status_monotone_witness :
  terminal (Obs.statusOf "e1" world_replayable) = true
  /\ terminal (Obs.statusOf "e1"
                 (snd (Tasks.exec env_late (run_to_routed ++ listener_runs)
                         ([], world_replayable)))) = true
  /\ Obs.statusOf "e1" (snd (Worker.runJob 5 env_ok job1 (world [row1 ROUTED])))
     = Some ROUTED
  /\ Obs.statusOf "e1" (snd (Service.processEvent env_ok data1 0 (world [row1 FAILED])))
     = Some ROUTED.
Proof.
  split; [reflexivity|]. split; [|split].
  - destruct (status_monotone env_late world_replayable
                (snd (Tasks.exec env_late (run_to_routed ++ listener_runs)
                        ([], world_replayable))) "e1") as [H _].
    apply H; [|reflexivity].
    exists (run_to_routed ++ listener_runs), [].
    eexists. apply surjective_pairing.
  - destruct (status_monotone env_ok (world [row1 ROUTED])
                (snd (Worker.runJob 5 env_ok job1 (world [row1 ROUTED]))) "e1")
      as (_ & H & _).
    destruct H as [_ H]; [|apply H; reflexivity].
    apply rtc_once. apply Obs.step_job. simpl. left. reflexivity.
  - destruct (status_monotone env_ok (world [row1 FAILED]) (world [row1 FAILED]) "e1")
      as (_ & _ & H).
    apply H; reflexivity.
Defined.

Lemma routing_failure_keeps_status_witness :
  Obs.statusOf "e1" (world [row1 FAILED]) <> Some ROUTED
  /\ Obs.routing_fails env_fail (randomDraws (world [row1 FAILED])) = true
  /\ Obs.statusOf "e1" (snd (Service.processEvent env_fail data1 0 (world [row1 FAILED])))
     = Some FAILED.
Proof.
  split; [discriminate|]. split; [reflexivity|].
  destruct (routing_failure_keeps_status env_fail data1 0 (world [row1 FAILED]))
    as (w' & E & S & _); [discriminate|discriminate|reflexivity|].
  rewrite E. exact S.
Defined.

Lemma ingestEvent_independent_of_routing_witness :
  HMAC_SECRET env_fail = HMAC_SECRET env_ok
  /\ Controller.without_latency
       (match fst (Controller.ingestEvent env_fail request1 (world [])) with
        | Normal r => r
        | Throw _ => Controller.mkResponse 0 (Controller.ErrorBody "" "")
        end)
     = Controller.without_latency
       (match fst (Controller.ingestEvent env_ok request1 (world [row1 ROUTED])) with
        | Normal r => r
        | Throw _ => Controller.mkResponse 0 (Controller.ErrorBody "" "")
        end).
Proof.
  split; [reflexivity|].
  destruct (ingestEvent_independent_of_routing env_fail env_ok request1
              (world []) (world [row1 ROUTED]))
    as (r1 & r2 & w1' & w2' & t1 & E1 & E2 & H & _); [reflexivity|reflexivity|].
  rewrite E1, E2. exact H.
Defined.

Lemma missing_row_is_not_created_witness :
  Obs.row "e1" (ledger (world [])) = None
  /\ ledger (snd (Worker.on_failed env_fail
                    (Some (Bull.set_attemptsMade 5 job1)) Service.routingError (world [])))
     = [].
Proof.
  split; [reflexivity|].
  destruct (missing_row_is_not_created env_fail "e1" (world [])) as (_ & _ & _ & H);
    [reflexivity|].
  destruct (H (Bull.set_attemptsMade 5 job1) Service.routingError)
    as (w3 & failedAt & E & L & _); [reflexivity|calc|].
  rewrite E. exact L.
Defined.

Lemma hmac_round_trip_witness :
  typeof test_payload = "object"
  /\ "test-secret-key" <> ""
  /\ Hmac.validateHMAC (Hmac.PValue test_payload)
       (Hmac.generateHMAC test_payload "test-secret-key") "test-secret-key"
     = Normal true.
Proof.
  split; [reflexivity|]. split; [discriminate|].
  apply (hmac_round_trip test_payload "test-secret-key"); [reflexivity|discriminate].
Defined.

(** C5, as stated, fails twice over. A [FAILED] row is moved to [ROUTED]
    by the job that processes the event again and whose routing call
    succeeds. And a [ROUTED] row is moved to [FAILED]: with two jobs for
    one event in flight, the ['failed'] listener of the job whose last
    attempt failed runs after the other job has routed the event, and
    [handleFinalFailure] does not look at the status. *)
Lemma terminal_states_are_left :
  ~ (forall (env : Env) (w w' : World) (j : string),
       Obs.Step env w w' ->
       Obs.statusOf j w = Some FAILED -> Obs.statusOf j w' = Some FAILED)
  /\ ~ (forall (env : Env) (before after : list Tasks.Action) (w : World) (j : string),
          Obs.statusOf j (snd (Tasks.exec env before ([], w))) = Some ROUTED ->
          Obs.statusOf j (snd (Tasks.exec env (before ++ after) ([], w))) = Some ROUTED).
Proof.
  split.
  - intros H.
    specialize (H env_ok (world [row1 FAILED]) _ "e1"
                  (Obs.step_job env_ok (world [row1 FAILED]) 1 job1 (or_introl eq_refl))
                  eq_refl).
    vm_compute in H. discriminate H.
  - intros H.
    specialize (H env_late run_to_routed listener_runs world_replayable "e1").
    vm_compute in H. specialize (H eq_refl). discriminate H.
Qed.

(** C7, as stated, fails: on a [FAILED] row the failed attempt leaves
    [FAILED], not [ROUTING_PENDING]. *)
Lemma failed_attempt_on_failed_row :
  ~ (forall (env : Env) (d : JobData.EventJobData) (n : Z) (w : World),
       Obs.statusOf (JobData.eventId d) w <> Some ROUTED ->
       Obs.routing_fails env (randomDraws w) = true ->
       Obs.statusOf (JobData.eventId d) (snd (Service.processEvent env d n w))
       = Some ROUTING_PENDING).
Proof.
  intros H.
  specialize (H env_fail data1 0 (world [row1 FAILED])).
  assert (H1 : Obs.statusOf (JobData.eventId data1) (world [row1 FAILED]) <> Some ROUTED)
    by discriminate.
  specialize (H H1 eq_refl). vm_compute in H. discriminate H.
Qed.

End Samples.

(** * Further properties *)

(** ** Signatures *)

Section Signatures.
Import Facts.

Lemma hex_value_digit (n : Z) : 0 <= n < 16 -> Node.hex_value (Node.hex_digit n) = Some n.
Proof.
  intros H. rewrite <- (Z2Nat.id n) by lia.
  assert (Hk : (Z.to_nat n < 16)%nat) by lia.
  set (k := Z.to_nat n) in *. clearbody k. clear H.
  do 16 (destruct k as [|k]; [reflexivity|]). lia.
Qed.

Lemma nibbles (x : Z) : 0 <= x < 256 ->
  0 <= Z.shiftr x 4 < 16 /\ 0 <= Z.land x 15 < 16 /\ 16 * Z.shiftr x 4 + Z.land x 15 = x.
Proof.
  intros H. rewrite Z.shiftr_div_pow2 by lia.
  change 15 with (Z.ones 4). rewrite Z.land_ones by lia.
  change (2 ^ 4) with 16.
  pose proof (Z.div_mod x 16 ltac:(lia)). pose proof (Z.mod_pos_bound x 16 ltac:(lia)).
  assert (0 <= x / 16 < 16) by (split; [apply Z.div_pos; lia|apply Z.div_lt_upper_bound; lia]).
  lia.
Qed.

Lemma chars_append (a b : string) :
  String.list_ascii_of_string (a +:+ b)
  = String.list_ascii_of_string a ++ String.list_ascii_of_string b.
Proof. induction a as [|c a IH]; simpl; [reflexivity|]. rewrite IH. reflexivity. Qed.

Lemma from_hex_to_hex_app (b : Node.Buffer) (t : list ascii) :
  in_byte_range b ->
  Node.from_hex (String.list_ascii_of_string (Node.to_hex b) ++ t) = b ++ Node.from_hex t.
Proof.
  intros Hb. induction Hb as [|x r Hx Hr IH]; [reflexivity|].
  destruct (nibbles x Hx) as (H1 & H2 & H3).
  cbn [Node.to_hex String.list_ascii_of_string app Node.from_hex].
  rewrite (hex_value_digit _ H1), (hex_value_digit _ H2), IH, H3. reflexivity.
Qed.

Lemma Buffer_from_hex_to_hex (b : Node.Buffer) :
  in_byte_range b -> Node.Buffer_from_hex (Node.to_hex b) = b.
Proof.
  intros Hb. unfold Node.Buffer_from_hex.
  rewrite <- (List.app_nil_r (String.list_ascii_of_string _)), from_hex_to_hex_app by exact Hb.
  apply List.app_nil_r.
Qed.

Lemma be_bytes_range (n : nat) (x : Z) : in_byte_range (Node.be_bytes n x).
Proof.
  unfold in_byte_range, Node.be_bytes. apply List.Forall_map, List.Forall_forall.
  intros i _. change 255 with (Z.ones 8). rewrite Z.land_ones by lia.
  apply Z.mod_pos_bound. lia.
Qed.

Lemma digest_range (h : Node.State) : in_byte_range (Node.digest h).
Proof.
  unfold Node.digest, in_byte_range. repeat (apply List.Forall_app; split);
    apply be_bytes_range.
Qed.

Lemma hmac_sha256_range (key msg : Node.Buffer) : in_byte_range (Node.hmac_sha256 key msg).
Proof.
  unfold Node.hmac_sha256.
  match goal with |- in_byte_range (Node.sha256 ?m) => destruct (sha256_digest m) as [h ->] end.
  apply digest_range.
Qed.

Lemma hmac_sha256_length (key msg : Node.Buffer) : length (Node.hmac_sha256 key msg) = 32%nat.
Proof.
  unfold Node.hmac_sha256.
  match goal with |- length (Node.sha256 ?m) = _ => destruct (sha256_digest m) as [h ->] end.
  reflexivity.
Qed.

Lemma to_hex_length (b : Node.Buffer) : String.length (Node.to_hex b) = (2 * length b)%nat.
Proof. induction b as [|x r IH]; simpl; [reflexivity|]. rewrite IH. lia. Qed.

Lemma truthy_str_nonempty (s : string) : truthy_str (Some s) = true <-> s <> "".
Proof.
  simpl. destruct (String.eqb_spec s ""); simpl; split; intros; congruence.
Qed.

Lemma chars_length (s : string) :
  length (String.list_ascii_of_string s) = String.length s.
Proof. induction s as [|c s IH]; simpl; [reflexivity|]. rewrite IH. reflexivity. Qed.

Lemma from_hex_app_full (n : nat) :
  forall (a t : list ascii),
  (length a <= n)%nat ->
  length a = (2 * length (Node.from_hex a))%nat ->
  Node.from_hex (a ++ t) = Node.from_hex a ++ Node.from_hex t.
Proof.
  induction n as [|n IH]; intros a t Hn Hfull.
  - destruct a; [reflexivity|simpl in Hn; lia].
  - destruct a as [|c1 [|c2 r]]; [reflexivity|simpl in Hfull; lia|].
    cbn [app Node.from_hex] in *.
    destruct (Node.hex_value c1), (Node.hex_value c2); try (simpl in Hfull; lia).
    simpl in Hfull, Hn. rewrite (IH r t) by lia. reflexivity.
Qed.

Lemma validateHMAC_bool (p : Hmac.Payload) (signature secret : string) :
  Hmac.validateHMAC p signature secret
  = Normal (bool_decide
              (signature <> "" /\ secret <> ""
               /\ Node.Buffer_from_hex signature
                  = Node.hmac_sha256 (Node.Buffer_from secret) (Hmac.payloadBuffer p))).
Proof.
  unfold Hmac.validateHMAC.
  destruct (truthy_str (Some signature)) eqn:Hsig; cbn [negb orb].
  2:{ rewrite bool_decide_eq_false_2; [reflexivity|].
      intros (H & _). apply truthy_str_nonempty in H. congruence. }
  destruct (truthy_str (Some secret)) eqn:Hsec; cbn [negb orb].
  2:{ rewrite bool_decide_eq_false_2; [reflexivity|].
      intros (_ & H & _). apply truthy_str_nonempty in H. congruence. }
  apply truthy_str_nonempty in Hsig, Hsec.
  rewrite (Buffer_from_hex_to_hex _ (hmac_sha256_range _ _)).
  unfold Hmac.or_false, Node.timingSafeEqual.
  destruct (Nat.eqb_spec (length (Node.Buffer_from_hex signature))
              (length (Node.hmac_sha256 (Node.Buffer_from secret) (Hmac.payloadBuffer p))))
    as [Hlen|Hlen]; cbn [negb].
  - f_equal. apply bool_decide_ext. tauto.
  - rewrite bool_decide_eq_false_2; [reflexivity|].
    intros (_ & _ & H). rewrite H in Hlen. congruence.
Qed.

(** X1. [validateHMAC] never throws, and it returns [true] exactly when
    the signature and the secret are non-empty and the bytes that the
    signature decodes to, as hexadecimal, are the HMAC-SHA256 of the
    payload bytes under the secret. *)
Theorem validateHMAC_accepts_iff (p : Hmac.Payload) (signature secret : string) :
  exists b,
    Hmac.validateHMAC p signature secret = Normal b
    /\ (b = true <->
        signature <> "" /\ secret <> ""
        /\ Node.Buffer_from_hex signature
           = Node.hmac_sha256 (Node.Buffer_from secret) (Hmac.payloadBuffer p)).
Proof.
  eexists. split; [apply validateHMAC_bool|]. apply bool_decide_eq_true.
Qed.

(** X2. The signature that [generateHMAC] returns has 64 characters, and
    decoding it as hexadecimal gives back the 32 bytes of the HMAC. *)
Theorem generateHMAC_hex_digest (payload : JsonValue) (secret : string) :
  String.length (Hmac.generateHMAC payload secret) = 64%nat
  /\ Node.Buffer_from_hex (Hmac.generateHMAC payload secret)
     = Node.hmac_sha256 (Node.Buffer_from secret)
         (Node.Buffer_from (Node.JSON_stringify payload))
  /\ length (Node.Buffer_from_hex (Hmac.generateHMAC payload secret)) = 32%nat.
Proof.
  unfold Hmac.generateHMAC.
  rewrite to_hex_length, (Buffer_from_hex_to_hex _ (hmac_sha256_range _ _)),
    hmac_sha256_length.
  repeat split.
Qed.

(** X3. The signature of an object also validates the body in its two
    other forms: the JSON text as a string, and the bytes of that text as
    a buffer, which is how the ingestion gate checks a raw body. *)
Theorem validateHMAC_text_and_buffer (payload : JsonValue) (secret : string) :
  secret <> "" ->
  Hmac.validateHMAC (Hmac.PValue (JString (Node.JSON_stringify payload)))
    (Hmac.generateHMAC payload secret) secret = Normal true
  /\ Hmac.validateHMAC (Hmac.PBuffer (Node.Buffer_from (Node.JSON_stringify payload)))
       (Hmac.generateHMAC payload secret) secret = Normal true.
Proof.
  intros Hs.
  assert (Hg : Hmac.generateHMAC payload secret <> "")
    by (apply truthy_str_nonempty, generateHMAC_truthy).
  split; rewrite validateHMAC_bool; f_equal; apply bool_decide_eq_true;
    (split; [exact Hg|split; [exact Hs|]]); unfold Hmac.generateHMAC;
    apply Buffer_from_hex_to_hex, hmac_sha256_range.
Qed.

(** X4. Decoding stops at the first pair that is not hexadecimal, so a
    valid signature followed by text that does not begin with a pair of
    hexadecimal digits is accepted as well. *)
Theorem validateHMAC_ignores_trailing_text
    (p : Hmac.Payload) (signature secret tail : string) :
  Hmac.validateHMAC p signature secret = Normal true ->
  String.length signature = 64%nat ->
  Node.Buffer_from_hex tail = [] ->
  Hmac.validateHMAC p (signature +:+ tail) secret = Normal true.
Proof.
  intros Hv Hlen Htail. rewrite validateHMAC_bool in *.
  injection Hv as Hv. apply bool_decide_eq_true in Hv as (Hsig & Hsec & Hbytes).
  f_equal. apply bool_decide_eq_true.
  split; [destruct signature; [contradiction|discriminate]|].
  split; [exact Hsec|].
  rewrite <- Hbytes. unfold Node.Buffer_from_hex in *.
  rewrite chars_append, (from_hex_app_full (length (String.list_ascii_of_string signature)));
    [rewrite Htail; apply List.app_nil_r|lia|].
  rewrite Hbytes, hmac_sha256_length, chars_length. lia.
Qed.
End Signatures.

(** ** The ingestion gate, further *)

Section GateMore.
Import Facts.

Ltac run_gate :=
  unfold Controller.ingestEvent, Controller.correlationIdOf, Controller.lift,
    EventQueue.addEventToQueue, EventQueue.eventQueue_add, try_catch, bind, emit, ret,
    new_Date, uuid; simpl.

Ltac split_gate :=
  repeat (match goal with
          | |- context [if ?b then _ else _] => destruct b eqn:?
          | |- context [match ?x with Some _ => _ | None => _ end] => destruct x eqn:?
          | |- context [match ?x with Normal _ => _ | Throw _ => _ end] => destruct x eqn:?
          | |- context [let (_, _) := ?x in _] => destruct x eqn:?
          end; simpl).

Lemma ingestEvent_outcome (env : Env) (req : Controller.Request) (w : World) :
  exists r w',
    Controller.ingestEvent env req w = (Normal r, w')
    /\ (Controller.statusCode r = 202 <-> accepted env req = true)
    /\ (Controller.statusCode r = 202 \/ Controller.statusCode r = 400
        \/ Controller.statusCode r = 401 \/ Controller.statusCode r = 500)
    /\ (Controller.statusCode r <> 202 ->
        eventQueue w' = eventQueue w /\ ledger w' = ledger w
        /\ deadLetterQueue w' = deadLetterQueue w /\ trace w' = trace w).
Proof.
  destruct w as [l q dq c r u t]. unfold accepted, Bull.refused. run_gate.
  unfold Bull.add. split_gate.
  all: do 2 eexists; (split; [reflexivity|]); simpl.
  all: repeat match goal with H : negb _ = _ |- _ => apply (f_equal negb) in H; rewrite negb_involutive in H; simpl in H end.
  all: repeat match goal with H : _ = _ |- _ => rewrite H end; simpl.
  all: try (split; [split; intros; (reflexivity || discriminate || lia)|]).
  all: try (split; [lia|]).
  all: try (intros; repeat split; congruence).
  all: try (intros; lia).
  all: repeat match goal with
              | H : context [String.eqb ?a ""] |- _ => destruct (String.eqb a "")
              | H : context [truthy ?j] |- _ => destruct (truthy j)
              end; simpl in *; try discriminate.
  all: split; [split; intros; (reflexivity || discriminate || lia)|].
  all: split; [lia|intros; try lia; repeat split; congruence].
Qed.

Lemma ingestEvent_accepted (env : Env) (req : Controller.Request) (w : World) :
  accepted env req = true ->
  exists i ty p cid latency w',
    Controller.eventId (Controller.body req) = Some i
    /\ Controller.type (Controller.body req) = Some ty
    /\ Controller.payload (Controller.body req) = Some p
    /\ Controller.ingestEvent env req w
       = (Normal (Controller.mkResponse 202
                    (Controller.AcceptedBody true i cid "Event queued for processing" latency)),
          w')
    /\ eventQueue w'
       = snd (Bull.addJob "process-event" (JobData.mkJobData i ty p (Some cid)) (Some i)
                (eventQueue w))
    /\ ledger w' = ledger w /\ deadLetterQueue w' = deadLetterQueue w.
Proof.
  destruct w as [l q dq c r u t]. unfold accepted. run_gate.
  destruct (HMAC_SECRET env) as [secret|]; [|discriminate].
  destruct (Controller.rawBody req) as [raw|]; [|discriminate].
  destruct (Controller.eventId (Controller.body req)) as [i|];
    [|simpl; rewrite !andb_false_r; discriminate].
  destruct (Controller.type (Controller.body req)) as [ty|];
    [|simpl; rewrite !andb_false_r; discriminate].
  destruct (Controller.payload (Controller.body req)) as [p|];
    [|simpl; rewrite !andb_false_r; discriminate].
  simpl. intros H. repeat (apply andb_prop in H as [H ?]).
  destruct (Hmac.validateHMAC _ _ _) as [[|]|]; try discriminate.
  match goal with H : negb (Bull.refused _) = true |- _ =>
    apply negb_true_iff, orb_false_elim in H as [H Hcol];
    apply orb_false_elim in H as [Hzero Hint];
    unfold Bull.add; rewrite Hzero, Hint, Hcol end.
  repeat match goal with H : _ = true |- _ => rewrite H end. simpl.
  split_gate; try match goal with H : negb true = true |- _ => discriminate H end;
    repeat eexists; simpl;
    repeat match goal with H : List.find _ _ = _ |- _ => rewrite H end; reflexivity.
Qed.

Lemma find_has_id_app {D} (i : Bull.JobId) (l : list (Bull.Job D)) (j : Bull.Job D) :
  List.find (Bull.has_id i) l = None -> Bull.id j = i ->
  List.find (Bull.has_id i) (l ++ [j]) = Some j.
Proof.
  intros Hn Hj. induction l as [|x l IH]; simpl in *.
  - unfold Bull.has_id. rewrite bool_decide_eq_true_2 by exact Hj. reflexivity.
  - destruct (Bull.has_id i x); [discriminate|auto].
Qed.

(** The data of an accepted request passes the validators of the schema. *)
Lemma accepted_data_valid (env : Env) (req : Controller.Request) (i ty : string)
    (p : JsonValue) (cid : option string) :
  accepted env req = true ->
  Controller.eventId (Controller.body req) = Some i ->
  Controller.type (Controller.body req) = Some ty ->
  Controller.payload (Controller.body req) = Some p ->
  Obs.valid (JobData.mkJobData i ty p cid) = true.
Proof.
  unfold accepted. intros H Hi Hty Hp. rewrite Hi, Hty, Hp in H.
  destruct (HMAC_SECRET env); [|discriminate].
  destruct (Controller.rawBody req); [|discriminate].
  repeat (apply andb_prop in H as [H ?]). simpl in *.
  unfold Obs.valid, Mongoose.validates, Mongoose.missing. simpl.
  repeat match goal with H : negb _ = true |- _ => apply negb_true_iff in H end.
  repeat match goal with H : String.eqb _ "" = false |- _ => rewrite H end.
  destruct p; simpl in *; try reflexivity; discriminate.
Qed.

(** X5. [ingestEvent] always answers, with 202, 400, 401 or 500; it
    answers 202 exactly when the secret is configured, the raw body is
    present and carries a valid signature, [eventId], [type] and
    [payload] are truthy, and the queue does not refuse the [eventId] as
    a job id (it refuses an id that is integer-like, that starts with
    ['0:'] or that its colons split in other than three parts, and the
    answer is then 500). *)
Theorem ingestEvent_accepts_iff (env : Env) (req : Controller.Request) (w : World) :
  exists r w',
    Controller.ingestEvent env req w = (Normal r, w')
    /\ (Controller.statusCode r = 202 <-> accepted env req = true)
    /\ (Controller.statusCode r = 202 \/ Controller.statusCode r = 400
        \/ Controller.statusCode r = 401 \/ Controller.statusCode r = 500).
Proof.
  destruct (ingestEvent_outcome env req w) as (r & w' & E & Hiff & Hcodes & _).
  exists r, w'. auto.
Qed.

(** X6. A request that is not answered with 202 leaves no trace: the
    main queue, the dead-letter queue and the ledger are as before, and
    no call has reached them. In particular a request without a valid
    signature never reaches the queue, and neither does one whose
    [eventId] the queue client refuses as a job id. *)
Theorem ingestEvent_rejection_has_no_effect
    (env : Env) (req : Controller.Request) (w : World) :
  accepted env req = false ->
  exists r w',
    Controller.ingestEvent env req w = (Normal r, w')
    /\ Controller.statusCode r <> 202
    /\ eventQueue w' = eventQueue w /\ ledger w' = ledger w
    /\ deadLetterQueue w' = deadLetterQueue w /\ trace w' = trace w.
Proof.
  intros Hrej.
  destruct (ingestEvent_outcome env req w) as (r & w' & E & Hiff & _ & Hno).
  assert (Hcode : Controller.statusCode r <> 202)
    by (intros H; apply Hiff in H; congruence).
  exists r, w'. split; [exact E|]. split; [exact Hcode|]. apply Hno. exact Hcode.
Qed.

(** X7. An accepted request is answered 202 with its [eventId] and
    correlation id, and afterwards the main queue holds a job whose id is
    the [eventId]. When such a job was already in the queue (a duplicate
    submission), the queue is left as it was; otherwise one waiting job
    named [process-event] with the request's data is appended. *)
Theorem ingestEvent_enqueues_once (env : Env) (req : Controller.Request) (w : World) :
  accepted env req = true ->
  exists i ty p cid latency w',
    Controller.eventId (Controller.body req) = Some i
    /\ Controller.type (Controller.body req) = Some ty
    /\ Controller.payload (Controller.body req) = Some p
    /\ Controller.ingestEvent env req w
       = (Normal (Controller.mkResponse 202
                    (Controller.AcceptedBody true i cid "Event queued for processing" latency)),
          w')
    /\ (exists j, List.find (Bull.has_id (Bull.CustomId i)) (Bull.jobs (eventQueue w')) = Some j)
    /\ match List.find (Bull.has_id (Bull.CustomId i)) (Bull.jobs (eventQueue w)) with
       | Some _ => eventQueue w' = eventQueue w
       | None =>
           Bull.jobs (eventQueue w')
           = Bull.jobs (eventQueue w) ++
             [Bull.mkJob (Bull.CustomId i) "process-event"
                (JobData.mkJobData i ty p (Some cid))
                (Bull.defaultJobOptions (eventQueue w)) 0 Bull.waiting]
       end.
Proof.
  intros Hacc.
  destruct (ingestEvent_accepted env req w Hacc)
    as (i & ty & p & cid & latency & w' & Hi & Hty & Hp & E & Q & _).
  exists i, ty, p, cid, latency, w'. do 4 (split; [assumption|]).
  rewrite Q. unfold Bull.addJob.
  destruct (List.find (Bull.has_id (Bull.CustomId i)) (Bull.jobs (eventQueue w))) as [j|] eqn:F;
    simpl.
  - split; [eauto|reflexivity].
  - split; [|reflexivity]. eexists. apply find_has_id_app; [exact F|reflexivity].
Qed.

(** X8. Enqueueing is idempotent on [eventId], for an [eventId] that the
    queue takes as a job id (not empty, and not refused): after
    [addEventToQueue], a second call with the same [eventId] returns the
    same job id and leaves the queue as the first call left it, even when
    its [type], [payload] or correlation id differ. *)
Theorem addEventToQueue_idempotent (d d' : JobData.EventJobData) (w : World) :
  JobData.eventId d <> "" ->
  Bull.refused (JobData.eventId d) = false ->
  JobData.eventId d' = JobData.eventId d ->
  exists w1 w2,
    EventQueue.addEventToQueue d w = (Normal (Bull.CustomId (JobData.eventId d)), w1)
    /\ EventQueue.addEventToQueue d' w1 = (Normal (Bull.CustomId (JobData.eventId d)), w2)
    /\ eventQueue w2 = eventQueue w1
    /\ (exists j, List.find (Bull.has_id (Bull.CustomId (JobData.eventId d)))
                    (Bull.jobs (eventQueue w1)) = Some j).
Proof.
  intros Hne Href Hid. destruct w as [l q dq c r u t].
  apply orb_false_elim in Href as [Href Hcol].
  apply orb_false_elim in Href as [Hzero Hint]. apply String.eqb_neq in Hne.
  unfold EventQueue.addEventToQueue, EventQueue.eventQueue_add, bind, emit, ret. simpl.
  rewrite Hid. unfold Bull.add. rewrite Hzero, Hint, Hcol, Hne. unfold Bull.addJob.
  destruct (List.find (Bull.has_id (Bull.CustomId (JobData.eventId d))) (Bull.jobs q))
    as [j|] eqn:F; simpl.
  - assert (Hj : Bull.id j = Bull.CustomId (JobData.eventId d)).
    { apply List.find_some in F as [_ F]. unfold Bull.has_id in F.
      apply bool_decide_eq_true in F. exact F. }
    do 2 eexists. split; [rewrite Hj; reflexivity|]. simpl. rewrite F. simpl.
    rewrite Hj. repeat split. eauto.
  - do 2 eexists. split; [reflexivity|]. simpl.
    erewrite find_has_id_app by (exact F || reflexivity). simpl. repeat split. eauto.
Qed.

Lemma ingestEvent_cid_set (env : Env) (req : Controller.Request) (w : World) (cid : string) :
  Controller.correlationId req = Some cid -> truthy_str (Some cid) = true ->
  exists r w',
    Controller.ingestEvent env req w = (Normal r, w')
    /\ response_cid r = cid /\ uuidDraws w' = uuidDraws w.
Proof.
  intros Hc Ht. destruct w as [l q dq c r u t]. unfold response_cid. run_gate.
  unfold or_str. rewrite Hc, Ht. simpl in Ht. simpl. rewrite Ht. simpl.
  split_gate; do 2 eexists; repeat split.
Qed.

Lemma correlationMiddleware_run (env : Env) (req : Controller.Request) (w : World) :
  (forall k, randomUUID env k <> "") ->
  exists cid w1,
    App.correlationMiddleware env req w
    = (Normal (Controller.mkRequest (Some cid) (Controller.headers req)
                 (Controller.rawBody req) (Controller.body req)), w1)
    /\ truthy_str (Some cid) = true
    /\ cid = (if truthy_str (Controller.headers req !! "x-correlation-id")
              then default "" (Controller.headers req !! "x-correlation-id")
              else randomUUID env (uuidDraws w))
    /\ ledger w1 = ledger w /\ eventQueue w1 = eventQueue w
    /\ deadLetterQueue w1 = deadLetterQueue w /\ trace w1 = trace w.
Proof.
  intros Huuid. destruct w as [l q dq c r u t].
  unfold App.correlationMiddleware, bind, ret, uuid.
  destruct (truthy_str (Controller.headers req !! "x-correlation-id")) eqn:Hh; simpl.
  - do 2 eexists. split; [reflexivity|].
    destruct (Controller.headers req !! "x-correlation-id") as [h|]; [|discriminate].
    simpl in *. rewrite Hh. repeat split.
  - do 2 eexists. split; [reflexivity|]. repeat split.
    destruct (String.eqb_spec (randomUUID env u) ""); [exfalso; eapply Huuid; eassumption|].
    reflexivity.
Qed.

(** X9. Every answer of [ingestEvent], whatever its status, carries one
    correlation id: [req.correlationId] when it is truthy, else the
    [x-correlation-id] header when it is truthy, else a fresh UUID; a
    UUID is drawn only in the last case. *)
Theorem ingestEvent_correlation_id (env : Env) (req : Controller.Request) (w : World) :
  exists r w',
    Controller.ingestEvent env req w = (Normal r, w')
    /\ response_cid r
       = (if truthy_str (Controller.correlationId req)
          then default "" (Controller.correlationId req)
          else if truthy_str (Controller.headers req !! "x-correlation-id")
               then default "" (Controller.headers req !! "x-correlation-id")
               else randomUUID env (uuidDraws w))
    /\ uuidDraws w'
       = (if truthy_str (Controller.correlationId req)
             || truthy_str (Controller.headers req !! "x-correlation-id")
          then uuidDraws w else S (uuidDraws w)).
Proof.
  destruct w as [l q dq c r u t]. unfold response_cid. run_gate.
  unfold or_str.
  destruct (Controller.correlationId req) as [a|]; simpl;
    [destruct (String.eqb a "") eqn:Ha; simpl|];
    (destruct (Controller.headers req !! "x-correlation-id") as [h|]; simpl;
     [destruct (String.eqb h "") eqn:Hh; simpl|]);
    rewrite ?Ha, ?Hh; simpl; split_gate.
  all: repeat match goal with
              | H : context [String.eqb ?x ""], E : String.eqb ?x "" = _ |- _ =>
                  rewrite E in H; simpl in H
              end; try discriminate.
  all: do 2 eexists; repeat split.
Qed.

(** X10. Behind the correlation id middleware of app.ts, and with UUIDs
    that are not empty, [ingestEvent] answers with the id that the
    middleware chose, the header's when it is truthy and a UUID otherwise,
    and draws no UUID of its own. *)
Theorem ingestEvent_behind_middleware (env : Env) (req : Controller.Request) (w : World) :
  (forall k, randomUUID env k <> "") ->
  exists req' w1 r w2,
    App.correlationMiddleware env req w = (Normal req', w1)
    /\ Controller.ingestEvent env req' w1 = (Normal r, w2)
    /\ Controller.correlationId req' = Some (response_cid r)
    /\ response_cid r
       = (if truthy_str (Controller.headers req !! "x-correlation-id")
          then default "" (Controller.headers req !! "x-correlation-id")
          else randomUUID env (uuidDraws w))
    /\ uuidDraws w2 = uuidDraws w1.
Proof.
  intros Huuid.
  destruct (correlationMiddleware_run env req w Huuid) as (cid & w1 & E1 & Ht & Hcid & _).
  set (req' := Controller.mkRequest (Some cid) (Controller.headers req)
                 (Controller.rawBody req) (Controller.body req)) in *.
  destruct (ingestEvent_cid_set env req' w1 cid eq_refl Ht) as (r & w2 & E2 & Hr & Hu).
  exists req', w1, r, w2. rewrite Hr. repeat split; assumption.
Qed.

End GateMore.

(** ** The read side *)

Section ReadSide.
Import Model Facts.

Lemma insert_desc_perm (e : IEvent) (l : list IEvent) :
  Permutation (Reads.insert_desc e l) (e :: l).
Proof.
  induction l as [|x l IH]; simpl; [reflexivity|].
  destruct (Z.leb (createdAt x) (createdAt e)); [reflexivity|].
  rewrite IH. apply perm_swap.
Qed.

Lemma sort_desc_perm (l : list IEvent) : Permutation (Reads.sort_desc l) l.
Proof.
  induction l as [|x l IH]; simpl; [reflexivity|].
  rewrite insert_desc_perm, IH. reflexivity.
Qed.

Lemma insert_desc_sorted (e : IEvent) (l : list IEvent) :
  StronglySorted newer l -> StronglySorted newer (Reads.insert_desc e l).
Proof.
  induction 1 as [|x l Hs IH Hx]; simpl.
  - repeat constructor.
  - destruct (Z.leb_spec (createdAt x) (createdAt e)).
    + constructor; [constructor; assumption|].
      constructor; [exact H|].
      eapply Forall_impl; [exact Hx|]. unfold newer. intros; simpl in *; lia.
    + constructor; [exact IH|].
      rewrite insert_desc_perm. constructor; [unfold newer; lia|exact Hx].
Qed.

Lemma sort_desc_sorted (l : list IEvent) : StronglySorted newer (Reads.sort_desc l).
Proof.
  induction l as [|x l IH]; simpl; [constructor|].
  apply insert_desc_sorted, IH.
Qed.

Lemma sorted_split (n : nat) (l : list IEvent) :
  StronglySorted newer l ->
  StronglySorted newer (List.firstn n l)
  /\ forall e e', In e (List.firstn n l) -> In e' (List.skipn n l) -> newer e e'.
Proof.
  intros Hs. revert n. induction Hs as [|x l Hs IH Hx]; intros [|n]; simpl;
    try (split; [constructor|tauto]).
  destruct (IH n) as [IH1 IH2]. split.
  - constructor; [exact IH1|].
    rewrite List.Forall_forall in *. intros y Hy. apply Hx.
    rewrite <- (List.firstn_skipn n l). apply List.in_or_app. left. exact Hy.
  - intros e e' [<-|He] He'; [|auto].
    rewrite List.Forall_forall in Hx. apply Hx.
    rewrite <- (List.firstn_skipn n l). apply List.in_or_app. right. exact He'.
Qed.

Lemma limit_split (n : Z) (l : list IEvent) :
  exists rest, l = Reads.limit n l ++ rest
    /\ (rest = [] \/ Z.of_nat (length (Reads.limit n l)) = Z.abs n)
    /\ (n <> 0 -> Z.of_nat (length (Reads.limit n l)) <= Z.abs n)
    /\ (StronglySorted newer l ->
        StronglySorted newer (Reads.limit n l)
        /\ forall e e', In e (Reads.limit n l) -> In e' rest -> newer e e').
Proof.
  unfold Reads.limit. destruct (Z.eqb_spec n 0) as [->|Hn].
  - exists []. rewrite List.app_nil_r. repeat split; auto; try tauto. contradiction.
  - exists (List.skipn (Z.to_nat (Z.abs n)) l).
    split; [symmetry; apply List.firstn_skipn|].
    split; [|split; [intros _; rewrite List.length_firstn; lia|apply sorted_split]].
    destruct (Nat.le_gt_cases (length l) (Z.to_nat (Z.abs n))) as [Hle|Hgt].
    + left. apply List.skipn_all2. exact Hle.
    + right. rewrite List.length_firstn. lia.
Qed.

Lemma getEventsByStatus_run (s : EventStatus) (lim : option Z) (w : World) :
  exists es rest,
    Reads.getEventsByStatus s lim w = (Normal es, w)
    /\ StronglySorted newer es
    /\ Permutation (es ++ rest)
         (List.filter (fun e => bool_decide (status e = s)) (ledger w))
    /\ (forall e e', In e es -> In e' rest -> createdAt e' <= createdAt e)
    /\ (rest = [] \/ Z.of_nat (length es) = Z.abs (default 100 lim))
    /\ (default 100 lim <> 0 -> Z.of_nat (length es) <= Z.abs (default 100 lim)).
Proof.
  unfold Reads.getEventsByStatus.
  set (found := List.filter _ (ledger w)).
  destruct (limit_split (default 100 lim) (Reads.sort_desc found))
    as (rest & Hsplit & Hcut & Hle & Hsorted).
  destruct (Hsorted (sort_desc_sorted found)) as [Hs1 Hs2].
  exists (Reads.limit (default 100 lim) (Reads.sort_desc found)), rest.
  split; [reflexivity|]. split; [exact Hs1|].
  split; [rewrite <- Hsplit; apply sort_desc_perm|].
  split; [exact Hs2|]. split; assumption.
Qed.

Lemma found_rows (s : EventStatus) (l es rest : list IEvent) :
  Permutation (es ++ rest) (List.filter (fun e => bool_decide (status e = s)) l) ->
  forall e, In e es -> status e = s /\ In e l.
Proof.
  intros Hp e He.
  assert (Hin : In e (List.filter (fun e => bool_decide (status e = s)) l)).
  { apply list_elem_of_In. rewrite <- Hp. apply list_elem_of_In.
    apply List.in_or_app. left. exact He. }
  apply List.filter_In in Hin as [Hin Hs]. apply bool_decide_eq_true in Hs. auto.
Qed.

(** X12. [getEventStatus] reads the ledger once and changes nothing. It
    answers 404, with the requested id, exactly when the ledger has no row
    for it, and otherwise 200 with the type, status, attempts, error,
    [processedAt] and [createdAt] of the row that has this [eventId]. *)
Theorem getEventStatus_reports_row
    (env : Env) (i : string) (req : Controller.Request) (w : World) :
  exists r w',
    Reads.getEventStatus env i req w = (Normal r, w')
    /\ ledger w' = ledger w /\ eventQueue w' = eventQueue w
    /\ deadLetterQueue w' = deadLetterQueue w
    /\ Obs.since w w' = [LedgerFind i]
    /\ match Obs.row i (ledger w) with
       | None =>
           Reads.statusCode r = 404
           /\ exists cid, Reads.json r = Reads.NotFound "Event not found" i cid
       | Some e =>
           Reads.statusCode r = 200
           /\ exists cid,
                Reads.json r
                = Reads.Found i (type e) (status e) (attempts e) (error e)
                    (processedAt e) (createdAt e) cid
       end.
Proof.
  destruct (Obs.row i (ledger w)) as [e|] eqn:Hr.
  - pose proof (row_eventId _ _ _ Hr) as Hi.
    destruct w as [l q dq c r u t]. unfold Obs.row in Hr. simpl in Hr.
    unfold Reads.getEventStatus, Controller.correlationIdOf, Repository.getEventById,
      Mongoose.findOne, try_catch, bind, emit, ret, uuid, Obs.since.
    destruct (or_str _ _) as [s|]; [destruct (truthy_str (Some s))|]; simpl;
      rewrite Hr; simpl; rewrite Hi;
      (do 2 eexists; split; [reflexivity|]; simpl;
       rewrite List.skipn_app, List.skipn_all, Nat.sub_diag; simpl;
       repeat split; eauto).
  - destruct w as [l q dq c r u t]. unfold Obs.row in Hr. simpl in Hr.
    unfold Reads.getEventStatus, Controller.correlationIdOf, Repository.getEventById,
      Mongoose.findOne, try_catch, bind, emit, ret, uuid, Obs.since.
    destruct (or_str _ _) as [s|]; [destruct (truthy_str (Some s))|]; simpl;
      rewrite Hr; simpl;
      (do 2 eexists; split; [reflexivity|]; simpl;
       rewrite List.skipn_app, List.skipn_all, Nat.sub_diag; simpl;
       repeat split; eauto).
Qed.

(** X13. [getEventsByStatus] changes nothing and returns the newest rows
    with the given status: every returned row is a ledger row with that
    status, the rows come newest first, the rows with that status that are
    left out are no newer than any returned one, and rows are left out
    only when the limit (100 when not given) is reached. *)
Theorem getEventsByStatus_newest_first (s : EventStatus) (lim : option Z) (w : World) :
  exists es rest,
    Reads.getEventsByStatus s lim w = (Normal es, w)
    /\ StronglySorted newer es
    /\ (forall e, In e es -> status e = s /\ In e (ledger w))
    /\ Permutation (es ++ rest)
         (List.filter (fun e => bool_decide (status e = s)) (ledger w))
    /\ (forall e e', In e es -> In e' rest -> createdAt e' <= createdAt e)
    /\ (rest = [] \/ Z.of_nat (length es) = Z.abs (default 100 lim)).
Proof.
  destruct (getEventsByStatus_run s lim w) as (es & rest & E & Hs & Hp & Hn & Hc & _).
  exists es, rest. split; [exact E|]. split; [exact Hs|].
  split; [exact (found_rows s (ledger w) es rest Hp)|]. auto.
Qed.

(** X14. [getFailedEvents] answers 200 with [count] equal to the number
    of events listed; the events are ledger rows with status [FAILED],
    newest first, and there are at most as many as the limit of the query,
    which is 100 when the query gives none, gives no number, or gives 0. *)
Theorem getFailedEvents_bounded (query_limit : option Z) (w : World) :
  exists es,
    Reads.getFailedEvents query_limit w
    = (Normal (Reads.mkFailedEventsResponse 200
                 (Reads.FailedEvents (Z.of_nat (length es)) es)), w)
    /\ (forall e, In e es -> status e = FAILED /\ In e (ledger w))
    /\ StronglySorted newer es
    /\ Z.of_nat (length es) <= Z.abs (Reads.limitOf query_limit)
    /\ (query_limit = None \/ query_limit = Some 0 -> Z.of_nat (length es) <= 100).
Proof.
  destruct (getEventsByStatus_run FAILED (Some (Reads.limitOf query_limit)) w)
    as (es & rest & E & Hs & Hp & _ & _ & Hle).
  assert (Hnz : Reads.limitOf query_limit <> 0).
  { unfold Reads.limitOf. destruct query_limit as [n|]; [|lia].
    destruct (Z.eqb_spec n 0); lia. }
  exists es. unfold Reads.getFailedEvents, try_catch, bind, ret. rewrite E.
  split; [reflexivity|]. split; [exact (found_rows FAILED (ledger w) es rest Hp)|].
  split; [exact Hs|]. simpl in Hle. split; [auto|].
  intros [->| ->]; specialize (Hle Hnz); simpl in Hle; lia.
Qed.

End ReadSide.

(** ** Signed requests, and replay seen through the statistics *)

Section Operations.
Import Model Facts JobData.

(** X11. A request signed the way the producers sign it, with the hex
    HMAC-SHA256 of the raw body under the configured secret in
    [x-hmac-signature], with truthy [eventId], [type] and [payload], and
    with an [eventId] that the queue does not refuse as a job id, is
    answered 202 with its [eventId]. *)
Theorem ingestEvent_accepts_signed
    (env : Env) (req : Controller.Request) (w : World)
    (secret : string) (raw : Node.Buffer) (i ty : string) (p : JsonValue) :
  HMAC_SECRET env = Some secret -> secret <> "" ->
  Controller.rawBody req = Some raw ->
  Controller.headers req !! "x-hmac-signature"
    = Some (Node.to_hex (Node.hmac_sha256 (Node.Buffer_from secret) raw)) ->
  Controller.body req = Controller.mkBody (Some i) (Some ty) (Some p) ->
  i <> "" -> ty <> "" -> truthy p = true ->
  Bull.refused i = false ->
  exists cid latency w',
    Controller.ingestEvent env req w
    = (Normal (Controller.mkResponse 202
                 (Controller.AcceptedBody true i cid "Event queued for processing" latency)),
       w').
Proof.
  intros Hsecret Hne Hraw Hsig Hbody Hi Hty Hp Hint.
  assert (Hacc : accepted env req = true).
  { unfold accepted. rewrite Hsecret, Hraw, Hsig, Hbody.
    rewrite validateHMAC_bool. unfold default. cbn [from_option id Controller.eventId
      Controller.type Controller.payload truthy_opt is_true Hmac.payloadBuffer].
    rewrite bool_decide_eq_true_2.
    - apply truthy_str_nonempty in Hne, Hi, Hty. rewrite Hne, Hi, Hty, Hp, Hint.
      reflexivity.
    - split; [|split; [exact Hne|]].
      + intros H. apply (f_equal String.length) in H.
        rewrite to_hex_length, hmac_sha256_length in H. discriminate.
      + apply Buffer_from_hex_to_hex, hmac_sha256_range. }
  destruct (ingestEvent_accepted env req w Hacc)
    as (i' & ty' & p' & cid & latency & w' & Hi' & _ & _ & E & _).
  rewrite Hbody in Hi'. injection Hi' as <-.
  exists cid, latency, w'. exact E.
Qed.

Lemma replayDLQJobs_run (w : World) :
  let js := Bull.getJobs [Bull.waiting; Bull.delayed] (deadLetterQueue w) in
  exists w',
    EventQueue.replayDLQJobs w = (Normal (Z.of_nat (length js)), w')
    /\ ledger w' = ledger w
    /\ eventQueue w' = Obs.requeued js (eventQueue w)
    /\ deadLetterQueue w' = Obs.purged js (deadLetterQueue w).
Proof.
  intros js.
  unfold EventQueue.replayDLQJobs, EventQueue.deadLetterQueue_getJobs, bind at 1, bind at 1, emit.
  simpl. fold js.
  match goal with |- context [EventQueue.replayLoop js 0 ?x] =>
    destruct (replayLoop_run js 0 x) as (w' & t & E & L & Q & D & _) end.
  rewrite E. exists w'. simpl in *. auto.
Qed.

Lemma freshJobs_count (s : Bull.JobState) (c : nat) (o : Bull.JobOpts)
    (js : list (Bull.Job DLQData)) :
  length (List.filter (fun j => bool_decide (Bull.state j = s)) (Obs.freshJobs c o js))
  = if bool_decide (Bull.waiting = s) then length js else 0%nat.
Proof.
  revert c. induction js as [|j js IH]; intros c.
  - simpl. destruct (bool_decide _); reflexivity.
  - cbn [Obs.freshJobs List.filter Bull.state].
    destruct (bool_decide (Bull.waiting = s)) eqn:E;
      cbn [length]; rewrite IH; reflexivity.
Qed.

Lemma getCount_requeued (s : Bull.JobState) (js : list (Bull.Job DLQData))
    (q : Bull.Queue EventJobData) :
  Reads.getCount s (Obs.requeued js q)
  = Reads.getCount s q + (if bool_decide (Bull.waiting = s) then Z.of_nat (length js) else 0).
Proof.
  unfold Reads.getCount. rewrite requeued_jobs, List.filter_app, List.length_app, freshJobs_count.
  destruct (bool_decide _); lia.
Qed.

Lemma purged_none_left (types : list Bull.JobState) (q : Bull.Queue DLQData) :
  Bull.getJobs types (Obs.purged (Bull.getJobs types q) q) = [].
Proof.
  unfold Bull.getJobs at 1. rewrite purged_jobs.
  set (js := Bull.getJobs types q).
  assert (H : forall k, In k (Bull.jobs q) -> bool_decide (Bull.state k ∈ types) = true ->
                        Obs.not_among js k = false).
  { intros k Hk Hs. apply not_among_self. unfold js, Bull.getJobs.
    apply List.filter_In. auto. }
  induction (Bull.jobs q) as [|k l IH]; simpl; [reflexivity|].
  destruct (Obs.not_among js k) eqn:Hn; simpl.
  - destruct (bool_decide (Bull.state k ∈ types)) eqn:Hs.
    + rewrite (H k (or_introl eq_refl) Hs) in Hn. discriminate.
    + apply IH. intros k' Hk'. apply H. right. exact Hk'.
  - apply IH. intros k' Hk'. apply H. right. exact Hk'.
Qed.

Lemma waiting_among (q : Bull.Queue DLQData) :
  (length (List.filter (fun j => bool_decide (Bull.state j = Bull.waiting)) (Bull.jobs q))
   <= length (Bull.getJobs [Bull.waiting; Bull.delayed] q))%nat.
Proof.
  unfold Bull.getJobs. induction (Bull.jobs q) as [|k l IH]; simpl; [lia|].
  destruct (Bull.state k); simpl; lia.
Qed.

Lemma no_waiting_left (q : Bull.Queue DLQData) :
  Bull.getJobs [Bull.waiting; Bull.delayed] q = [] -> Reads.getCount Bull.waiting q = 0.
Proof.
  intros H. unfold Reads.getCount. pose proof (waiting_among q) as Hle.
  rewrite H in Hle. simpl in Hle. lia.
Qed.

(** X15. Replay seen through the statistics: when [replayDLQ] answers
    that it replayed [n] jobs, [getStats] afterwards reports no waiting
    dead-letter job and [n] more waiting jobs on the main queue than
    before, with the other four counts as they were; [n] is at least the
    dead-letter count reported before. *)
Theorem replayDLQ_then_getStats (w : World) :
  exists n w1 s0 s1,
    Reads.getStats w = (Normal (Reads.mkStatsResponse 200 (Reads.Stats s0)), w)
    /\ Reads.replayDLQ w
       = (Normal (Reads.mkReplayResponse 200 (Reads.Replayed n "DLQ jobs replayed")), w1)
    /\ Reads.getStats w1 = (Normal (Reads.mkStatsResponse 200 (Reads.Stats s1)), w1)
    /\ Reads.dlq s1 = 0
    /\ Reads.waiting s1 = Reads.waiting s0 + n
    /\ Reads.dlq s0 <= n
    /\ Reads.active s1 = Reads.active s0
    /\ Reads.completed s1 = Reads.completed s0
    /\ Reads.failed s1 = Reads.failed s0
    /\ Reads.delayed s1 = Reads.delayed s0.
Proof.
  destruct (replayDLQJobs_run w) as (w1 & E & _ & Q & D).
  unfold Reads.getStats, Reads.replayDLQ, Reads.getQueueStats, try_catch, bind, ret.
  rewrite E. do 4 eexists. do 3 (split; [reflexivity|]). simpl.
  rewrite Q, D, !getCount_requeued. simpl.
  split; [apply no_waiting_left, purged_none_left|].
  split; [reflexivity|].
  split; [unfold Reads.getCount; pose proof (waiting_among (deadLetterQueue w)); lia|].
  repeat split; lia.
Qed.

(** X16. A second replay right after a replay finds nothing to do: it
    answers that 0 jobs were replayed and leaves both queues and the
    ledger as the first replay left them. *)
Theorem replayDLQ_twice (w : World) :
  exists n w1 w2,
    Reads.replayDLQ w
    = (Normal (Reads.mkReplayResponse 200 (Reads.Replayed n "DLQ jobs replayed")), w1)
    /\ Reads.replayDLQ w1
       = (Normal (Reads.mkReplayResponse 200 (Reads.Replayed 0 "DLQ jobs replayed")), w2)
    /\ eventQueue w2 = eventQueue w1
    /\ deadLetterQueue w2 = deadLetterQueue w1
    /\ ledger w2 = ledger w.
Proof.
  destruct (replayDLQJobs_run w) as (w1 & E1 & L1 & _ & D1).
  destruct (replayDLQJobs_run w1) as (w2 & E2 & L2 & Q2 & D2).
  rewrite D1, purged_none_left in E2, Q2, D2. simpl in *.
  unfold Reads.replayDLQ, try_catch, bind, ret. rewrite E1.
  do 3 eexists. split; [reflexivity|]. rewrite E2. split; [reflexivity|].
  rewrite Q2, D2, L2, L1, D1. auto.
Qed.

End Operations.

(** ** Invariants of the running system *)

(** A relation between worlds that is closed under the three things the
    system does to the ledger, an attempt of [processEvent], the final
    failure handling of the ['failed'] listener, and changes that leave
    the ledger alone, holds over every run of the system. *)

Section SystemInduction.
Import Model Facts.
Variable env : Env.
Variable R : World -> World -> Prop.
Hypothesis R_refl : forall w, R w w.
Hypothesis R_trans : forall w1 w2 w3, R w1 w2 -> R w2 w3 -> R w1 w3.
Hypothesis R_silent : forall w w', silent w w' -> R w w'.
Hypothesis R_attempt :
  forall d n w, R w (snd (Service.processEvent env d n w)).
Hypothesis R_final :
  forall job err w,
    Obs.statusOf (JobData.eventId (Bull.data job)) w <> Some ROUTED ->
    Worker.maxAttempts job <= Bull.attemptsMade job ->
    R w (snd (Worker.on_failed env (Some job) err w)).

Lemma silent_queue (q : Bull.Queue JobData.EventJobData) (w : World) :
  silent w (set_eventQueue q w).
Proof.
  split; [reflexivity|]. exists []. simpl. rewrite List.app_nil_r. auto.
Qed.

Lemma on_failed_closed (job : Bull.Job JobData.EventJobData) (err : JsError) (w : World) :
  Obs.statusOf (JobData.eventId (Bull.data job)) w <> Some ROUTED ->
  exists w', Worker.on_failed env (Some job) err w = (Normal (), w') /\ R w w'.
Proof.
  intros Hs.
  destruct (Z.le_gt_cases (Worker.maxAttempts job) (Bull.attemptsMade job)) as [Hle|Hgt].
  - destruct (on_failed_final env job err w Hle) as (w' & E & _).
    exists w'. split; [exact E|].
    pose proof (R_final job err w Hs Hle) as H. rewrite E in H. exact H.
  - exists w. split; [apply on_failed_retry; lia|apply R_refl].
Qed.

Lemma runJob_closed (fuel : nat) :
  forall (job : Bull.Job JobData.EventJobData) (w : World),
  R w (snd (Worker.runJob fuel env job w)).
Proof.
  induction fuel as [|fuel IH]; intros job w; [apply R_refl|].
  destruct (runJob_attempt env fuel job w) as (c & w1 & A & _ & E & Run).
  rewrite Run. clear Run.
  assert (H01 : R w w1).
  { eapply R_trans; [apply R_silent, silent_queue|].
    match type of E with ?p = _ => replace w1 with (snd p) by (rewrite E; reflexivity) end.
    apply R_attempt. }
  destruct c as [r|err].
  - eapply R_trans; [exact H01|apply R_silent, silent_queue].
  - pose proof (attempt_failed_status _ _ _ _ A) as Hs.
    unfold Worker.handleFailed. cbv zeta.
    set (job' := Bull.set_attemptsMade (Bull.attemptsMade job + 1) job).
    destruct (Z.ltb _ _).
    + unfold bind at 1, Worker.eventQueue_put at 1. unfold bind at 1, emit at 1.
      match goal with |- context [bind _ _ ?x] => set (w3 := x) end.
      assert (H13 : silent w1 w3).
      { split; [reflexivity|]. eexists. split; [reflexivity|]. split; reflexivity. }
      destruct (on_failed_closed job' err w3) as (w4 & E4 & H34); [exact Hs|].
      unfold bind at 1, Worker.settle. rewrite E4.
      eapply R_trans; [exact H01|]. eapply R_trans; [apply R_silent, H13|].
      eapply R_trans; [exact H34|]. apply IH.
    + unfold bind at 1, Worker.eventQueue_put at 1.
      match goal with |- context [bind _ _ ?x] => set (w3 := x) end.
      destruct (on_failed_closed job' err w3) as (w4 & E4 & H34); [exact Hs|].
      unfold bind at 1, Worker.settle. rewrite E4. simpl.
      eapply R_trans; [exact H01|]. eapply R_trans; [apply R_silent, silent_queue|].
      exact H34.
Qed.

Lemma step_closed (w w' : World) : Obs.Step env w w' -> R w w'.
Proof.
  intros [req| |fuel job Hin].
  - destruct (ingestEvent_cases env req w) as (r & w1 & t & E & L & _ & _ & T & Ht).
    rewrite E. simpl. apply R_silent. split; [exact L|]. exists t. split; [exact T|].
    destruct Ht as [-> | ->]; split; reflexivity.
  - destruct (replayLoop_run
                (Bull.getJobs [Bull.waiting; Bull.delayed] (deadLetterQueue w)) 0
                (snd (emit (QueueGetJobs EventQueue.DLQ_NAME) w)))
      as (w1 & t & E & L & _ & _ & T & T1 & T2).
    unfold EventQueue.replayDLQJobs, EventQueue.deadLetterQueue_getJobs, bind at 1, bind at 1.
    simpl in *. rewrite E. simpl. apply R_silent. split; [exact L|].
    exists (QueueGetJobs EventQueue.DLQ_NAME :: t).
    split; [rewrite T, <- List.app_assoc; reflexivity|]. simpl. auto.
  - apply runJob_closed.
Qed.

Lemma steps_closed (w w' : World) : rtc (Obs.Step env) w w' -> R w w'.
Proof.
  induction 1 as [w|w w1 w2 Hstep _ IH]; [apply R_refl|].
  eapply R_trans; [apply step_closed, Hstep|exact IH].
Qed.

End SystemInduction.

(** ** What every run keeps *)

Section Runs.
Import Model Facts.
Variable env : Env.

Lemma filter_refine {A} (p q : A -> bool) (l : list A) :
  (forall x, p x = true -> q x = true) ->
  List.filter p l = List.filter p (List.filter q l).
Proof.
  intros Hpq. induction l as [|x l IH]; simpl; [reflexivity|].
  destruct (p x) eqn:Hp.
  - rewrite (Hpq x Hp). simpl. rewrite Hp, IH. reflexivity.
  - destruct (q x); simpl; [rewrite Hp|]; exact IH.
Qed.

Lemma filter_none {A} (p q : A -> bool) (l : list A) :
  (forall x, p x = true -> q x = true) ->
  List.filter q l = [] -> List.filter p l = [].
Proof.
  intros Hpq Hq. rewrite (filter_refine p q l Hpq), Hq. reflexivity.
Qed.

Lemma routed_update_is_status (i : string) (e : Effect) :
  is_routed_update i e = true -> Obs.is_status_update e = true.
Proof. destruct e as [| |j [[]|]| | | | |]; simpl; congruence. Qed.

Lemma routed_update_is_ledger (i : string) (e : Effect) :
  is_routed_update i e = true -> Obs.is_ledger e = true.
Proof. destruct e as [| |j [[]|]| | | | |]; simpl; congruence. Qed.


Lemma attemptsOf_update (i : string) (f : IEvent -> IEvent) (w w' : World) :
  (forall e, eventId (f e) = eventId e) ->
  ledger w' = snd (Mongoose.update_first i f (ledger w)) ->
  forall j, attemptsOf j w'
            = if String.eqb i j
              then default 0 ((fun e => attempts (f e)) <$> Obs.row i (ledger w))
              else attemptsOf j w.
Proof.
  intros Hf Hl j. unfold attemptsOf. rewrite Hl.
  destruct (String.eqb_spec i j) as [<-|Hij].
  - rewrite update_first_row by exact Hf. destruct (Obs.row i (ledger w)); reflexivity.
  - rewrite update_first_other by assumption. reflexivity.
Qed.

Lemma attemptsOf_insert (e : IEvent) (w w' : World) :
  Obs.row (eventId e) (ledger w) = None ->
  ledger w' = ledger w ++ [e] ->
  forall j, attemptsOf j w'
            = if String.eqb (eventId e) j then attempts e else attemptsOf j w.
Proof.
  intros Hn Hl j. unfold attemptsOf. rewrite Hl.
  destruct (String.eqb_spec (eventId e) j) as [<-|Hj].
  - rewrite row_app_fresh by auto. reflexivity.
  - rewrite row_app_other by exact Hj. reflexivity.
Qed.

Lemma processEvent_routed_trace (d : JobData.EventJobData) (n : Z) (w : World) (e : IEvent) :
  Obs.row (JobData.eventId d) (ledger w) = Some e ->
  status e = ROUTED ->
  exists w',
    Service.processEvent env d n w
      = (Normal (Service.mkResult true "Event already processed (idempotent skip)"), w')
    /\ ledger w' = ledger w
    /\ trace w' = trace w ++ [LedgerFind (JobData.eventId d); LedgerFind (JobData.eventId d)].
Proof.
  intros Hr Hs. destruct w as [l q dq c r u t]. simpl in *.
  unfold Obs.row in Hr.
  unfold Service.processEvent, Repository.eventExists, Repository.getEventById,
    Mongoose.findOne, bind, emit, ret; simpl.
  rewrite Hr. simpl. rewrite Hr. simpl.
  rewrite Hs. simpl. eexists. split; [reflexivity|]. simpl.
  rewrite <- List.app_assoc. split; reflexivity.
Qed.

(** One attempt, summed up: what it does to the statuses, which routing
    call and which status update it makes, and how it counts. *)
Lemma processEvent_summary (d : JobData.EventJobData) (n : Z) (w : World) :
  let i := JobData.eventId d in
  let done := bool_decide (Obs.statusOf i w = Some ROUTED) in
  let skip := done || (bool_decide (Obs.statusOf i w = None) && negb (Obs.valid d)) in
  exists c w' t,
    Service.processEvent env d n w = (c, w')
    /\ trace w' = trace w ++ t
    /\ Obs.attempt i w w' c
    /\ List.filter Obs.is_route t
       = (if skip then [] else [RouteCall i (ROUTING_DELAY_MS env)])
    /\ List.filter Obs.is_status_update t
       = match c with
         | Normal _ => if done then [] else [LedgerUpdate i (Some ROUTED)]
         | Throw _ => []
         end
    /\ forall j, attemptsOf j w'
                 = attemptsOf j w + (if skip then 0 else if String.eqb i j then 1 else 0).
Proof.
  intros i done skip.
  destruct (processEvent_attempt env d n w) as (c & w' & E & A & _).
  exists c, w'. fold i in A.
  assert (Hdone : forall e, Obs.row i (ledger w) = Some e -> status e <> ROUTED ->
                            done = false /\ skip = false).
  { intros e Hr Hs. unfold skip, done, Obs.statusOf. rewrite Hr. simpl.
    repeat case_bool_decide; try congruence; split; reflexivity. }
  assert (Hskip : forall e, Obs.row i (ledger w) = Some e -> status e <> ROUTED -> skip = false)
    by (intros e Hr Hs; apply (Hdone e Hr Hs)).
  assert (Hnew : Obs.row i (ledger w) = None -> done = false /\ skip = negb (Obs.valid d)).
  { intros Hr. unfold skip, done, Obs.statusOf. rewrite Hr. simpl.
    repeat case_bool_decide; try congruence; split; reflexivity. }
  destruct (Obs.row i (ledger w)) as [e|] eqn:Hr;
    [destruct (decide (status e = ROUTED)) as [Hs|Hs]
    |destruct (Obs.valid d) eqn:Hv];
    [|destruct (Obs.routing_fails env (randomDraws w)) eqn:Hf..|].
  - destruct (processEvent_routed_trace d n w e Hr Hs) as (w1 & E1 & L & T).
    rewrite E1 in E. injection E as <- <-.
    assert (Hsk : done = true /\ skip = true).
    { unfold skip, done, Obs.statusOf. fold i in Hr. rewrite Hr. simpl.
      repeat case_bool_decide; try congruence; split; reflexivity. }
    destruct Hsk as [-> ->]. eexists. split; [exact E1|]. split; [exact T|].
    split; [exact A|]. do 2 (split; [reflexivity|]).
    intros j. unfold attemptsOf. rewrite L. lia.
  - destruct (processEvent_existing_fail env d n w e Hr Hs Hf) as (w1 & E1 & L & _ & _ & T & _).
    rewrite E1 in E. injection E as <- <-.
    rewrite (Hskip e eq_refl Hs). eexists. split; [exact E1|]. split; [exact T|].
    split; [exact A|]. do 2 (split; [reflexivity|]).
    intros j. pose proof (fun H => attemptsOf_update _ _ _ _ H L j) as Hj.
    rewrite Hj by (intros; reflexivity). clear Hj. simpl.
    fold i. destruct (String.eqb_spec i j) as [<-|]; [|lia].
    unfold attemptsOf. fold i in Hr. rewrite Hr. reflexivity.
  - destruct (processEvent_existing_ok env d n w e Hr Hs Hf) as (w1 & E1 & L & _ & _ & T & _).
    rewrite E1 in E. injection E as <- <-.
    destruct (Hdone e eq_refl Hs) as [-> ->].
    eexists. split; [exact E1|]. split; [exact T|].
    split; [exact A|]. do 2 (split; [reflexivity|]).
    intros j. unfold attemptsOf. rewrite L. fold i. fold i in Hr.
    destruct (String.eqb_spec i j) as [<-|Hij].
    + rewrite !update_first_row by (intros; reflexivity). rewrite Hr. reflexivity.
    + rewrite !update_first_other by (auto; intros; reflexivity). lia.
  - destruct (processEvent_new_fail env d n w Hr Hv Hf) as (w1 & E1 & L & _ & _ & T & _).
    rewrite E1 in E. injection E as <- <-.
    destruct (Hnew eq_refl) as [_ ->]. eexists. split; [exact E1|]. split; [exact T|].
    split; [exact A|]. do 2 (split; [reflexivity|]).
    intros j. pose proof (fun H => attemptsOf_insert _ _ _ H L j) as Hj.
    rewrite Hj by exact Hr. simpl. fold i.
    destruct (String.eqb_spec i j) as [<-|]; [|lia].
    unfold attemptsOf. fold i in Hr. rewrite Hr. reflexivity.
  - destruct (processEvent_new_ok env d n w Hr Hv Hf) as (w1 & E1 & L & _ & _ & T & _).
    rewrite E1 in E. injection E as <- <-.
    destruct (Hnew eq_refl) as [-> ->]. eexists. split; [exact E1|]. split; [exact T|].
    split; [exact A|]. do 2 (split; [reflexivity|]).
    intros j. pose proof (fun H => attemptsOf_insert _ _ _ H L j) as Hj.
    rewrite Hj by exact Hr. simpl. fold i.
    destruct (String.eqb_spec i j) as [<-|]; [|lia].
    unfold attemptsOf. fold i in Hr. rewrite Hr. reflexivity.
  - destruct (processEvent_new_invalid env d n w Hr Hv) as (err & w1 & E1 & L & _ & _ & T & _).
    rewrite E1 in E. injection E as <- <-.
    destruct (Hnew eq_refl) as [_ ->]. eexists. split; [exact E1|]. split; [exact T|].
    split; [exact A|]. do 2 (split; [reflexivity|]).
    intros j. unfold attemptsOf. rewrite L. simpl. lia.
Qed.


(** *** Rows persist *)

Lemma keeps_refl (e : IEvent) : keeps e e.
Proof. unfold keeps. repeat split; lia. Qed.

Lemma keeps_trans (a b c : IEvent) : keeps a b -> keeps b c -> keeps a c.
Proof.
  unfold keeps. intros (A1 & A2 & A3 & A4 & A5 & A6) (B1 & B2 & B3 & B4 & B5 & B6).
  repeat split; try congruence. lia.
Qed.

Lemma keeps_eventId (f : IEvent -> IEvent) :
  (forall e, keeps e (f e)) -> forall e, eventId (f e) = eventId e.
Proof. intros H e. destruct (H e) as [He _]. exact He. Qed.

Lemma persists_refl (l : list IEvent) : persists l l.
Proof. intros i e H. exists e. split; [exact H|apply keeps_refl]. Qed.

Lemma persists_trans (l1 l2 l3 : list IEvent) :
  persists l1 l2 -> persists l2 l3 -> persists l1 l3.
Proof.
  intros H12 H23 i e H. destruct (H12 i e H) as (e2 & H2 & K2).
  destruct (H23 i e2 H2) as (e3 & H3 & K3).
  exists e3. split; [exact H3|]. eapply keeps_trans; eassumption.
Qed.

Lemma persists_update (i : string) (f : IEvent -> IEvent) (l : list IEvent) :
  (forall e, keeps e (f e)) -> persists l (snd (Mongoose.update_first i f l)).
Proof.
  intros Hf j e Hj. pose proof (keeps_eventId f Hf) as Hid.
  destruct (decide (i = j)) as [<-|Hij].
  - rewrite update_first_row by exact Hid. rewrite Hj. simpl. eauto.
  - rewrite update_first_other by assumption. exists e. split; [exact Hj|apply keeps_refl].
Qed.

Lemma persists_insert (e : IEvent) (l : list IEvent) : persists l (l ++ [e]).
Proof.
  intros j x Hj. exists x. split; [|apply keeps_refl].
  unfold Obs.row in *. induction l as [|y l IH]; simpl in *; [discriminate|].
  destruct (Mongoose.matches j y); [exact Hj|auto].
Qed.

Lemma keeps_increment (now : Z) (e : IEvent) : keeps e (Repository.incrementUpdate now e).
Proof. unfold keeps. simpl. repeat split; lia. Qed.

Lemma keeps_routed (t1 t2 : Z) (e : IEvent) : keeps e (Repository.routedUpdate t1 t2 e).
Proof. unfold keeps. simpl. repeat split; lia. Qed.

Lemma keeps_failed (err : string) (now : Z) (e : IEvent) :
  keeps e (Repository.failedUpdate err now e).
Proof. unfold keeps. simpl. repeat split; lia. Qed.

Lemma processEvent_persists (d : JobData.EventJobData) (n : Z) (w : World) :
  persists (ledger w) (ledger (snd (Service.processEvent env d n w))).
Proof.
  destruct (Obs.row (JobData.eventId d) (ledger w)) as [e|] eqn:Hr;
    [destruct (decide (status e = ROUTED)) as [Hs|Hs]|destruct (Obs.valid d) eqn:Hv];
    [|destruct (Obs.routing_fails env (randomDraws w)) eqn:Hf..|].
  - destruct (processEvent_existing_routed env d n w e Hr Hs) as (w1 & E1 & L & _).
    rewrite E1. simpl. rewrite L. apply persists_refl.
  - destruct (processEvent_existing_fail env d n w e Hr Hs Hf) as (w1 & E1 & L & _).
    rewrite E1. simpl. rewrite L. apply persists_update, keeps_increment.
  - destruct (processEvent_existing_ok env d n w e Hr Hs Hf) as (w1 & E1 & L & _).
    rewrite E1. simpl. rewrite L.
    eapply persists_trans; [apply persists_update, keeps_increment|].
    apply persists_update, keeps_routed.
  - destruct (processEvent_new_fail env d n w Hr Hv Hf) as (w1 & E1 & L & _).
    rewrite E1. simpl. rewrite L. apply persists_insert.
  - destruct (processEvent_new_ok env d n w Hr Hv Hf) as (w1 & E1 & L & _).
    rewrite E1. simpl. rewrite L. apply persists_insert.
  - destruct (processEvent_new_invalid env d n w Hr Hv) as (err & w1 & E1 & L & _).
    rewrite E1. simpl. rewrite L. apply persists_refl.
Qed.

(** X17. No operation of the system deletes or re-identifies a ledger
    row: over any run (ingestion, replay, jobs taken through their
    attempts), a row that is in the ledger is still there afterwards with
    the same [eventId], [type], [payload], [correlationId] and
    [createdAt], and with at least the attempts it had. *)
Theorem ledger_rows_persist (w w' : World) :
  rtc (Obs.Step env) w w' -> persists (ledger w) (ledger w').
Proof.
  apply (steps_closed env (fun w w' => persists (ledger w) (ledger w'))).
  - intros w0. apply persists_refl.
  - intros w1 w2 w3. apply persists_trans.
  - intros w0 w1 [L _]. rewrite L. apply persists_refl.
  - apply processEvent_persists.
  - intros job err w0 _ Hle.
    destruct (on_failed_final env job err w0 Hle) as (w1 & E & L & _).
    rewrite E. simpl. rewrite L. apply persists_update, keeps_failed.
Qed.

(** *** The unique index *)

Lemma rows_update (i j : string) (f : IEvent -> IEvent) (l : list IEvent) :
  (forall e, eventId (f e) = eventId e) ->
  Obs.rows j (snd (Mongoose.update_first i f l)) = Obs.rows j l.
Proof.
  intros Hf. unfold Obs.rows. induction l as [|x l IH]; simpl; [reflexivity|].
  destruct (Mongoose.matches i x); simpl.
  - unfold Mongoose.matches. rewrite Hf. destruct (String.eqb (eventId x) j); reflexivity.
  - destruct (Mongoose.update_first i f l); simpl in *.
    destruct (Mongoose.matches j x); simpl; rewrite IH; reflexivity.
Qed.

Lemma unique_update (i : string) (f : IEvent -> IEvent) (l : list IEvent) :
  (forall e, eventId (f e) = eventId e) ->
  unique_index l -> unique_index (snd (Mongoose.update_first i f l)).
Proof. intros Hf Hu j. rewrite rows_update by exact Hf. apply Hu. Qed.

Lemma unique_insert (e : IEvent) (l : list IEvent) :
  Obs.row (eventId e) l = None -> unique_index l -> unique_index (l ++ [e]).
Proof.
  intros Hn Hu j. rewrite rows_app. unfold Obs.rows at 2. simpl.
  destruct (Mongoose.matches j e) eqn:Hm; simpl.
  - unfold Mongoose.matches in Hm. apply String.eqb_eq in Hm. subst j.
    apply row_rows_0 in Hn. rewrite Hn. lia.
  - specialize (Hu j). lia.
Qed.

Lemma processEvent_unique (d : JobData.EventJobData) (n : Z) (w : World) :
  unique_index (ledger w) -> unique_index (ledger (snd (Service.processEvent env d n w))).
Proof.
  intros Hu.
  destruct (Obs.row (JobData.eventId d) (ledger w)) as [e|] eqn:Hr;
    [destruct (decide (status e = ROUTED)) as [Hs|Hs]|destruct (Obs.valid d) eqn:Hv];
    [|destruct (Obs.routing_fails env (randomDraws w)) eqn:Hf..|].
  - destruct (processEvent_existing_routed env d n w e Hr Hs) as (w1 & E1 & L & _).
    rewrite E1. simpl. rewrite L. exact Hu.
  - destruct (processEvent_existing_fail env d n w e Hr Hs Hf) as (w1 & E1 & L & _).
    rewrite E1. simpl. rewrite L. apply unique_update; [reflexivity|exact Hu].
  - destruct (processEvent_existing_ok env d n w e Hr Hs Hf) as (w1 & E1 & L & _).
    rewrite E1. simpl. rewrite L.
    apply unique_update; [reflexivity|]. apply unique_update; [reflexivity|exact Hu].
  - destruct (processEvent_new_fail env d n w Hr Hv Hf) as (w1 & E1 & L & _).
    rewrite E1. simpl. rewrite L. apply unique_insert; [exact Hr|exact Hu].
  - destruct (processEvent_new_ok env d n w Hr Hv Hf) as (w1 & E1 & L & _).
    rewrite E1. simpl. rewrite L. apply unique_insert; [exact Hr|exact Hu].
  - destruct (processEvent_new_invalid env d n w Hr Hv) as (err & w1 & E1 & L & _).
    rewrite E1. simpl. rewrite L. exact Hu.
Qed.

(** X18. The ledger never holds two rows for one [eventId]: a ledger
    that respects the unique index still does after any run of the
    system, since a row is only inserted for an [eventId] that has none
    and no update changes an [eventId]. *)
Theorem unique_index_preserved (w w' : World) :
  rtc (Obs.Step env) w w' -> unique_index (ledger w) -> unique_index (ledger w').
Proof.
  apply (steps_closed env (fun w w' => unique_index (ledger w) -> unique_index (ledger w'))).
  - auto.
  - auto.
  - intros w0 w1 [L _]. rewrite L. auto.
  - apply processEvent_unique.
  - intros job err w0 _ Hle Hu.
    destruct (on_failed_final env job err w0 Hle) as (w1 & E & L & _).
    rewrite E. simpl. rewrite L. apply unique_update; [reflexivity|exact Hu].
Qed.

End Runs.

(** ** Exactly-once routing and the attempts counter *)

Section Accounting.
Import Model Facts.
Variable env : Env.

Lemma statusOf_ledger (w w' : World) (j : string) :
  ledger w' = ledger w -> Obs.statusOf j w' = Obs.statusOf j w.
Proof. intros L. unfold Obs.statusOf. rewrite L. reflexivity. Qed.

Lemma routed_once_refl (w : World) : routed_once w w.
Proof.
  exists []. split; [symmetry; apply List.app_nil_r|]. intros i. simpl.
  repeat split; auto; congruence.
Qed.

Lemma routed_once_trans (w1 w2 w3 : World) :
  routed_once w1 w2 -> routed_once w2 w3 -> routed_once w1 w3.
Proof.
  intros (t1 & T1 & H1) (t2 & T2 & H2). exists (t1 ++ t2).
  split; [rewrite T2, T1, List.app_assoc; reflexivity|].
  intros i. destruct (H1 i) as (A1 & B1 & C1). destruct (H2 i) as (A2 & B2 & C2).
  rewrite List.filter_app, List.length_app.
  destruct (List.filter (is_routed_update i) t1) as [|x l1] eqn:F1.
  - simpl. split; [exact A2|]. split.
    + intros Hs. destruct (B1 Hs) as [_ Hs2]. exact (B2 Hs2).
    + exact C2.
  - assert (Hs2 : Obs.statusOf i w2 = Some ROUTED) by (apply C1; discriminate).
    destruct (B2 Hs2) as [F2 Hs3]. rewrite F2, List.app_nil_r, Nat.add_0_r.
    split; [exact A1|]. split.
    + intros Hs. destruct (B1 Hs) as [F _]. discriminate.
    + intros _. exact Hs3.
Qed.

Lemma routed_once_silent (w w' : World) : silent w w' -> routed_once w w'.
Proof.
  intros (L & t & T & T1 & _). exists t. split; [exact T|]. intros i.
  rewrite (filter_none _ _ t (routed_update_is_ledger i) T1). simpl.
  rewrite (statusOf_ledger w w' i L). repeat split; auto; congruence.
Qed.

Lemma routed_once_attempt (d : JobData.EventJobData) (n : Z) (w : World) :
  routed_once w (snd (Service.processEvent env d n w)).
Proof.
  destruct (processEvent_summary env d n w) as (c & w' & t & E & T & A & _ & U & _).
  rewrite E. simpl. exists t. split; [exact T|]. intros j.
  rewrite (filter_refine _ _ t (routed_update_is_status j)), U. clear U.
  destruct A as [Hs Hl|Hs Hs' Ho|Hs Hs' Ho|err Hs Hl].
  - rewrite bool_decide_eq_true_2 by exact Hs. simpl.
    rewrite (statusOf_ledger w w' j Hl). repeat split; auto; congruence.
  - rewrite bool_decide_eq_false_2 by exact Hs. simpl.
    destruct (String.eqb_spec (JobData.eventId d) j) as [<-|Hj]; simpl.
    + split; [lia|]. split; [contradiction|auto].
    + rewrite (Ho j Hj). repeat split; auto; congruence.
  - simpl. split; [lia|]. split; [|congruence].
    intros Hr. split; [reflexivity|].
    destruct (decide (JobData.eventId d = j)) as [<-|Hj]; [contradiction|].
    rewrite (Ho j Hj). exact Hr.
  - simpl. rewrite (statusOf_ledger w w' j Hl). repeat split; auto; congruence.
Qed.

Lemma routed_once_final (job : Bull.Job JobData.EventJobData) (err : JsError) (w : World) :
  Obs.statusOf (JobData.eventId (Bull.data job)) w <> Some ROUTED ->
  Worker.maxAttempts job <= Bull.attemptsMade job ->
  routed_once w (snd (Worker.on_failed env (Some job) err w)).
Proof.
  intros Hs Hle.
  destruct (on_failed_final env job err w Hle) as (w' & E & L & _ & _ & T & _).
  rewrite E. simpl. eexists. split; [exact T|]. intros j. simpl.
  apply statusOf_update in L as [_ L2]; [|intros; reflexivity].
  split; [lia|]. split; [|congruence].
  intros Hr. split; [reflexivity|].
  destruct (decide (JobData.eventId (Bull.data job) = j)) as [<-|Hj]; [contradiction|].
  rewrite (L2 j Hj). exact Hr.
Qed.

(** X19. Exactly-once routing holds when the operations follow one
    another, and is lost when they overlap. Over any run in which they
    follow one another (ingestion, replay, jobs taken through their
    attempts, in any order and however often an event is delivered), each
    [eventId] is marked [ROUTED] at most once; it is not marked again
    when its row was [ROUTED] at the start, and once marked its row is
    [ROUTED] at the end. But two jobs for one event in flight together,
    the second passing its idempotency check before the first marks the
    row, both call the routing service and both mark the row [ROUTED]. *)
Theorem routed_at_most_once (w : World) (i : string) :
  (forall w', rtc (Obs.Step env) w w' ->
     (length (List.filter (is_routed_update i) (Obs.since w w')) <= 1)%nat
     /\ (Obs.statusOf i w = Some ROUTED ->
         List.filter (is_routed_update i) (Obs.since w w') = [])
     /\ (List.filter (is_routed_update i) (Obs.since w w') <> [] ->
         Obs.statusOf i w' = Some ROUTED))
  /\ (forall (jobA jobB : Bull.Job JobData.EventJobData) (e : IEvent) (fa fb : nat),
        JobData.eventId (Bull.data jobA) = i -> JobData.eventId (Bull.data jobB) = i ->
        Obs.row i (ledger w) = Some e -> status e <> ROUTED ->
        Obs.routing_fails env (randomDraws w) = false ->
        Obs.routing_fails env (S (randomDraws w)) = false ->
        exists w',
          Tasks.exec env (List.map Tasks.Resume Tasks.second_checks_before_first_marks)
            ([Tasks.runJob (S fa) jobA; Tasks.runJob (S fb) jobB], w)
          = ([Tasks.Done (Normal Worker.JobCompleted);
              Tasks.Done (Normal Worker.JobCompleted)], w')
          /\ List.filter (is_routed_update i) (Obs.since w w')
             = [LedgerUpdate i (Some ROUTED); LedgerUpdate i (Some ROUTED)]
          /\ List.filter (is_route_to i) (Obs.since w w')
             = [RouteCall i (ROUTING_DELAY_MS env); RouteCall i (ROUTING_DELAY_MS env)]).
Proof.
  split.
  - intros w' Hrun.
    assert (H : routed_once w w').
    { revert Hrun. apply (steps_closed env routed_once).
      - apply routed_once_refl.
      - apply routed_once_trans.
      - apply routed_once_silent.
      - apply routed_once_attempt.
      - apply routed_once_final. }
    destruct H as (t & T & H). rewrite (since_app w w' t T).
    destruct (H i) as (A & B & C). split; [exact A|]. split; [|exact C].
    intros Hs. apply B. exact Hs.
  - intros jobA jobB e fa fb Ha Hb Hr Hs Hf1 Hf2.
    destruct (overlap_routes_twice env jobA jobB w i e fa fb Ha Hb Hr Hs Hf1 Hf2)
      as (w' & E & T).
    exists w'. split; [exact E|]. rewrite T. simpl. rewrite String.eqb_refl.
    split; reflexivity.
Qed.








End Accounting.

(** ** How a job ends *)

Section JobEnd.
Import Model Facts.
Variable env : Env.

Lemma attempt_normal_routed (i : string) (w w' : World) (r : Service.ProcessResult) :
  Obs.attempt i w w' (Normal r) -> Obs.statusOf i w' = Some ROUTED.
Proof.
  intros A. inversion A as [Hs Hl| | |]; subst; [|assumption].
  unfold Obs.statusOf in *. rewrite Hl. exact Hs.
Qed.

(** An attempt that throws, on data that can be processed: the routing
    service was called and failed, and the event has a row that is not
    [ROUTED]. *)
Lemma processEvent_throw (d : JobData.EventJobData) (n : Z) (w w' : World) (err : JsError) :
  Obs.processable d w ->
  Service.processEvent env d n w = (Throw err, w') ->
  err = Service.routingError
  /\ Obs.statusOf (JobData.eventId d) w <> Some ROUTED
  /\ exists s, Obs.statusOf (JobData.eventId d) w' = Some s /\ s <> ROUTED.
Proof.
  intros Hp E.
  destruct (decide (Obs.statusOf (JobData.eventId d) w = Some ROUTED)) as [Hs|Hs].
  - unfold Obs.statusOf in Hs.
    destruct (Obs.row (JobData.eventId d) (ledger w)) as [e|] eqn:Hr; [|discriminate].
    destruct (processEvent_existing_routed env d n w e Hr) as (w1 & E1 & _);
      [simpl in Hs; congruence|].
    rewrite E1 in E. discriminate.
  - destruct (Obs.routing_fails env (randomDraws w)) eqn:Hf.
    + destruct (processEvent_fail env d n w Hs Hp Hf)
        as (w1 & t1 & E1 & _ & _ & _ & _ & _ & _ & S1).
      rewrite E1 in E. injection E as <- <-. split; [reflexivity|]. split; [exact Hs|].
      eexists. split; [exact S1|].
      destruct (Obs.statusOf (JobData.eventId d) w) as [[]|]; simpl; congruence.
    + unfold Obs.processable, Obs.statusOf in *.
      destruct (Obs.row (JobData.eventId d) (ledger w)) as [e|] eqn:Hr.
      * destruct (processEvent_existing_ok env d n w e Hr) as (w1 & E1 & _);
          [simpl in Hs; congruence|exact Hf|].
        rewrite E1 in E. discriminate.
      * destruct (processEvent_new_ok env d n w Hr (Hp eq_refl) Hf) as (w1 & E1 & _).
        rewrite E1 in E. discriminate.
Qed.

Lemma routes_when_processable (d : JobData.EventJobData) (w : World) :
  Obs.statusOf (JobData.eventId d) w <> Some ROUTED -> Obs.processable d w ->
  bool_decide (Obs.statusOf (JobData.eventId d) w = Some ROUTED)
  || (bool_decide (Obs.statusOf (JobData.eventId d) w = None) && negb (Obs.valid d)) = false.
Proof.
  intros Hs Hp. rewrite bool_decide_eq_false_2 by exact Hs. simpl.
  case_bool_decide as H; [rewrite (Hp H)|]; reflexivity.
Qed.

Lemma runJob_settles_from (k : nat) :
  forall (job : Bull.Job JobData.EventJobData) (w : World) (fuel : nat),
  Bull.attempts (Bull.opts job) = Bull.attemptsMade job + Z.of_nat (S k) ->
  0 <= Bull.attemptsMade job ->
  Obs.processable (Bull.data job) w ->
  (S k <= fuel)%nat ->
  exists o w' t,
    Worker.runJob fuel env job w = (Normal o, w')
    /\ trace w' = trace w ++ t
    /\ (length (List.filter Obs.is_route t) <= S k)%nat
    /\ ((o = Worker.JobCompleted
         /\ Obs.statusOf (JobData.eventId (Bull.data job)) w' = Some ROUTED
         /\ deadLetterQueue w' = deadLetterQueue w)
        \/ (o = Worker.JobFailed Service.routingError
            /\ Obs.statusOf (JobData.eventId (Bull.data job)) w' = Some FAILED
            /\ length (List.filter Obs.is_route t) = S k
            /\ exists failedAt,
                 deadLetterQueue w'
                 = snd (Bull.addJob "failed-event"
                          (JobData.mkDLQData (Bull.data job)
                             (message Service.routingError) failedAt
                             (Bull.attempts (Bull.opts job)))
                          None (deadLetterQueue w)))).
Proof.
  induction k as [|k IH]; intros job w fuel Hatt Hmade Hproc Hfuel;
    (destruct fuel as [|fuel]; [lia|]);
    destruct (runJob_attempt env fuel job w) as (c & w1 & A & D1 & E & R);
    set (w0 := set_eventQueue (Bull.put (Bull.set_state Bull.active job) (eventQueue w)) w) in *;
    destruct (processEvent_summary env (Bull.data job) (Bull.attemptsMade job) w0)
      as (c' & w1' & t1 & E1 & T1 & _ & C1 & _);
    rewrite E1 in E; injection E as <- <-; rewrite R; clear R;
    assert (Hc1 : (length (List.filter Obs.is_route t1) <= 1)%nat)
      by (rewrite C1; destruct (_ || _); simpl; lia);
    (destruct c' as [r|err];
     [ exists Worker.JobCompleted; eexists; exists t1;
       split; [reflexivity|]; split; [exact T1|]; split; [lia|];
       left; split; [reflexivity|]; split; [exact (attempt_normal_routed _ _ _ _ A)|exact D1]
     | ]);
    destruct (processEvent_throw _ _ w0 _ _ Hproc E1) as (-> & Hs0 & s & Hs & Hns);
    assert (Hfail : length (List.filter Obs.is_route t1) = 1%nat)
      by (rewrite C1, (routes_when_processable _ w0 Hs0 Hproc); reflexivity);
    unfold Worker.handleFailed; cbv zeta;
    set (job' := Bull.set_attemptsMade (Bull.attemptsMade job + 1) job);
    assert (Hmade' : Bull.attemptsMade job' = Bull.attemptsMade job + 1) by reflexivity;
    assert (Hopts' : Bull.opts job' = Bull.opts job) by reflexivity;
    assert (Hmax' : Worker.maxAttempts job' = Bull.attempts (Bull.opts job))
      by (unfold Worker.maxAttempts; rewrite Hopts';
          destruct (Z.eqb_spec (Bull.attempts (Bull.opts job)) 0); lia).
  - (* the last attempt *)
    destruct (Z.ltb_spec (Bull.attemptsMade job') (Bull.attempts (Bull.opts job')));
      [rewrite Hmade', Hopts' in *; lia|].
    unfold bind at 1, Worker.eventQueue_put at 1.
    match goal with |- context [set_eventQueue ?q w1'] => set (w2 := set_eventQueue q w1') end.
    destruct (on_failed_final env job' Service.routingError w2) as (w3 & E3 & L3 & Q3 & D3 & T3 & _).
    { lia. }
    unfold bind at 1, Worker.settle. rewrite E3.
    exists (Worker.JobFailed Service.routingError), w3,
      (t1 ++ [LedgerUpdate (JobData.eventId (Bull.data job)) (Some FAILED);
              QueueAdd EventQueue.DLQ_NAME "failed-event"]).
    split; [reflexivity|].
    split; [rewrite T3; simpl; rewrite T1; simpl; rewrite <- List.app_assoc; reflexivity|].
    rewrite List.filter_app, List.length_app. simpl.
    split; [lia|]. right. split; [reflexivity|]. split; [|split; [lia|]].
    + apply statusOf_update in L3 as [L3 _]; [|intros; reflexivity].
      simpl in L3. rewrite L3. change (ledger w2) with (ledger w1').
      unfold Obs.statusOf in Hs. destruct (Obs.row _ (ledger w1')); [reflexivity|discriminate].
    + eexists. rewrite D3. simpl. rewrite D1. simpl.
      replace (Bull.attemptsMade job + 1) with (Bull.attempts (Bull.opts job)) by lia.
      reflexivity.
  - (* an attempt that is retried *)
    destruct (Z.ltb_spec (Bull.attemptsMade job') (Bull.attempts (Bull.opts job')));
      [|rewrite Hmade', Hopts' in *; lia].
    unfold bind at 1, Worker.eventQueue_put at 1.
    match goal with |- context [set_eventQueue ?q w1'] => set (w2 := set_eventQueue q w1') end.
    unfold bind at 1, emit at 1.
    match goal with |- context [bind _ _ ?x] => set (w3 := x) end.
    unfold bind at 1, Worker.settle.
    rewrite on_failed_retry by lia.
    assert (S3 : Obs.statusOf (JobData.eventId (Bull.data job)) w3 = Some s) by exact Hs.
    destruct (IH job' w3 fuel) as (o & w' & t & E' & T' & C' & Hend);
      [unfold job'; simpl; lia|unfold job'; simpl; lia
      |unfold Obs.processable, job'; simpl; rewrite S3; discriminate|lia|].
    rewrite E'.
    exists o, w', (t1 ++ RetryScheduled (Bull.id job)
                     (Bull.exponential (Bull.backoff_delay (Bull.opts job))
                        (Bull.attemptsMade job + 1 - 1)) :: t).
    split; [reflexivity|].
    split; [rewrite T'; unfold w3; simpl; rewrite T1; simpl; rewrite <- !List.app_assoc; reflexivity|].
    rewrite List.filter_app, List.length_app. simpl.
    split; [lia|].
    change (deadLetterQueue w3) with (deadLetterQueue w1') in Hend.
    rewrite D1 in Hend. simpl in Hend.
    destruct Hend as [(-> & S' & D')|(-> & S' & N' & fa & D')].
    + left. auto.
    + right. split; [reflexivity|]. split; [exact S'|]. split; [lia|].
      exists fa. exact D'.
Qed.

(** X21. A job always ends: for a job with attempts left, the worker,
    given fuel for them, never leaves it pending. Either the job
    completes, its event is [ROUTED] and the dead-letter queue is as
    before; or every attempt left has failed, the job has failed with the
    routing error, its event is [FAILED] and the dead-letter queue has
    gained exactly the entry for it. The routing service is called at
    most once per attempt left. The data of a job whose event has no row
    yet is taken to pass the validators of the schema. *)
Theorem runJob_settles
    (job : Bull.Job JobData.EventJobData) (w : World) (fuel : nat) :
  0 <= Bull.attemptsMade job < Bull.attempts (Bull.opts job) ->
  Obs.processable (Bull.data job) w ->
  (Z.to_nat (Bull.attempts (Bull.opts job) - Bull.attemptsMade job) <= fuel)%nat ->
  exists o w',
    Worker.runJob fuel env job w = (Normal o, w')
    /\ Z.of_nat (length (List.filter Obs.is_route (Obs.since w w')))
       <= Bull.attempts (Bull.opts job) - Bull.attemptsMade job
    /\ ((o = Worker.JobCompleted
         /\ Obs.statusOf (JobData.eventId (Bull.data job)) w' = Some ROUTED
         /\ deadLetterQueue w' = deadLetterQueue w)
        \/ (o = Worker.JobFailed Service.routingError
            /\ Obs.statusOf (JobData.eventId (Bull.data job)) w' = Some FAILED
            /\ exists failedAt,
                 deadLetterQueue w'
                 = snd (Bull.addJob "failed-event"
                          (JobData.mkDLQData (Bull.data job)
                             (message Service.routingError) failedAt
                             (Bull.attempts (Bull.opts job)))
                          None (deadLetterQueue w)))).
Proof.
  intros Hleft Hproc Hfuel.
  set (k := Z.to_nat (Bull.attempts (Bull.opts job) - Bull.attemptsMade job - 1)).
  destruct (runJob_settles_from k job w fuel) as (o & w' & t & E & T & C & Hend);
    [unfold k; lia|lia|exact Hproc|unfold k; lia|].
  exists o, w'. split; [exact E|]. rewrite (since_app w w' t T).
  split; [unfold k in C; lia|].
  destruct Hend as [H|(Ho & Hs & _ & Hd)]; [left; exact H|right; auto].
Qed.

(** X22. The fallback [job.opts.attempts || 5] of the ['failed'] listener
    loses events when the configured maximum is 0: the job then fails
    after its first failed attempt, but the listener waits for 5 attempts,
    so the event is neither marked [FAILED] nor added to the dead-letter
    queue; its row stays as the attempt left it. The data of a job whose
    event has no row yet is taken to pass the validators of the schema. *)
Theorem zero_attempts_job_is_not_dead_lettered
    (job : Bull.Job JobData.EventJobData) (w : World) (fuel : nat) :
  Bull.attempts (Bull.opts job) = 0 ->
  Bull.attemptsMade job = 0 ->
  Obs.statusOf (JobData.eventId (Bull.data job)) w <> Some ROUTED ->
  Obs.processable (Bull.data job) w ->
  Obs.routing_fails env (randomDraws w) = true ->
  (1 <= fuel)%nat ->
  exists w',
    Worker.runJob fuel env job w = (Normal (Worker.JobFailed Service.routingError), w')
    /\ deadLetterQueue w' = deadLetterQueue w
    /\ List.filter Obs.is_failed_update (Obs.since w w') = []
    /\ List.filter Obs.is_dlq_add (Obs.since w w') = []
    /\ Obs.statusOf (JobData.eventId (Bull.data job)) w'
       = Some (default ROUTING_PENDING (Obs.statusOf (JobData.eventId (Bull.data job)) w)).
Proof.
  intros Hatt Hmade Hst Hproc Hf Hfuel. destruct fuel as [|fuel]; [lia|].
  destruct (runJob_attempt env fuel job w) as (c & w1 & _ & _ & E & R).
  set (w0 := set_eventQueue (Bull.put (Bull.set_state Bull.active job) (eventQueue w)) w) in *.
  destruct (processEvent_fail env (Bull.data job) (Bull.attemptsMade job) w0 Hst Hproc Hf)
    as (w1' & t1 & E1 & T1 & C1 & C2 & _ & D1 & _ & S1).
  rewrite E1 in E. injection E as <- <-. rewrite R. clear R.
  unfold Worker.handleFailed. cbv zeta.
  set (job' := Bull.set_attemptsMade (Bull.attemptsMade job + 1) job).
  assert (Hmade' : Bull.attemptsMade job' = 1) by (unfold job'; simpl; lia).
  assert (Hopts' : Bull.attempts (Bull.opts job') = 0) by exact Hatt.
  assert (Hmax' : Worker.maxAttempts job' = 5)
    by (unfold Worker.maxAttempts; rewrite Hopts'; reflexivity).
  destruct (Z.ltb_spec (Bull.attemptsMade job') (Bull.attempts (Bull.opts job'))); [lia|].
  unfold bind at 1, Worker.eventQueue_put at 1.
  match goal with |- context [set_eventQueue ?q w1'] => set (w2 := set_eventQueue q w1') end.
  unfold bind at 1, Worker.settle. rewrite on_failed_retry by lia.
  exists w2. split; [reflexivity|]. split; [exact D1|].
  rewrite (since_app w w2 t1 T1). auto.
Qed.

(** X23. A successful attempt leaves the row [ROUTED] with [processedAt]
    set and one attempt more than before. A row that was already there
    keeps its [type], [payload], [correlationId] and also its [error]: the
    data of the redelivered job does not overwrite it, and the message of
    an earlier failure stays on the routed row. A row that was missing is
    created from the data of the job, which is taken to pass the
    validators of the schema. *)
Theorem processEvent_success_row (d : JobData.EventJobData) (n : Z) (w : World) :
  Obs.statusOf (JobData.eventId d) w <> Some ROUTED ->
  Obs.processable d w ->
  Obs.routing_fails env (randomDraws w) = false ->
  exists w' e',
    Service.processEvent env d n w
      = (Normal (Service.mkResult true "Event routed successfully"), w')
    /\ Obs.row (JobData.eventId d) (ledger w') = Some e'
    /\ status e' = ROUTED
    /\ is_Some (processedAt e')
    /\ attempts e' = attemptsOf (JobData.eventId d) w + 1
    /\ match Obs.row (JobData.eventId d) (ledger w) with
       | Some e =>
           type e' = type e /\ payload e' = payload e
           /\ correlationId e' = correlationId e /\ error e' = error e
           /\ createdAt e' = createdAt e
       | None =>
           type e' = JobData.type d /\ payload e' = JobData.payload d
           /\ correlationId e' = JobData.correlationId d /\ error e' = None
       end.
Proof.
  intros Hst Hp Hf. unfold attemptsOf, Obs.processable, Obs.statusOf in *.
  destruct (Obs.row (JobData.eventId d) (ledger w)) as [e|] eqn:Hr.
  - assert (He : status e <> ROUTED) by (simpl in Hst; congruence).
    destruct (processEvent_existing_ok env d n w e Hr He Hf) as (w' & E & L & _).
    exists w'. eexists. split; [exact E|].
    rewrite L, !update_first_row by (intros; reflexivity). rewrite Hr. simpl.
    split; [reflexivity|]. repeat split; eauto.
  - destruct (processEvent_new_ok env d n w Hr (Hp eq_refl) Hf) as (w' & E & L & _).
    exists w'. eexists. split; [exact E|].
    rewrite L, row_app_fresh by (auto; reflexivity).
    split; [reflexivity|]. simpl. repeat split; eauto.
Qed.

(** X24. [handleFinalFailure] does not look at the status of the row: a
    row for the event, whatever its status, [ROUTED] included, ends
    [FAILED] with the given error, keeping its attempts and its
    [processedAt]; the rows of other events and the queues are untouched. *)
Theorem handleFinalFailure_overwrites
    (d : JobData.EventJobData) (err : string) (w : World) (e : IEvent) :
  Obs.row (JobData.eventId d) (ledger w) = Some e ->
  exists w' e',
    Service.handleFinalFailure env d err w = (Normal (), w')
    /\ Obs.row (JobData.eventId d) (ledger w') = Some e'
    /\ status e' = FAILED /\ error e' = Some err
    /\ attempts e' = attempts e /\ processedAt e' = processedAt e
    /\ (forall j, JobData.eventId d <> j -> Obs.row j (ledger w') = Obs.row j (ledger w))
    /\ eventQueue w' = eventQueue w /\ deadLetterQueue w' = deadLetterQueue w.
Proof.
  intros Hr. destruct w as [l q dq c r u t]. simpl in *.
  unfold Service.handleFinalFailure, Repository.markEventFailed, Mongoose.findOneAndUpdate,
    bind, emit, ret, new_Date. simpl.
  destruct (Mongoose.update_first _ _ l) as [o l'] eqn:U. simpl.
  assert (Hl : l' = snd (Mongoose.update_first (JobData.eventId d)
                           (Repository.failedUpdate err (Date_now env c)) l))
    by (rewrite U; reflexivity).
  do 2 eexists. split; [reflexivity|]. simpl. rewrite Hl.
  split; [rewrite update_first_row by (intros; reflexivity); rewrite Hr; reflexivity|].
  simpl. do 4 (split; [reflexivity|]).
  split; [|split; reflexivity].
  intros j Hj. apply update_first_other; [intros; reflexivity|exact Hj].
Qed.

End JobEnd.

(** ** The ledger under any interleaving *)

Section Interleavings.
Import Model Facts.
Variable env : Env.

(** A relation on ledgers that holds across every change a call can make
    holds across every run of the system. *)
Lemma exec_closed (P : list IEvent -> list IEvent -> Prop) :
  (forall l, P l l) ->
  (forall l1 l2 l3, P l1 l2 -> P l2 l3 -> P l1 l3) ->
  (forall l l', ledger_change l l' -> P l l') ->
  forall (actions : list Tasks.Action) (s : list Tasks.Handler * World),
    P (ledger (snd s)) (ledger (snd (Tasks.exec env actions s))).
Proof.
  intros Hrefl Htrans Hchange actions.
  induction actions as [|a actions IH]; intros [pool w]; [apply Hrefl|].
  simpl. eapply Htrans; [|apply (IH (Tasks.act env (pool, w) a))].
  apply Hchange, act_ledger.
Qed.

Lemma ledger_change_unique (l l' : list IEvent) :
  ledger_change l l' -> unique_index l -> unique_index l'.
Proof.
  intros [|e Hn Hs|j f Hk Hst] Hu.
  - exact Hu.
  - apply unique_insert; assumption.
  - apply unique_update; [intros e; apply (Hk e)|exact Hu].
Qed.

Lemma ledger_change_persists (l l' : list IEvent) :
  ledger_change l l' -> persists l l'.
Proof.
  intros [|e Hn Hs|j f Hk Hst].
  - apply persists_refl.
  - apply persists_insert.
  - apply persists_update, Hk.
Qed.

(** The two views of a job agree: the handler of a job, resumed on its
    own until it has settled, ends with the outcome and in the world of
    the worker run in one piece, whatever else is in flight; and
    [processEvent] await by await, every call served at once, is
    [processEvent]. *)
Lemma handler_alone_is_runJob
    (fuel : nat) (job : Bull.Job JobData.EventJobData)
    (pool rest : list Tasks.Handler) (w : World)
    (d : JobData.EventJobData) (n : Z) :
  (exists k,
     Tasks.exec env (repeat (Tasks.Resume (length pool)) k)
       (pool ++ Tasks.runJob fuel job :: rest, w)
     = (pool ++ Tasks.Done (fst (Worker.runJob fuel env job w)) :: rest,
        snd (Worker.runJob fuel env job w)))
  /\ Tasks.run env (Tasks.processEvent d n) w = Service.processEvent env d n w
  /\ Tasks.run env (Tasks.runJob fuel job) w = Worker.runJob fuel env job w.
Proof.
  split; [|split; [apply run_processEvent|apply run_runJob]].
  destruct (exec_resume env (Tasks.runJob fuel job) pool rest w) as [k Hk].
  exists k. rewrite run_runJob in Hk. exact Hk.
Qed.

(** X25. The unique index and the rows of the ledger under any
    interleaving: over every run of the system, with the handlers of the
    jobs in flight resumed in any order, a ledger that respects the unique
    index on [eventId] still does, and every row is still there, with its
    [eventId], [type], [payload], [correlationId] and [createdAt] and with
    no fewer attempts. *)
Theorem interleaved_ledger_invariants
    (actions : list Tasks.Action) (s : list Tasks.Handler * World) :
  (unique_index (ledger (snd s)) ->
   unique_index (ledger (snd (Tasks.exec env actions s))))
  /\ persists (ledger (snd s)) (ledger (snd (Tasks.exec env actions s))).
Proof.
  split.
  - apply (exec_closed (fun l l' => unique_index l -> unique_index l')); auto.
    intros l l' H. apply ledger_change_unique, H.
  - apply (exec_closed persists).
    + apply persists_refl.
    + apply persists_trans.
    + apply ledger_change_persists.
Qed.

End Interleavings.

(** ** The further properties on the sample data *)

Section MoreSamples.
Import Model Sample Cases Facts.

Ltac compute_it := first [ reflexivity | discriminate | vm_compute; reflexivity
                         | vm_compute; discriminate | vm_compute; lia ].

(** A signed request whose [eventId] reads as an integer is answered 500:
    the queue refuses the job id, and nothing is enqueued. *)
Example ingestEvent_refuses_integer_id :
  accepted env_ok request_123 = false
  /\ Controller.ingestEvent env_ok request_123 (world [])
     = (Normal (Controller.mkResponse 500
                  (Controller.ErrorBody "Internal server error" "3f0c7a52-uuid")),
        snd (uuid env_ok (snd (new_Date env_ok (world []))))).
Proof. vm_compute. split; reflexivity. Qed.

Example refused_job_ids :
  List.map Bull.refused ["123"; "-5"; "NaN"; "9007199254740993"; "0123"; "12a"; "e1";
                         "order:7"; "a:b:c"; "0:b:c"; "0"; ""]
  = [true; true; true; false; false; false; false; true; false; true; true; false].
Proof. vm_compute. reflexivity. Qed.

(** Job data that fails validation, for an event without a row: the
    attempt throws the validation error before anything is written, the
    job fails after its attempts, and the event is dead-lettered without
    ever having a row. *)
Example invalid_data_is_dead_lettered :
  let job := Bull.mkJob (Bull.CustomId "e9") "process-event" data_invalid
               (Bull.mkOpts 5 1000) 0 Bull.waiting in
  let w' := snd (Worker.runJob 5 env_ok job (world [])) in
  Repository.createEvent env_ok data_invalid (world [])
  = (Throw (mkError "Event validation failed: payload: Path `payload` is required." None),
     world [])
  /\ fst (Service.processEvent env_ok data_invalid 0 (world []))
     = Throw (mkError "Event validation failed: payload: Path `payload` is required." None)
  /\ ledger w' = []
  /\ List.filter Obs.is_route (trace w') = []
  /\ List.map Bull.name (Bull.jobs (deadLetterQueue w')) = ["failed-event"; "failed-event"].
Proof. vm_compute. repeat split. Qed.

(** Two jobs of one event in flight, status by status: the row is
    [FAILED], then [ROUTED] once the replayed job has been routed, then
    [FAILED] again once the listener of the other job has run, with the
    [processedAt] of the routing still on it. *)
Example routed_then_failed :
  let s1 := Tasks.exec env_late run_to_routed ([], world_replayable) in
  let s2 := Tasks.exec env_late listener_runs s1 in
  Obs.statusOf "e1" world_replayable = Some FAILED
  /\ Obs.statusOf "e1" (snd s1) = Some ROUTED
  /\ Obs.since (snd s1) (snd s2)
     = [LedgerUpdate "e1" (Some FAILED); QueueAdd EventQueue.DLQ_NAME "failed-event"]
  /\ Obs.statusOf "e1" (snd s2) = Some FAILED
  /\ (processedAt <$> Obs.row "e1" (ledger (snd s2))) = Some (Some 8)
  /\ fst s2 = [Tasks.Done (Normal (Worker.JobFailed Service.routingError));
               Tasks.Done (Normal Worker.JobCompleted)].
Proof. vm_compute. repeat split. Qed.

Lemma interleaved_ledger_invariants_witness :
  unique_index (ledger world_replayable)
  /\ unique_index
       (ledger (snd (Tasks.exec env_late (run_to_routed ++ listener_runs)
                       ([], world_replayable)))).
Proof.
  assert (U : unique_index (ledger world_replayable)).
  { intros i. unfold Obs.rows. simpl. destruct (Mongoose.matches i _); simpl; lia. }
  split; [exact U|].
  destruct (interleaved_ledger_invariants env_late (run_to_routed ++ listener_runs)
              ([], world_replayable)) as [H _].
  apply H. exact U.
Defined.

Lemma validateHMAC_text_and_buffer_witness :
  "test-secret-key" <> ""
  /\ Hmac.validateHMAC
       (Hmac.PBuffer (Node.Buffer_from (Node.JSON_stringify test_payload)))
       (Hmac.generateHMAC test_payload "test-secret-key") "test-secret-key"
     = Normal true.
Proof.
  split; [discriminate|].
  apply (validateHMAC_text_and_buffer test_payload "test-secret-key"). discriminate.
Defined.

Lemma validateHMAC_ignores_trailing_text_witness :
  Node.Buffer_from_hex "zz" = []
  /\ Hmac.validateHMAC (Hmac.PValue test_payload)
       (Hmac.generateHMAC test_payload "test-secret-key" +:+ "zz") "test-secret-key"
     = Normal true.
Proof.
  split; [reflexivity|].
  apply (validateHMAC_ignores_trailing_text (Hmac.PValue test_payload)
           (Hmac.generateHMAC test_payload "test-secret-key") "test-secret-key" "zz");
    compute_it.
Defined.

Lemma ingestEvent_rejection_has_no_effect_witness :
  accepted env_ok request_unsigned = false
  /\ eventQueue (snd (Controller.ingestEvent env_ok request_unsigned (world [])))
     = eventQueue (world []).
Proof.
  split; [compute_it|].
  destruct (ingestEvent_rejection_has_no_effect env_ok request_unsigned (world []))
    as (r & w' & E & _ & Q & _); [compute_it|].
  rewrite E. exact Q.
Defined.

Lemma ingestEvent_enqueues_once_witness :
  accepted env_ok request1 = true
  /\ exists r, fst (Controller.ingestEvent env_ok request1 (world [])) = Normal r
               /\ Controller.statusCode r = 202.
Proof.
  split; [compute_it|].
  destruct (ingestEvent_enqueues_once env_ok request1 (world []))
    as (i & ty & p & cid & latency & w' & _ & _ & _ & E & _); [compute_it|].
  rewrite E. eexists. split; reflexivity.
Defined.

Lemma addEventToQueue_idempotent_witness :
  JobData.eventId data1 <> ""
  /\ Bull.refused (JobData.eventId data1) = false
  /\ JobData.eventId data1_again = JobData.eventId data1
  /\ eventQueue (snd (EventQueue.addEventToQueue data1_again
                        (snd (EventQueue.addEventToQueue data1 (world [])))))
     = eventQueue (snd (EventQueue.addEventToQueue data1 (world []))).
Proof.
  split; [discriminate|]. split; [reflexivity|]. split; [reflexivity|].
  destruct (addEventToQueue_idempotent data1 data1_again (world []))
    as (w1 & w2 & E1 & E2 & Q & _); [discriminate|reflexivity|reflexivity|].
  rewrite E1. simpl. rewrite E2. exact Q.
Defined.

Lemma ingestEvent_behind_middleware_witness :
  (forall k, randomUUID env_ok k <> "")
  /\ exists req' w1 r w2,
       App.correlationMiddleware env_ok request1 (world []) = (Normal req', w1)
       /\ Controller.ingestEvent env_ok req' w1 = (Normal r, w2)
       /\ response_cid r = "3f0c7a52-uuid".
Proof.
  split; [intros k; discriminate|].
  destruct (ingestEvent_behind_middleware env_ok request1 (world []))
    as (req' & w1 & r & w2 & E1 & E2 & _ & Hc & _); [intros k; discriminate|].
  exists req', w1, r, w2. split; [exact E1|]. split; [exact E2|].
  rewrite Hc. compute_it.
Defined.

Lemma ingestEvent_accepts_signed_witness :
  HMAC_SECRET env_ok = Some "test-secret-key"
  /\ Bull.refused "e1" = false
  /\ exists r, fst (Controller.ingestEvent env_ok request1 (world [])) = Normal r
               /\ Controller.statusCode r = 202.
Proof.
  split; [reflexivity|]. split; [reflexivity|].
  destruct (ingestEvent_accepts_signed env_ok request1 (world []) "test-secret-key"
              (Node.Buffer_from body1) "e1" "ORDER_CREATED" (JObject []))
    as (cid & latency & w' & E);
    [reflexivity|discriminate|reflexivity|vm_compute; reflexivity|reflexivity
    |discriminate|discriminate|reflexivity|reflexivity|].
  rewrite E. eexists. split; reflexivity.
Defined.

Lemma ledger_rows_persist_witness :
  rtc (Obs.Step env_ok) (world [row1 ROUTING_PENDING])
      (snd (Worker.runJob 5 env_ok job1 (world [row1 ROUTING_PENDING])))
  /\ persists [row1 ROUTING_PENDING]
       (ledger (snd (Worker.runJob 5 env_ok job1 (world [row1 ROUTING_PENDING])))).
Proof.
  assert (H : rtc (Obs.Step env_ok) (world [row1 ROUTING_PENDING])
                  (snd (Worker.runJob 5 env_ok job1 (world [row1 ROUTING_PENDING])))).
  { apply rtc_once. apply Obs.step_job. simpl. left. reflexivity. }
  split; [exact H|]. exact (ledger_rows_persist env_ok _ _ H).
Defined.

Lemma unique_index_preserved_witness :
  unique_index [row1 ROUTING_PENDING]
  /\ unique_index
       (ledger (snd (Worker.runJob 5 env_fail job1 (world [row1 ROUTING_PENDING])))).
Proof.
  assert (H : rtc (Obs.Step env_fail) (world [row1 ROUTING_PENDING])
                  (snd (Worker.runJob 5 env_fail job1 (world [row1 ROUTING_PENDING])))).
  { apply rtc_once. apply Obs.step_job. simpl. left. reflexivity. }
  assert (U : unique_index [row1 ROUTING_PENDING]).
  { intros i. unfold Obs.rows. simpl. destruct (Mongoose.matches i _); simpl; lia. }
  split; [exact U|]. exact (unique_index_preserved env_fail _ _ H U).
Defined.

Lemma routed_at_most_once_witness :
  (length (List.filter (is_routed_update "e1")
             (Obs.since (world [])
                (snd (Worker.runJob 5 env_ok (Bull.set_state Bull.completed job1)
                        (snd (Worker.runJob 5 env_ok job1 (world []))))))) <= 1)%nat
  /\ length (List.filter (is_routed_update "e1")
               (Obs.since (world [row1 FAILED])
                  (snd (Tasks.exec env_ok
                          (List.map Tasks.Resume Tasks.second_checks_before_first_marks)
                          ([Tasks.runJob 5 job1; Tasks.runJob 5 job1_replayed],
                           world [row1 FAILED]))))) = 2%nat.
Proof.
  split.
  - destruct (routed_at_most_once env_ok (world []) "e1") as [H _].
    apply H.
    eapply rtc_l; [apply Obs.step_job; simpl; left; reflexivity|].
    apply rtc_once. apply Obs.step_job. vm_compute. left. reflexivity.
  - destruct (routed_at_most_once env_ok (world [row1 FAILED]) "e1") as [_ H].
    destruct (H job1 job1_replayed (row1 FAILED) 4%nat 4%nat) as (w' & E & U & _);
      [reflexivity|reflexivity|reflexivity|discriminate|reflexivity|reflexivity|].
    rewrite E. simpl. rewrite U. reflexivity.
Defined.


Lemma runJob_settles_witness :
  0 <= Bull.attemptsMade job1 < Bull.attempts (Bull.opts job1)
  /\ exists o, fst (Worker.runJob 5 env_ok job1 (world [])) = Normal o
               /\ o <> Worker.JobPending.
Proof.
  split; [simpl; lia|].
  destruct (runJob_settles env_ok job1 (world []) 5) as (o & w' & E & _ & Hend);
    [simpl; lia|intros _; reflexivity|simpl; lia|].
  rewrite E. exists o. split; [reflexivity|].
  destruct Hend as [(-> & _)|(-> & _)]; discriminate.
Defined.

Lemma zero_attempts_job_is_not_dead_lettered_witness :
  Bull.attempts (Bull.opts job_zero) = 0
  /\ deadLetterQueue (snd (Worker.runJob 5 env_fail job_zero (world [])))
     = deadLetterQueue (world []).
Proof.
  split; [reflexivity|].
  destruct (zero_attempts_job_is_not_dead_lettered env_fail job_zero (world []) 5)
    as (w' & E & D & _);
    [reflexivity|reflexivity|discriminate|intros _; reflexivity|reflexivity|lia|].
  rewrite E. exact D.
Defined.

Lemma processEvent_success_row_witness :
  Obs.statusOf "e1" (world [row1 FAILED]) = Some FAILED
  /\ Obs.routing_fails env_ok 0 = false
  /\ exists r, fst (Service.processEvent env_ok data1 0 (world [row1 FAILED])) = Normal r.
Proof.
  split; [reflexivity|]. split; [reflexivity|].
  destruct (processEvent_success_row env_ok data1 0 (world [row1 FAILED]))
    as (w' & e' & E & _); [compute_it|intros H; discriminate H|compute_it|].
  rewrite E. eexists. reflexivity.
Defined.

Lemma handleFinalFailure_overwrites_witness :
  Obs.row "e1" (ledger (world [row1 ROUTED])) = Some (row1 ROUTED)
  /\ Obs.statusOf "e1"
       (snd (Service.handleFinalFailure env_ok data1 "timeout" (world [row1 ROUTED])))
     = Some FAILED.
Proof.
  split; [reflexivity|].
  destruct (handleFinalFailure_overwrites env_ok data1 "timeout" (world [row1 ROUTED])
              (row1 ROUTED))
    as (w' & e' & E & Hr & Hs & _); [reflexivity|].
  rewrite E. unfold Obs.statusOf. simpl in *. rewrite Hr. simpl. rewrite Hs. reflexivity.
Defined.

End MoreSamples.
